(** * Crown work order lifecycle and detection engine

    A shallow embedding of the TypeScript sources of the dental
    work-order backend.  Each module embeds one source file:

      - [CrownTypes]: the crown work order types and helpers
        ([types/crownWorkOrder], in [src/src/utils/logger.ts]);
      - [CrownDetection]: [src/src/services/crownDetection.ts];
      - [Supabase]: the table [lab_slips] as the queries use it, with the
        constraints of [src/migrations/add_crown_work_order_fields.sql];
      - [WorkOrderQueries]:
        [src/attached_assets/workOrderQueries_1761510428511.ts];
      - [Routes]: the crown work order API routes
        (in [src/attached_assets/pdfGenerator_1761510428511.ts]);
      - [AICommands]: the AI commands service ([src/unnamed/part_008]).

    Conventions of the embedding.

      - A JavaScript string is a [string] of 8-bit code units.  Case mapping
        acts on the ASCII letters; the white space of [trim] and of the
        regular expression class [\s] is TAB, LF, VT, FF, CR, SPACE and
        NBSP, the white-space code units below 256.
      - A JavaScript number that the code only uses as a number (a
        confidence) is a binary64 [float].  Integral quantities (database
        keys, millisecond time stamps) are [Z].
      - [new Date()] is an explicit argument [now], in milliseconds; one
        operation reads the clock once.
      - The Supabase table [lab_slips] is a list of rows threaded through the
        query functions; a query returns the [{ data, error }] pair of the
        source.  The table answers every request: the only errors are
        those PostgREST and the constraints of the table raise.
      - A [try] block is a computation in the monad [Js.Outcome], which
        returns a value or throws; [Js.tryCatch] is its [catch] block.
      - Where two records of a module have a field of the same name, one of
        them carries a prefix ([cStatus], [uStatus], [fStatus] for the
        [status] of the creation parameters, the update parameters and the
        filters). *)

From Stdlib Require Import Bool List String Ascii ZArith Lia Floats.
From Stdlib Require Import DecimalString.
Import ListNotations.

#[local] Set Warnings "-inexact-float,-register-all".

Local Open Scope string_scope.
Local Open Scope Z_scope.

(* ================================================================== *)
(** ** JavaScript: exceptions *)
(* ================================================================== *)

Module Js.

(** The outcome of a block of statements: it runs to a value or throws. *)
Inductive Outcome (A : Type) : Type :=
| Return (a : A)
| Throw (error : string).
Arguments Return {A} _.
Arguments Throw {A} _.

Definition bind {A B : Type} (m : Outcome A) (k : A -> Outcome B) : Outcome B :=
  match m with
  | Return a => k a
  | Throw e => Throw e
  end.

(** [try { m } catch (error) { handler }] *)
Definition tryCatch {A : Type} (m : Outcome A) (handler : string -> A) : A :=
  match m with
  | Return a => a
  | Throw e => handler e
  end.

End Js.

Declare Scope js_scope.
Delimit Scope js_scope with js.
Notation "x <- m ;; k" := (Js.bind m (fun x => k))
  (at level 61, m at next level, right associativity) : js_scope.

(* ================================================================== *)
(** ** JavaScript strings *)
(* ================================================================== *)

Module JsString.

Definition code (c : ascii) : N := N_of_ascii c.

Definition inRange (lo hi : N) (c : ascii) : bool :=
  (N.leb lo (code c) && N.leb (code c) hi)%bool.

Definition isUpper : ascii -> bool := inRange 65 90.
Definition isLower : ascii -> bool := inRange 97 122.
Definition isDigit : ascii -> bool := inRange 48 57.

(** White space as [String.prototype.trim] and the class [\s] see it. *)
Definition isWhiteSpace (c : ascii) : bool :=
  (inRange 9 13 c || N.eqb (code c) 32 || N.eqb (code c) 160)%bool.

(** The class [\w] behind the assertion [\b]. *)
Definition isWordChar (c : ascii) : bool :=
  (isUpper c || isLower c || isDigit c || N.eqb (code c) 95)%bool.

Definition toUpperChar (c : ascii) : ascii :=
  if isLower c then ascii_of_N (code c - 32) else c.

Definition toLowerChar (c : ascii) : ascii :=
  if isUpper c then ascii_of_N (code c + 32) else c.

Fixpoint map (f : ascii -> ascii) (s : string) : string :=
  match s with
  | EmptyString => EmptyString
  | String c s' => String (f c) (map f s')
  end.

Definition toUpperCase : string -> string := map toUpperChar.
Definition toLowerCase : string -> string := map toLowerChar.

Fixpoint trimStart (s : string) : string :=
  match s with
  | String c s' => if isWhiteSpace c then trimStart s' else s
  | EmptyString => EmptyString
  end.

(** [trimEnd] drops the trailing white space: a character stays when it is
    not white space or something after it stays. *)
Fixpoint trimEnd (s : string) : string :=
  match s with
  | EmptyString => EmptyString
  | String c s' =>
      match trimEnd s' with
      | EmptyString => if isWhiteSpace c then EmptyString else String c EmptyString
      | t => String c t
      end
  end.

Definition trim (s : string) : string := trimEnd (trimStart s).

(** [s.includes(sub)] *)
Fixpoint includes (s sub : string) : bool :=
  (String.prefix sub s ||
   match s with
   | EmptyString => false
   | String _ s' => includes s' sub
   end)%bool.

(** JavaScript truthiness of a string. *)
Definition truthy (s : string) : bool :=
  match s with EmptyString => false | _ => true end.

(** [arr.includes(x)] on an array of strings. *)
Definition arrayIncludes (arr : list string) (x : string) : bool :=
  existsb (String.eqb x) arr.

End JsString.

(* ================================================================== *)
(** ** src/types/crownWorkOrder.ts *)
(* ================================================================== *)

Module CrownTypes.

Inductive CrownMaterial :=
| Zirconia | Emax | PorcelainFusedToMetal | FullGold | Porcelain
| Composite | OtherMaterial.

(** [WorkOrderStatus] is a union of string literals: at run time a
    status is a string, and a request may carry any string. *)
Definition WorkOrderStatus := string.

Definition pending : WorkOrderStatus := "pending".
Definition scanned : WorkOrderStatus := "scanned".
Definition designed : WorkOrderStatus := "designed".
Definition milling : WorkOrderStatus := "milling".
Definition sintering : WorkOrderStatus := "sintering".
Definition finishing : WorkOrderStatus := "finishing".
Definition qc : WorkOrderStatus := "qc".
Definition ready : WorkOrderStatus := "ready".
Definition seated : WorkOrderStatus := "seated".
Definition cancelled : WorkOrderStatus := "cancelled".
Definition on_hold : WorkOrderStatus := "on_hold".

Inductive Priority := routine | urgent | asap.

(** [CROWN_PROCEDURE_CODES]: the object literal, own keys in order. *)
Definition CROWN_PROCEDURE_CODES : list (string * string) :=
  [ ("D2740", "Crown - porcelain/ceramic substrate");
    ("D2750", "Crown - porcelain fused to high noble metal");
    ("D2751", "Crown - porcelain fused to predominantly base metal");
    ("D2752", "Crown - porcelain fused to noble metal") ].

Definition Object_keys {V} (o : list (string * V)) : list string :=
  List.map fst o.

(** The property names every object literal inherits from
    [Object.prototype]; the operator [in] walks the prototype chain. *)
Definition Object_prototype_keys : list string :=
  [ "constructor"; "__defineGetter__"; "__defineSetter__";
    "hasOwnProperty"; "__lookupGetter__"; "__lookupSetter__";
    "isPrototypeOf"; "propertyIsEnumerable"; "toString"; "valueOf";
    "__proto__"; "toLocaleString" ].

(** [key in obj] for an object literal [obj]. *)
Definition js_in {V} (key : string) (o : list (string * V)) : bool :=
  (JsString.arrayIncludes (Object_keys o) key
   || JsString.arrayIncludes Object_prototype_keys key)%bool.

Fixpoint lookup {V} (key : string) (o : list (string * V)) : option V :=
  match o with
  | [] => None
  | (k, v) :: o' => if String.eqb key k then Some v else lookup key o'
  end.

Definition isCrownProcedure (code : string) : bool :=
  js_in code CROWN_PROCEDURE_CODES.

(** [getCrownDescription]; [CROWN_PROCEDURE_CODES[code]] is [undefined]
    ([None]) for an inherited key. *)
Definition getCrownDescription (code : string) : option string :=
  if isCrownProcedure code then lookup code CROWN_PROCEDURE_CODES
  else Some "Unknown procedure".

Definition inProgressStatuses : list WorkOrderStatus :=
  [scanned; designed; milling; sintering; finishing; qc].

Definition isInProgress (s : WorkOrderStatus) : bool :=
  JsString.arrayIncludes inProgressStatuses s.

Definition isComplete (s : WorkOrderStatus) : bool :=
  String.eqb s seated.

End CrownTypes.

(* ================================================================== *)
(** ** Regular expressions, as far as the sources use them *)
(* ================================================================== *)

(** A backtracking matcher for the fragment of ECMAScript regular
    expressions that occurs in the sources: a character of a class, a
    sequence, a greedy bounded or unbounded repetition of a class, one
    capture group and the word-boundary assertion.  The flag [i] is part
    of the classes a pattern is built from ([ci] below). *)
Module Regex.

Inductive regex :=
| REmpty
| RChar (p : ascii -> bool)
| RSeq (r1 r2 : regex)
| RRep (p : ascii -> bool) (lo : nat) (hi : option nat)
| RGroup (r : regex)
| RWordB
| RBegin
| REnd.

Section Matcher.
Context {A : Type}.

(** A continuation receives the character before the current position
    (for [\b]), the rest of the input and the text of the capture
    group so far. *)
Definition cont := option ascii -> string -> option string -> option A.

(** Greedy repetition: one more character first, the shorter match
    only when the rest of the pattern fails after the longer ones. *)
Fixpoint repeat_greedy (p : ascii -> bool) (lo fuel : nat)
         (prev : option ascii) (s : string) (cap : option string)
         (k : cont) : option A :=
  let stop := match lo with O => k prev s cap | S _ => None end in
  match fuel, s with
  | S fuel', String c s' =>
      if p c then
        match repeat_greedy p (pred lo) fuel' (Some c) s' cap k with
        | Some r => Some r
        | None => stop
        end
      else stop
  | _, _ => stop
  end.

Definition isWord (c : option ascii) : bool :=
  match c with Some c => JsString.isWordChar c | None => false end.

Definition head (s : string) : option ascii :=
  match s with String c _ => Some c | EmptyString => None end.

(** The text consumed between the input [s] and its suffix [s']. *)
Definition consumed (s s' : string) : string :=
  String.substring 0 (String.length s - String.length s') s.

Fixpoint rmatch (r : regex) (prev : option ascii) (s : string)
         (cap : option string) (k : cont) : option A :=
  match r with
  | REmpty => k prev s cap
  | RChar p =>
      match s with
      | String c s' => if p c then k (Some c) s' cap else None
      | EmptyString => None
      end
  | RSeq r1 r2 =>
      rmatch r1 prev s cap (fun prev' s' cap' => rmatch r2 prev' s' cap' k)
  | RRep p lo hi =>
      let fuel := match hi with Some h => h | None => String.length s end in
      repeat_greedy p lo fuel prev s cap k
  | RGroup r1 =>
      rmatch r1 prev s cap
             (fun prev' s' _ => k prev' s' (Some (consumed s s')))
  | RWordB =>
      if xorb (isWord prev) (isWord (head s)) then k prev s cap else None
  | RBegin =>
      match prev with None => k prev s cap | Some _ => None end
  | REnd =>
      match s with EmptyString => k prev s cap | String _ _ => None end
  end.
End Matcher.

(** A match at the current position: the text of group 1. *)
Definition matchHere (r : regex) (prev : option ascii) (s : string)
  : option (option string) :=
  rmatch r prev s None (fun _ _ cap => Some cap).

(** [RegExp.prototype.exec] without the flag [g]: the match at the
    leftmost start position. *)
Fixpoint execFrom (r : regex) (prev : option ascii) (s : string)
  : option (option string) :=
  match matchHere r prev s with
  | Some cap => Some cap
  | None =>
      match s with
      | String c s' => execFrom r (Some c) s'
      | EmptyString => None
      end
  end.

(** [str.match(re)], projected on [match[1]]: [None] is [null]. *)
Definition js_match (s : string) (r : regex) : option (option string) :=
  execFrom r None s.

(** [re.test(str)] *)
Definition js_test (r : regex) (s : string) : bool :=
  match execFrom r None s with Some _ => true | None => false end.

(** Pattern builders.  With [ci] (the flag [i]) a letter stands for both
    of its cases. *)
Definition chr (ci : bool) (c : ascii) : regex :=
  RChar (fun x => if ci
                  then Ascii.eqb (JsString.toUpperChar x) (JsString.toUpperChar c)
                  else Ascii.eqb x c).

Fixpoint lit (ci : bool) (s : string) : regex :=
  match s with
  | EmptyString => REmpty
  | String c s' => RSeq (chr ci c) (lit ci s')
  end.

Fixpoint seq (rs : list regex) : regex :=
  match rs with
  | [] => REmpty
  | r :: rs' => RSeq r (seq rs')
  end.

(** The class [[A-D]]. *)
Definition cls_AD (ci : bool) : ascii -> bool :=
  fun x => JsString.inRange 65 68 (if ci then JsString.toUpperChar x else x).

(** The class [[:\s]]. *)
Definition cls_colon_space : ascii -> bool :=
  fun x => (Ascii.eqb x ":" || JsString.isWhiteSpace x)%bool.

Definition plus (p : ascii -> bool) : regex := RRep p 1 None.

(** The group [([A-D]\d{1,2})]. *)
Definition shadeGroup (ci : bool) : regex :=
  RGroup (RSeq (RChar (cls_AD ci)) (RRep JsString.isDigit 1 (Some 2%nat))).

End Regex.

(* ================================================================== *)
(** ** src/services/crownDetection.ts *)
(* ================================================================== *)

Module CrownDetection.
Import CrownTypes.

Record DetectionResult := {
  isCrown : bool;
  procedureCode : option string;
  description : option string;
  confidence : float;
  recommendedMaterial : option CrownMaterial;
  notes : option string
}.

Record ProcedureDetectionConfig := {
  monitoredCodes : list string;
  autoCreateWorkOrder : bool;
  requiresApproval : bool;
  defaultPriority : Priority
}.

Definition DEFAULT_DETECTION_CONFIG : ProcedureDetectionConfig :=
  {| monitoredCodes := Object_keys CROWN_PROCEDURE_CODES;
     autoCreateWorkOrder := true;
     requiresApproval := false;
     defaultPriority := routine |}.

(** [recommendMaterialForCode]: the lookup [materialMap[code]]. *)
Definition materialMap : list (string * CrownMaterial) :=
  [ ("D2740", Zirconia);
    ("D2750", PorcelainFusedToMetal);
    ("D2751", PorcelainFusedToMetal);
    ("D2752", PorcelainFusedToMetal) ].

Definition recommendMaterialForCode (code : string) : option CrownMaterial :=
  lookup code materialMap.

Definition describe (code : string) : string :=
  match getCrownDescription code with Some d => d | None => "undefined" end.

Definition detectCrownProcedure (config : ProcedureDetectionConfig)
           (procedureCode : string) : DetectionResult :=
  let normalizedCode := JsString.toUpperCase (JsString.trim procedureCode) in
  if (JsString.arrayIncludes (monitoredCodes config) normalizedCode
      && isCrownProcedure normalizedCode)%bool
  then
    let material := recommendMaterialForCode normalizedCode in
    {| isCrown := true;
       procedureCode := Some normalizedCode;
       description := getCrownDescription normalizedCode;
       confidence := 1%float;
       recommendedMaterial := material;
       notes := Some ("Detected " ++ normalizedCode ++ " - "
                                  ++ describe normalizedCode) |}
  else
    {| isCrown := false;
       procedureCode := None;
       description := None;
       confidence := 0%float;
       recommendedMaterial := None;
       notes := Some ("Procedure code " ++ procedureCode
                        ++ " is not a monitored crown procedure") |}.

(** *** extractShade *)

Import Regex.

(** [/shade[:\s]+([A-D]\d{1,2})/i] *)
Definition shadeLabelPrefixed : regex :=
  seq [lit true "shade"; plus cls_colon_space; shadeGroup true].

(** [/([A-D]\d{1,2})\s+shade/i] *)
Definition shadeLabelSuffixed : regex :=
  seq [shadeGroup true; plus JsString.isWhiteSpace; lit true "shade"].

(** [/color[:\s]+([A-D]\d{1,2})/i] *)
Definition shadeColorPrefixed : regex :=
  seq [lit true "color"; plus cls_colon_space; shadeGroup true].

(** [/\b([A-D]\d{1,2})\b/] *)
Definition shadeBareToken : regex :=
  seq [RWordB; shadeGroup false; RWordB].

Definition shadePatterns : list regex :=
  [ shadeLabelPrefixed; shadeLabelSuffixed; shadeColorPrefixed;
    shadeBareToken ].

(** The body of the [for] loop: [match && match[1]]. *)
Definition shadeOf (notes : string) (pattern : regex) : option string :=
  match js_match notes pattern with
  | Some (Some m1) =>
      if JsString.truthy m1 then Some (JsString.toUpperCase m1) else None
  | _ => None
  end.

Fixpoint firstShade (patterns : list regex) (notes : string) : option string :=
  match patterns with
  | [] => None
  | pattern :: rest =>
      match shadeOf notes pattern with
      | Some shade => Some shade
      | None => firstShade rest notes
      end
  end.

Definition extractShade (notes : string) : string :=
  match firstShade shadePatterns notes with
  | Some shade => shade
  | None => "A2"
  end.

(** *** extractToothNumber *)

(** [parseInt(str)] without a radix: leading white space, a sign, the
    prefix [0x] or [0X] for radix 16, then the longest run of digits.
    [None] is [NaN].  The result is the exact integer; the code compares
    it with 1 and 32 only, where the rounding of a long run of digits to
    a binary64 number makes no difference. *)
Definition digitValue (radix : Z) (c : ascii) : option Z :=
  let n := Z.of_N (JsString.code c) in
  let v := if JsString.isDigit c then Some (n - 48)
           else if JsString.inRange 97 122 c then Some (n - 87)
           else if JsString.inRange 65 90 c then Some (n - 55)
           else None in
  match v with
  | Some d => if d <? radix then Some d else None
  | None => None
  end.

(** The value of the longest run of digits at the head of [s], started
    from the accumulator [acc]; [seen] tells whether a digit was read. *)
Fixpoint digitRun (radix : Z) (s : string) (acc : Z) (seen : bool)
  : option Z :=
  match s with
  | String c s' =>
      match digitValue radix c with
      | Some d => digitRun radix s' (acc * radix + d) true
      | None => if seen then Some acc else None
      end
  | EmptyString => if seen then Some acc else None
  end.

Definition parseInt (str : string) : option Z :=
  let s := JsString.trimStart str in
  let '(sign, s) :=
    match s with
    | String "-" s' => (-1, s')
    | String "+" s' => (1, s')
    | _ => (1, s)
    end in
  let '(radix, s) :=
    match s with
    | String "0" (String "x" s') => (16, s')
    | String "0" (String "X" s') => (16, s')
    | _ => (10, s)
    end in
  match digitRun radix s 0 false with
  | Some n => Some (sign * n)
  | None => None
  end.

(** [/^[A-T]$/i] *)
Definition primaryToothLetter : regex :=
  seq [RBegin;
       RChar (fun x => JsString.inRange 65 84 (JsString.toUpperChar x));
       REnd].

Section ToothNumber.
(** [String(n)] for a number [n] is the run time's number-to-string
    conversion; the function is the same for every such conversion. *)
Variable Number_toString : float -> string.

Definition js_String (v : string + float) : string :=
  match v with inl s => s | inr n => Number_toString n end.

Definition extractToothNumber (toothNum : string + float) : string :=
  let cleaned := JsString.trim (js_String toothNum) in
  let num := parseInt cleaned in
  if match num with
     | Some n => ((1 <=? n) && (n <=? 32))%bool
     | None => false
     end
  then cleaned
  else if js_test primaryToothLetter cleaned
       then JsString.toUpperCase cleaned
       else cleaned.
End ToothNumber.

(** *** determinePriority *)

(** A [Date] holds a time value in milliseconds, or [NaN] for an invalid
    date ([None]). *)
Definition JsDate := option Z.

Definition urgentKeywords : list string :=
  ["urgent"; "asap"; "rush"; "emergency"; "same day"].

Definition msPerDay : Z := 1000 * 60 * 60 * 24.

(** [Math.ceil(ms / msPerDay)].  Rounding the quotient to binary64 is
    monotone and keeps the integers 1 and 3, so the two comparisons
    below come out as on the exact quotient. *)
Definition ceilDays (ms : Z) : Z := - ((- ms) / msPerDay).

Definition determinePriority (config : ProcedureDetectionConfig) (now : Z)
           (procedureDate : JsDate) (appointmentDate : option JsDate)
           (notes : option string) : Priority :=
  let keywordHit :=
    match notes with
    | Some notes =>
        (JsString.truthy notes &&
         let notesLower := JsString.toLowerCase notes in
         existsb (fun keyword => JsString.includes notesLower keyword)
                 urgentKeywords)%bool
    | None => false
    end in
  if keywordHit then asap
  else
    match appointmentDate with
    | Some (Some t) =>
        let daysUntilAppointment := ceilDays (t - now) in
        if daysUntilAppointment <=? 1 then asap
        else if daysUntilAppointment <=? 3 then urgent
        else defaultPriority config
    | Some None => defaultPriority config
    | None => defaultPriority config
    end.

End CrownDetection.

(* ================================================================== *)
(** ** The table [lab_slips] behind the Supabase client *)
(* ================================================================== *)

(** The PostgREST calls the queries make, on a table held as a list of
    rows.  The columns are those of [CrownWorkOrderRecord]; of the JSONB
    column [lab_slip_data] the fields that some query or route reads or
    writes are kept (the practice, patient, procedure and Ceramill
    snapshots are written once and never read by the code below). *)
Module Supabase.
Import CrownTypes.

Record CrownSpecs := {
  material : CrownMaterial;
  specShade : string
}.

Record WorkOrderData := {
  crownSpecs : CrownSpecs;
  specialInstructions : option string;
  clinicalNotes : option string;
  labNotes : option string;
  priority : string;
  assignedTo : string
}.

Record CrownWorkOrderRecord := {
  id : string;
  lab_id : option string;
  opendental_patient_id : Z;
  opendental_procedure_id : Z;
  opendental_appointment_id : option Z;
  patient_name : option string;
  patient_dob : option Z;
  procedure_code : string;
  procedure_description : option string;
  tooth_number : option string;
  shade : string;
  lab_slip_data : WorkOrderData;
  special_instructions : option string;
  status : WorkOrderStatus;
  pdf_url : option string;
  pdf_storage_path : option string;
  created_at : Z;
  updated_at : Z;
  sent_at : option Z;
  due_date : option Z;
  completed_at : option Z
}.

Definition Table := list CrownWorkOrderRecord.

Record PostgrestError := { code : string; message : string }.

(** [.single()] on a result that is not exactly one row. *)
Definition PGRST116 : PostgrestError :=
  {| code := "PGRST116";
     message := "JSON object requested, multiple (or no) rows returned" |}.

(** A row that violates the check constraint [lab_slips_status_check]. *)
Definition checkViolation : PostgrestError :=
  {| code := "23514";
     message := "violates check constraint lab_slips_status_check" |}.

(** A second row with the primary key of an existing one. *)
Definition uniqueViolation : PostgrestError :=
  {| code := "23505";
     message := "duplicate key value violates unique constraint" |}.

(** The [{ data, error }] pair of a query. *)
Record Result (A : Type) := { data : option A; error : option PostgrestError }.
Arguments data {A} _.
Arguments error {A} _.

Definition ok {A} (a : A) : Result A := {| data := Some a; error := None |}.
Definition fail {A} (e : PostgrestError) : Result A :=
  {| data := None; error := Some e |}.

Definition single {A} (rows : list A) : Result A :=
  match rows with
  | [r] => ok r
  | _ => fail PGRST116
  end.

(** [migrations/add_crown_work_order_fields.sql], step 2. *)
Definition lab_slips_status_check (s : string) : bool :=
  JsString.arrayIncludes
    [ "draft"; "sent"; "received"; "completed"; "cancelled";
      "pending"; "scanned"; "designed"; "milling"; "sintering";
      "finishing"; "qc"; "ready"; "seated"; "on_hold" ] s.

Definition eq_id (i : string) (r : CrownWorkOrderRecord) : bool :=
  String.eqb (id r) i.

(** [.insert(record).select().single()] *)
Definition insert (t : Table) (r : CrownWorkOrderRecord)
  : Result CrownWorkOrderRecord * Table :=
  if negb (lab_slips_status_check (status r)) then (fail checkViolation, t)
  else if existsb (eq_id (id r)) t then (fail uniqueViolation, t)
  else (ok r, (t ++ [r])%list).

(** [.update(updates).eq('id', i).select().single()]: [f] writes the
    columns of [updates] into the rows whose key is [i].  The request
    is one transaction: it is rolled back when it does not touch exactly
    one row or when the new row violates the check constraint. *)
Definition update (t : Table) (i : string)
           (f : CrownWorkOrderRecord -> CrownWorkOrderRecord)
  : Result CrownWorkOrderRecord * Table :=
  match List.map f (filter (eq_id i) t) with
  | [r'] =>
      if lab_slips_status_check (status r')
      then (ok r', List.map (fun r => if eq_id i r then f r else r) t)
      else (fail checkViolation, t)
  | _ => (fail PGRST116, t)
  end.

(** [.delete().eq('id', i)] *)
Definition delete (t : Table) (i : string) : Table :=
  filter (fun r => negb (eq_id i r)) t.

(** [.order('created_at', { ascending: false })], as a stable insertion
    sort: rows created at the same instant keep the order of the
    table. *)
Fixpoint insertDesc (r : CrownWorkOrderRecord) (l : Table) : Table :=
  match l with
  | [] => [r]
  | x :: l' =>
      if created_at x <? created_at r then r :: l
      else x :: insertDesc r l'
  end.

Definition orderByCreatedDesc (t : Table) : Table :=
  fold_right insertDesc [] t.

(** [.limit(n)] *)
Definition limit (n : nat) (t : Table) : Table := firstn n t.

End Supabase.

(* ================================================================== *)
(** ** src/database/workOrderQueries.ts *)
(* ================================================================== *)

Module WorkOrderQueries.
Import CrownTypes Supabase.

Record CreateWorkOrderParams := {
  openDentalPatientId : Z;
  openDentalProcedureId : Z;
  openDentalAppointmentId : option Z;
  patientName : option string;
  patientDob : option Z;
  procedureCode : string;
  procedureDescription : option string;
  toothNumber : option string;
  cShade : string;
  workOrderData : WorkOrderData;
  cSpecialInstructions : option string;
  dueDate : option Z;
  cStatus : option WorkOrderStatus
}.

Record UpdateWorkOrderParams := {
  uId : string;
  uStatus : option WorkOrderStatus;
  uLabNotes : option string;
  pdfUrl : option string;
  pdfStoragePath : option string;
  completedAt : option Z
}.

Record WorkOrderFilters := {
  fStatus : option (WorkOrderStatus + list WorkOrderStatus);
  fAssignedTo : option string;
  patientId : option Z;
  procedureId : option Z;
  dateFrom : option Z;
  dateTo : option Z;
  fPriority : option string
}.

Definition noFilters : WorkOrderFilters :=
  {| fStatus := None; fAssignedTo := None; patientId := None;
     procedureId := None; dateFrom := None; dateTo := None;
     fPriority := None |}.

(** [x || d] on an optional string. *)
Definition orElse (x : option string) (d : string) : string :=
  match x with
  | Some s => if JsString.truthy s then s else d
  | None => d
  end.

(** [createWorkOrder]: [uuid] is the key the database generates for the
    new row.  A column the record does not set is NULL. *)
Definition createWorkOrder (t : Table) (now : Z) (uuid : string)
           (params : CreateWorkOrderParams)
  : Result CrownWorkOrderRecord * Table :=
  let record :=
    {| id := uuid;
       lab_id := None;
       opendental_patient_id := openDentalPatientId params;
       opendental_procedure_id := openDentalProcedureId params;
       opendental_appointment_id := openDentalAppointmentId params;
       patient_name := patientName params;
       patient_dob := patientDob params;
       procedure_code := procedureCode params;
       procedure_description := procedureDescription params;
       tooth_number := toothNumber params;
       shade := cShade params;
       lab_slip_data := workOrderData params;
       special_instructions := cSpecialInstructions params;
       status := orElse (cStatus params) pending;
       pdf_url := None;
       pdf_storage_path := None;
       created_at := now;
       updated_at := now;
       sent_at := None;
       due_date := dueDate params;
       completed_at := None |} in
  insert t record.

Definition getWorkOrderById (t : Table) (i : string)
  : Result CrownWorkOrderRecord :=
  single (filter (eq_id i) t).

Definition getWorkOrderByProcedureId (t : Table) (procId : Z)
  : Result CrownWorkOrderRecord :=
  let rows :=
    limit 1 (orderByCreatedDesc
               (filter (fun r => opendental_procedure_id r =? procId) t)) in
  let r := single rows in
  match error r with
  | Some e =>
      if String.eqb (code e) "PGRST116"
      then {| data := None; error := None |}
      else fail e
  | None => r
  end.

(** JavaScript truthiness of the optional filter values. *)
Definition truthyZ (x : option Z) : option Z :=
  match x with
  | Some n => if n =? 0 then None else Some n
  | None => None
  end.

Definition truthyS (x : option string) : option string :=
  match x with
  | Some s => if JsString.truthy s then Some s else None
  | None => None
  end.

Definition whenSet {A} (x : option A) (p : A -> CrownWorkOrderRecord -> bool)
           (t : Table) : Table :=
  match x with
  | Some a => filter (p a) t
  | None => t
  end.

Definition statusFilter (f : option (WorkOrderStatus + list WorkOrderStatus))
           (t : Table) : Table :=
  match f with
  | Some (inr statuses) =>
      filter (fun r => JsString.arrayIncludes statuses (status r)) t
  | Some (inl s) =>
      if JsString.truthy s then filter (fun r => String.eqb (status r) s) t
      else t
  | None => t
  end.

Definition listWorkOrders (t : Table) (filters : WorkOrderFilters)
           (lim : nat) : list CrownWorkOrderRecord :=
  let q := filter (fun r => match lab_id r with None => true | Some _ => false end) t in
  let q := statusFilter (fStatus filters) q in
  let q := whenSet (truthyS (fAssignedTo filters))
                   (fun a r => String.eqb (assignedTo (lab_slip_data r)) a) q in
  let q := whenSet (truthyZ (patientId filters))
                   (fun p r => opendental_patient_id r =? p) q in
  let q := whenSet (truthyZ (procedureId filters))
                   (fun p r => opendental_procedure_id r =? p) q in
  let q := whenSet (dateFrom filters) (fun d r => d <=? created_at r) q in
  let q := whenSet (dateTo filters) (fun d r => created_at r <=? d) q in
  let q := whenSet (truthyS (fPriority filters))
                   (fun p r => String.eqb (priority (lab_slip_data r)) p) q in
  limit lim (orderByCreatedDesc q).

Definition setLabNotes (d : WorkOrderData) (n : string) : WorkOrderData :=
  {| crownSpecs := crownSpecs d;
     specialInstructions := specialInstructions d;
     clinicalNotes := clinicalNotes d;
     labNotes := Some n;
     priority := priority d;
     assignedTo := assignedTo d |}.

(** [updates], the partial record [updateWorkOrder] builds. *)
Record Updates := {
  set_updated_at : Z;
  set_status : option WorkOrderStatus;
  set_pdf_url : option string;
  set_pdf_storage_path : option string;
  set_completed_at : option Z;
  set_lab_slip_data : option WorkOrderData
}.

Definition pick {A} (new : option A) (old : A) : A :=
  match new with Some a => a | None => old end.

Definition pickOpt {A} (new : option A) (old : option A) : option A :=
  match new with Some a => Some a | None => old end.

Definition applyUpdates (u : Updates) (r : CrownWorkOrderRecord)
  : CrownWorkOrderRecord :=
  {| id := id r;
     lab_id := lab_id r;
     opendental_patient_id := opendental_patient_id r;
     opendental_procedure_id := opendental_procedure_id r;
     opendental_appointment_id := opendental_appointment_id r;
     patient_name := patient_name r;
     patient_dob := patient_dob r;
     procedure_code := procedure_code r;
     procedure_description := procedure_description r;
     tooth_number := tooth_number r;
     shade := shade r;
     lab_slip_data := pick (set_lab_slip_data u) (lab_slip_data r);
     special_instructions := special_instructions r;
     status := pick (set_status u) (status r);
     pdf_url := pickOpt (set_pdf_url u) (pdf_url r);
     pdf_storage_path := pickOpt (set_pdf_storage_path u) (pdf_storage_path r);
     created_at := created_at r;
     updated_at := set_updated_at u;
     sent_at := sent_at r;
     due_date := due_date r;
     completed_at := pickOpt (set_completed_at u) (completed_at r) |}.

Definition updateWorkOrder (t : Table) (now : Z) (params : UpdateWorkOrderParams)
  : Result CrownWorkOrderRecord * Table :=
  let newData :=
    match uLabNotes params with
    | Some notes =>
        match data (getWorkOrderById t (uId params)) with
        | Some current => Some (setLabNotes (lab_slip_data current) notes)
        | None => None
        end
    | None => None
    end in
  let updates :=
    {| set_updated_at := now;
       set_status := uStatus params;
       set_pdf_url := pdfUrl params;
       set_pdf_storage_path := pdfStoragePath params;
       set_completed_at := completedAt params;
       set_lab_slip_data := newData |} in
  update t (uId params) (applyUpdates updates).

Definition updateWorkOrderStatus (t : Table) (now : Z) (i : string)
           (newStatus : WorkOrderStatus) (notes : option string)
  : Result CrownWorkOrderRecord * Table :=
  let updates :=
    {| uId := i;
       uStatus := Some newStatus;
       uLabNotes := truthyS notes;
       pdfUrl := None;
       pdfStoragePath := None;
       completedAt := if String.eqb newStatus seated then Some now else None |} in
  updateWorkOrder t now updates.

(** [deleteWorkOrder]: the [{ success, error }] pair is
    [{ success: true, error: null }] whenever the call returns. *)
Definition deleteWorkOrder (t : Table) (i : string) : bool * Table :=
  (true, delete t i).

Definition workOrderExistsForProcedure (t : Table) (procId : Z) : bool :=
  match data (getWorkOrderByProcedureId t procId) with
  | Some _ => true
  | None => false
  end.

Record Stats := {
  total : nat;
  statPending : nat;
  inProgress : nat;
  statReady : nat;
  completed : nat
}.

Definition countIf (p : CrownWorkOrderRecord -> bool)
           (l : list CrownWorkOrderRecord) : nat :=
  List.length (filter p l).

Definition getWorkOrderStats (t : Table) : Stats :=
  let all := listWorkOrders t noFilters 1000 in
  {| total := List.length all;
     statPending := countIf (fun wo => String.eqb (status wo) pending) all;
     inProgress :=
       countIf (fun wo => JsString.arrayIncludes inProgressStatuses (status wo)) all;
     statReady := countIf (fun wo => String.eqb (status wo) ready) all;
     completed := countIf (fun wo => String.eqb (status wo) seated) all |}.

End WorkOrderQueries.

(* ================================================================== *)
(** ** src/api/crownWorkOrderRoutes.ts *)
(* ================================================================== *)

Module Routes.
Import CrownTypes Supabase WorkOrderQueries.

(** The work order as the routes hand it to the renderer: the part of
    [CrownWorkOrder] that is read back from a stored record. *)
Record StatusHistoryEntry := {
  hStatus : WorkOrderStatus;
  timestamp : Z;
  updatedBy : string;
  hNotes : option string
}.

Record CrownWorkOrder := {
  woId : string;
  woStatus : WorkOrderStatus;
  statusHistory : list StatusHistoryEntry;
  woLabNotes : option string;
  woCompletedAt : option Z;
  woUpdatedAt : Z
}.

(** "Convert database record to CrownWorkOrder" in
    [POST /work-orders/:id/pdf]. *)
Definition toCrownWorkOrder (r : CrownWorkOrderRecord) : CrownWorkOrder :=
  {| woId := id r;
     woStatus := status r;
     statusHistory := [];
     woLabNotes := labNotes (lab_slip_data r);
     woCompletedAt := completed_at r;
     woUpdatedAt := updated_at r |}.

(** The body of [POST /work-orders].  A field that is absent is [None];
    [code] is [None] when [procedure.code] is not a string. *)
Record PatientBody := {
  name : option string;
  dateOfBirth : option Z
}.

Record ProcedureBody := {
  code : option string;
  pDescription : option string;
  pToothNumber : option string;
  pShade : option string
}.

Record CreateBody := {
  bPatientId : option Z;
  bProcedureId : option Z;
  bAppointmentId : option Z;
  patient : option PatientBody;
  procedure : option ProcedureBody;
  bCrownSpecs : option CrownSpecs;
  bSpecialInstructions : option string;
  bClinicalNotes : option string;
  bAssignedTo : option string;
  bPriority : option string;
  bDueDate : option Z
}.

Inductive Response :=
| Created (workOrder : CrownWorkOrderRecord)             (* 201 *)
| Ok (workOrder : CrownWorkOrderRecord)                  (* 200 *)
| BadRequest (error : string)                            (* 400 *)
| NotFound (error : string)                              (* 404 *)
| Conflict (error : string) (procedureId : Z)            (* 409 *)
| ServerError (error : string).                          (* 500 *)

Definition statusCode (r : Response) : Z :=
  match r with
  | Created _ => 201
  | Ok _ => 200
  | BadRequest _ => 400
  | NotFound _ => 404
  | Conflict _ _ => 409
  | ServerError _ => 500
  end.

(** [detection.getDefaultCrownSpecs(code, shade)] *)
Definition getDefaultCrownSpecs (procedureCode shade : string) : CrownSpecs :=
  let detection :=
    CrownDetection.detectCrownProcedure
      CrownDetection.DEFAULT_DETECTION_CONFIG procedureCode in
  {| material := match CrownDetection.recommendedMaterial detection with
                 | Some m => m
                 | None => Zirconia
                 end;
     specShade := shade |}.

(** [procedure.code.trim()]: a [TypeError] unless the code is a string. *)
Definition stringOrThrow (x : option string) : Js.Outcome string :=
  match x with
  | Some s => Js.Return s
  | None => Js.Throw "TypeError: procedure.code.trim is not a function"
  end.

(** The [try] block of [router.post('/work-orders', ...)]; [detection] is
    [new CrownDetectionService()], the default configuration. *)
Definition postWorkOrdersTry (t : Table) (now : Z) (uuid : string)
           (body : CreateBody) : Js.Outcome (Response * Table) :=
  match truthyZ (bPatientId body), truthyZ (bProcedureId body),
        patient body, procedure body with
  | Some patId, Some procId, Some pat, Some proc =>
      (procCode <- stringOrThrow (code proc) ;;
       let detectionResult :=
         CrownDetection.detectCrownProcedure
           CrownDetection.DEFAULT_DETECTION_CONFIG procCode in
       if negb (CrownDetection.isCrown detectionResult)
       then Js.Return (BadRequest "Not a crown procedure", t)
       else if workOrderExistsForProcedure t procId
       then Js.Return
              (Conflict "Work order already exists for this procedure" procId, t)
       else
         let shade0 := orElse (pShade proc) "A2" in
         let specs :=
           match bCrownSpecs body with
           | Some s => s
           | None => getDefaultCrownSpecs procCode shade0
           end in
         let workOrderData :=
           {| crownSpecs := specs;
              specialInstructions := bSpecialInstructions body;
              clinicalNotes := bClinicalNotes body;
              labNotes := None;
              priority := match bPriority body with
                          | Some p => p | None => "routine" end;
              assignedTo := match bAssignedTo body with
                            | Some a => a | None => "Lab Tech" end |} in
         let shadeArg :=
           match bCrownSpecs body with
           | Some s => if JsString.truthy (specShade s)
                       then specShade s else shade0
           | None => shade0
           end in
         let '(res, t') :=
           createWorkOrder t now uuid
             {| openDentalPatientId := patId;
                openDentalProcedureId := procId;
                openDentalAppointmentId := bAppointmentId body;
                patientName := name pat;
                patientDob := dateOfBirth pat;
                procedureCode := procCode;
                procedureDescription := pDescription proc;
                toothNumber := pToothNumber proc;
                cShade := shadeArg;
                workOrderData := workOrderData;
                cSpecialInstructions := bSpecialInstructions body;
                dueDate := bDueDate body;
                cStatus := Some pending |} in
         match error res, data res with
         | None, Some row => Js.Return (Created row, t')
         | _, _ => Js.Return (ServerError "Failed to create work order", t')
         end)%js
  | _, _, _, _ => Js.Return (BadRequest "Missing required fields", t)
  end.

(** [router.post('/work-orders', ...)]: the [try] block, and the [catch]
    block that answers 500.  Nothing throws after the table is written. *)
Definition postWorkOrders (t : Table) (now : Z) (uuid : string)
           (body : CreateBody) : Response * Table :=
  Js.tryCatch (postWorkOrdersTry t now uuid body)
              (fun _ => (ServerError "Internal server error", t)).

(** [router.patch('/work-orders/:id/status', ...)] *)
Definition patchStatus (t : Table) (now : Z) (i : string)
           (newStatus : option string) (notes : option string)
  : Response * Table :=
  match truthyS newStatus with
  | None => (BadRequest "Status is required", t)
  | Some s =>
      let '(res, t') := updateWorkOrderStatus t now i s notes in
      match error res, data res with
      | Some _, _ => (ServerError "Failed to update work order status", t')
      | None, None => (NotFound "Work order not found", t')
      | None, Some row => (Ok row, t')
      end
  end.

(** [router.delete('/work-orders/:id', ...)] *)
Definition deleteRoute (t : Table) (i : string) : Z * Table :=
  let '(success, t') := deleteWorkOrder t i in
  (if success then 200 else 404, t').

(** [router.get('/work-orders/stats', ...)] *)
Definition getStats (t : Table) : Stats := getWorkOrderStats t.

End Routes.

(* ================================================================== *)
(** ** src/services/aiCommands.ts *)
(* ================================================================== *)

Module AICommands.
Import CrownTypes Supabase WorkOrderQueries.

(** The values [JSON.parse] produces, and [undefined] for a property
    that is absent. *)
Inductive JsValue :=
| JUndefined
| JNull
| JBool (b : bool)
| JNumber (n : float)
| JString (s : string)
| JArray (items : list JsValue)
| JObject (fields : list (string * JsValue)).

Definition truthy (v : JsValue) : bool :=
  match v with
  | JUndefined | JNull => false
  | JBool b => b
  | JNumber n => negb (PrimFloat.eqb n 0 || PrimFloat.is_nan n)
  | JString s => JsString.truthy s
  | JArray _ | JObject _ => true
  end.

(** [a || b] *)
Definition or (a b : JsValue) : JsValue := if truthy a then a else b.

(** [v.key] for a value [v] that is neither [null] nor [undefined];
    none of the keys the code reads is a property of a string, a number,
    a boolean or an array. *)
Definition get (v : JsValue) (key : string) : JsValue :=
  match v with
  | JObject fields =>
      match lookup key fields with Some x => x | None => JUndefined end
  | _ => JUndefined
  end.

(** The reply of [anthropic.messages.create]. *)
Inductive ContentBlock :=
| TextBlock (text : string)
| OtherBlock (type : string).

Inductive ClaudeReply :=
| Rejected (message : string)
| Message (content : list ContentBlock).

Record ParsedCommand := {
  intent : JsValue;
  parameters : JsValue;
  confidence : JsValue;
  originalText : string
}.

Inductive ResultData :=
| Rows (rows : list CrownWorkOrderRecord)
| Row (row : CrownWorkOrderRecord).

Record CommandExecutionResult := {
  success : bool;
  rData : option ResultData;
  rError : option string;
  rMessage : string
}.

Definition failed (message error : string) : CommandExecutionResult :=
  {| success := false; rData := None; rError := Some error;
     rMessage := message |}.

(** A call of a method of [this.queries]. *)
Inductive QueryCall :=
| ListWorkOrders (filters : WorkOrderFilters) (lim : nat)
| GetWorkOrderById (i : string)
| UpdateWorkOrderStatus (i : string) (newStatus : WorkOrderStatus)
                        (notes : option string).

(** The store as the executor sees it: the table, and the calls made on
    [this.queries] so far, oldest first. *)
Record World := {
  table : Table;
  calls : list QueryCall
}.

Definition called (w : World) (c : QueryCall) (t' : Table) : World :=
  {| table := t'; calls := (calls w ++ [c])%list |}.

Definition unknownCommand (userInput : string) : ParsedCommand :=
  {| intent := JString "unknown";
     parameters := JObject [];
     confidence := JNumber 0;
     originalText := userInput |}.

Definition natToString (n : nat) : string :=
  NilZero.string_of_uint (Nat.to_uint n).

Section Runtime.
(** [JSON.parse]: [None] when it throws a [SyntaxError]. *)
Variable JSON_parse : string -> option JsValue.
(** [String(v)], the text of a value where the code or the client puts
    it into a string, for a value that is not a string. *)
Variable toText : JsValue -> string.
(** The number a string converts to in a comparison. *)
Variable StringToNumber : string -> float.
(** The row count the client's [.limit(v)] stands for. *)
Variable limitOf : JsValue -> nat.

Definition text (v : JsValue) : string :=
  match v with JString s => s | _ => toText v end.

(** [ToNumber(v)] *)
Definition toNumber (v : JsValue) : float :=
  match v with
  | JUndefined => PrimFloat.nan
  | JNull => 0%float
  | JBool b => if b then 1%float else 0%float
  | JNumber n => n
  | JString s => StringToNumber s
  | JArray _ | JObject _ => StringToNumber (toText v)
  end.

(** [v < x] for a number [x] *)
Definition lessThan (v : JsValue) (x : float) : bool :=
  PrimFloat.ltb (toNumber v) x.

(** [message.content[0]], then [content.type !== 'text']: reading [type]
    of [undefined] throws, and so does the code for a block that is not
    text. *)
Definition firstText (reply : ClaudeReply) : Js.Outcome string :=
  match reply with
  | Rejected message => Js.Throw message
  | Message [] =>
      Js.Throw "TypeError: Cannot read properties of undefined (reading 'type')"
  | Message (OtherBlock _ :: _) =>
      Js.Throw "Unexpected response type from Claude"
  | Message (TextBlock response :: _) => Js.Return response
  end.

(** The inner [try]: [JSON.parse(content.text)]. *)
Definition parseJson (response : string) : Js.Outcome JsValue :=
  match JSON_parse response with
  | Some parsed => Js.Return parsed
  | None => Js.Throw "Invalid JSON response from AI"
  end.

(** [parsed.key]: reading a property of [null] throws. *)
Definition field (parsed : JsValue) (key : string) : Js.Outcome JsValue :=
  match parsed with
  | JNull | JUndefined =>
      Js.Throw "TypeError: Cannot read properties of null"
  | _ => Js.Return (get parsed key)
  end.

(** The [try] block of [parseCommand]; [reply] is what the call of the
    language model gives. *)
Definition parseCommandTry (userInput : string) (reply : ClaudeReply)
  : Js.Outcome ParsedCommand :=
  (response <- firstText reply ;;
   parsed <- parseJson response ;;
   parsedIntent <- field parsed "intent" ;;
   parsedParameters <- field parsed "parameters" ;;
   parsedConfidence <- field parsed "confidence" ;;
   Js.Return {| intent := or parsedIntent (JString "unknown");
                parameters := or parsedParameters (JObject []);
                confidence := or parsedConfidence (JNumber 0);
                originalText := userInput |})%js.

(** [parseCommand]: the [try] block, and the [catch] block that returns
    the unknown command. *)
Definition parseCommand (userInput : string) (reply : ClaudeReply)
  : ParsedCommand :=
  Js.tryCatch (parseCommandTry userInput reply)
              (fun _ => unknownCommand userInput).

(** [handleListLabSlips] *)
Definition handleListLabSlips (w : World) (params : JsValue)
  : CommandExecutionResult * World :=
  let status := get params "status" in
  let patient := or (get params "patient_id") (get params "patientId") in
  let assigned := or (get params "assigned_to") (get params "assignedTo") in
  let filters :=
    {| fStatus :=
         if truthy status then
           Some match status with
                | JArray items => inr (List.map text items)
                | _ => inl (text status)
                end
         else None;
       fAssignedTo := if truthy assigned then Some (text assigned) else None;
       patientId :=
         if truthy patient then CrownDetection.parseInt (text patient)
         else None;
       procedureId := None; dateFrom := None; dateTo := None;
       fPriority := None |} in
  let lim := if truthy (get params "limit")
             then limitOf (get params "limit") else 50%nat in
  let rows := listWorkOrders (table w) filters lim in
  ({| success := true;
      rData := Some (Rows rows);
      rError := None;
      rMessage := "Found " ++ natToString (List.length rows) ++ " lab slip(s)" |},
   called w (ListWorkOrders filters lim) (table w)).

Definition errorMessage (e : option PostgrestError) (d : string) : string :=
  match e with
  | Some e => if JsString.truthy (message e) then message e else d
  | None => d
  end.

(** [handleGetStatus] *)
Definition handleGetStatus (w : World) (params : JsValue)
  : CommandExecutionResult * World :=
  let labSlipId := or (get params "lab_slip_id") (get params "id") in
  if negb (truthy labSlipId)
  then (failed "Lab slip ID is required" "Missing lab_slip_id parameter", w)
  else
    let i := text labSlipId in
    let res := getWorkOrderById (table w) i in
    let w' := called w (GetWorkOrderById i) (table w) in
    match error res, data res with
    | None, Some row =>
        ({| success := true;
            rData := Some (Row row);
            rError := None;
            rMessage := "Lab slip status: " ++ status row |}, w')
    | e, _ => (failed "Lab slip not found" (errorMessage e "Not found"), w')
    end.

(** [handleUpdateStatus] *)
Definition handleUpdateStatus (w : World) (now : Z) (params : JsValue)
  : CommandExecutionResult * World :=
  let labSlipId :=
    or (or (get params "lab_slip_id") (get params "labSlipId"))
       (get params "id") in
  let newStatus :=
    or (or (get params "status") (get params "new_status"))
       (get params "newStatus") in
  let notes := or (get params "notes") (get params "note") in
  if (negb (truthy labSlipId) || negb (truthy newStatus))%bool
  then (failed "Lab slip ID and status are required"
               "Missing required parameters", w)
  else
    let i := text labSlipId in
    let s := text newStatus in
    let n := if truthy notes then Some (text notes) else None in
    let '(res, t') := updateWorkOrderStatus (table w) now i s n in
    let w' := called w (UpdateWorkOrderStatus i s n) t' in
    match error res, data res with
    | None, Some row =>
        ({| success := true;
            rData := Some (Row row);
            rError := None;
            rMessage := "Lab slip status updated to: " ++ s |}, w')
    | e, _ =>
        (failed "Failed to update lab slip status"
                (errorMessage e "Update failed"), w')
    end.

(** [generateResponse]: the text of the reply, else [result.message]. *)
Definition generateResponse (parsed : ParsedCommand)
           (result : CommandExecutionResult) (reply : ClaudeReply) : string :=
  match reply with
  | Message (TextBlock response :: _) => JsString.trim response
  | _ => rMessage result
  end.

(** The [switch] on [parsed.intent]. *)
Definition dispatch (w : World) (now : Z) (parsed : ParsedCommand)
  : CommandExecutionResult * World :=
  match intent parsed with
  | JString "list_lab_slips" => handleListLabSlips w (parameters parsed)
  | JString "get_status" => handleGetStatus w (parameters parsed)
  | JString "update_status" => handleUpdateStatus w now (parameters parsed)
  | JString "create_lab_slip" =>
      (failed "Lab slip creation requires structured data. Please use the API endpoint."
              "Not supported via natural language", w)
  | JString "resend_email" =>
      (failed "Email resending is not yet implemented" "Feature pending", w)
  | _ => (failed "Unknown command" "Could not determine intent", w)
  end.

Definition clarification : CommandExecutionResult * string :=
  (failed "Could not understand command"
          "Low confidence in command interpretation",
   "I'm not sure I understood that correctly. Could you rephrase your request?").

(** [executeCommand] from the parse result on: the confidence check,
    the dispatch and the phrasing of the reply. *)
Definition execute (w : World) (now : Z) (parsed : ParsedCommand)
           (phrasing : ClaudeReply)
  : (CommandExecutionResult * string) * World :=
  if lessThan (confidence parsed) 0.6%float
  then (clarification, w)
  else
    let '(result, w') := dispatch w now parsed in
    let response := generateResponse parsed result phrasing in
    ((result, response), w').

(** [executeCommand]: [parsing] and [phrasing] are the replies of the
    two calls of the language model.  No statement of the [try] block
    throws past the handlers, so its [catch] block is never entered. *)
Definition executeCommand (w : World) (now : Z) (userInput : string)
           (parsing phrasing : ClaudeReply)
  : (CommandExecutionResult * string) * World :=
  execute w now (parseCommand userInput parsing) phrasing.

End Runtime.

End AICommands.


(* ================================================================== *)
(** ** src/services/crownDetection.ts, the rest of the service *)
(* ================================================================== *)

Module CrownService.
Import CrownTypes CrownDetection.

(** An element of the argument of [detectCrownProcedures]:
    [{ code: string; id: number }]. *)
Record ProcedureRef := { refCode : string; refId : Z }.

(** [detectCrownProcedures]: [map], then [filter] on [detection.isCrown]. *)
Definition detectCrownProcedures (config : ProcedureDetectionConfig)
           (procedures : list ProcedureRef) : list (Z * DetectionResult) :=
  filter (fun result => isCrown (snd result))
         (List.map (fun proc => (refId proc,
                                 detectCrownProcedure config (refCode proc)))
                   procedures).

Definition autoCreateStatuses : list string := ["C"; "EC"].

Definition shouldAutoCreateWorkOrder (config : ProcedureDetectionConfig)
           (procedureCode procedureStatus : string) : bool :=
  let detection := detectCrownProcedure config procedureCode in
  if negb (isCrown detection) then false
  else if negb (autoCreateWorkOrder config) then false
  else JsString.arrayIncludes autoCreateStatuses procedureStatus.

(** [Partial<ProcedureInfo>] and [Partial<PatientInfo>], the fields
    [validateProcedureData] reads; an absent field is [None]. *)
Record PartialProcedure := {
  vCode : option string;
  vToothNumber : option string;
  vId : option Z
}.

Record PartialPatient := {
  ptId : option Z;
  ptName : option string;
  ptFirstName : option string;
  ptLastName : option string;
  ptDateOfBirth : option JsDate
}.

Record Validation := { isValid : bool; errors : list string }.

(** JavaScript truthiness of the optional fields. *)
Definition setS (x : option string) : bool :=
  match x with Some s => JsString.truthy s | None => false end.

Definition setZ (x : option Z) : bool :=
  match x with Some n => negb (n =? 0) | None => false end.

(** A [Date] object is truthy, whatever its time value. *)
Definition setDate (x : option JsDate) : bool :=
  match x with Some _ => true | None => false end.

(** [errors.push(message)] when [violated]. *)
Definition pushIf (violated : bool) (message : string) (errors : list string)
  : list string :=
  if violated then (errors ++ [message])%list else errors.

Definition codeError (c : option string) : list string :=
  match c with
  | Some code =>
      if JsString.truthy code
      then if negb (isCrownProcedure code)
           then ["Procedure code " ++ code ++ " is not a valid crown procedure"]
           else []
      else ["Procedure code is required"]
  | None => ["Procedure code is required"]
  end.

Definition validateProcedureData (procedure : PartialProcedure)
           (patient : PartialPatient) : Validation :=
  let errors := codeError (vCode procedure) in
  let errors := pushIf (negb (setS (vToothNumber procedure)))
                       "Tooth number is required" errors in
  let errors := pushIf (negb (setZ (vId procedure)))
                       "Procedure ID is required" errors in
  let errors := pushIf (negb (setZ (ptId patient)))
                       "Patient ID is required" errors in
  let errors := pushIf (negb (setS (ptName patient))
                        && negb (setS (ptFirstName patient)
                                 && setS (ptLastName patient)))
                       "Patient name is required" errors in
  let errors := pushIf (negb (setDate (ptDateOfBirth patient)))
                       "Patient date of birth is required" errors in
  {| isValid := Nat.eqb (List.length errors) 0; errors := errors |}.

End CrownService.

(* ================================================================== *)
(** ** src/types/crownWorkOrder.ts, the helper functions *)
(* ================================================================== *)

Module CrownHelpers.
Import CrownTypes.

Definition isActionable (s : WorkOrderStatus) : bool :=
  negb (JsString.arrayIncludes [cancelled; seated] s).

(** The calendar fields of a valid [Date] in local time:
    [getFullYear()], [getMonth()] (0 to 11) and [getDate()]. *)
Record CalendarDate := { fullYear : Z; month : Z; date : Z }.

(** [calculateAge]; [today] is [new Date()]. *)
Definition calculateAge (today dateOfBirth : CalendarDate) : Z :=
  let age := fullYear today - fullYear dateOfBirth in
  let monthDiff := month today - month dateOfBirth in
  if ((monthDiff <? 0)
      || ((monthDiff =? 0) && (date today <? date dateOfBirth)))%bool
  then age - 1
  else age.

(** [String(n)] for an integer [n]. *)
Definition intToString (n : Z) : string :=
  NilZero.string_of_int (Z.to_int n).

Fixpoint zeros (n : nat) : string :=
  match n with
  | O => EmptyString
  | S n' => String "0" (zeros n')
  end.

(** [s.padStart(width, '0')] *)
Definition padStart (width : nat) (s : string) : string :=
  zeros (width - String.length s) ++ s.

(** [generateWorkOrderNumber(date)]; [suffix] is the integer
    [Math.floor(Math.random() * 1000)], from 0 to 999. *)
Definition generateWorkOrderNumber (d : CalendarDate) (suffix : Z) : string :=
  let year := fullYear d in
  let month := padStart 2 (intToString (month d + 1)) in
  let day := padStart 2 (intToString (date d)) in
  let random := padStart 3 (intToString suffix) in
  "CWO-" ++ intToString year ++ month ++ day ++ "-" ++ random.

End CrownHelpers.

(* ================================================================== *)
(** ** src/database/workOrderQueries.ts, the listing helpers *)
(* ================================================================== *)

Module QueryHelpers.
Import CrownTypes Supabase WorkOrderQueries.

(** The default of the parameter [limit] of [listWorkOrders]. *)
Definition defaultLimit : nat := 50.

Definition withStatus (s : WorkOrderStatus + list WorkOrderStatus)
  : WorkOrderFilters :=
  {| fStatus := Some s; fAssignedTo := None; patientId := None;
     procedureId := None; dateFrom := None; dateTo := None;
     fPriority := None |}.

Definition getWorkOrdersByStatus (t : Table) (s : WorkOrderStatus)
  : list CrownWorkOrderRecord :=
  listWorkOrders t (withStatus (inl s)) defaultLimit.

Definition getPendingWorkOrders (t : Table) : list CrownWorkOrderRecord :=
  listWorkOrders t (withStatus (inl pending)) defaultLimit.

Definition getInProgressWorkOrders (t : Table) : list CrownWorkOrderRecord :=
  listWorkOrders t
    (withStatus (inr [scanned; designed; milling; sintering; finishing; qc]))
    defaultLimit.

Definition getReadyWorkOrders (t : Table) : list CrownWorkOrderRecord :=
  listWorkOrders t (withStatus (inl ready)) defaultLimit.

End QueryHelpers.

(* ================================================================== *)
(** ** src/api/crownWorkOrderRoutes.ts, the read route *)
(* ================================================================== *)

Module ReadRoutes.
Import Supabase WorkOrderQueries Routes.

(** [router.get('/work-orders/:id', ...)] *)
Definition getWorkOrder (t : Table) (i : string) : Response :=
  let res := getWorkOrderById t i in
  match error res with
  | Some _ => ServerError "Failed to fetch work order"
  | None =>
      match data res with
      | None => NotFound "Work order not found"
      | Some row => Ok row
      end
  end.

End ReadRoutes.

(* ================================================================== *)
(** ** The writes, one awaited round trip at a time *)
(* ================================================================== *)

Module Server.
Import CrownTypes Supabase WorkOrderQueries Routes.

(** [router.post('/work-orders', ...)] up to its second [await]: the
    checks on the body, the awaited [workOrderExistsForProcedure], and
    the parameters it prepares for [createWorkOrder].  [inl] is an answer
    that is given at this stage. *)
Definition postWorkOrdersCheck (t : Table) (body : CreateBody)
  : Js.Outcome (Response + CreateWorkOrderParams) :=
  match truthyZ (bPatientId body), truthyZ (bProcedureId body),
        patient body, procedure body with
  | Some patId, Some procId, Some pat, Some proc =>
      (procCode <- stringOrThrow (code proc) ;;
       let detectionResult :=
         CrownDetection.detectCrownProcedure
           CrownDetection.DEFAULT_DETECTION_CONFIG procCode in
       if negb (CrownDetection.isCrown detectionResult)
       then Js.Return (inl (BadRequest "Not a crown procedure"))
       else if workOrderExistsForProcedure t procId
       then Js.Return
              (inl (Conflict "Work order already exists for this procedure"
                             procId))
       else
         let shade0 := orElse (pShade proc) "A2" in
         let specs :=
           match bCrownSpecs body with
           | Some s => s
           | None => getDefaultCrownSpecs procCode shade0
           end in
         let workOrderData :=
           {| crownSpecs := specs;
              specialInstructions := bSpecialInstructions body;
              clinicalNotes := bClinicalNotes body;
              labNotes := None;
              priority := match bPriority body with
                          | Some p => p | None => "routine" end;
              assignedTo := match bAssignedTo body with
                            | Some a => a | None => "Lab Tech" end |} in
         let shadeArg :=
           match bCrownSpecs body with
           | Some s => if JsString.truthy (specShade s)
                       then specShade s else shade0
           | None => shade0
           end in
         Js.Return
           (inr {| openDentalPatientId := patId;
                   openDentalProcedureId := procId;
                   openDentalAppointmentId := bAppointmentId body;
                   patientName := name pat;
                   patientDob := dateOfBirth pat;
                   procedureCode := procCode;
                   procedureDescription := pDescription proc;
                   toothNumber := pToothNumber proc;
                   cShade := shadeArg;
                   workOrderData := workOrderData;
                   cSpecialInstructions := bSpecialInstructions body;
                   dueDate := bDueDate body;
                   cStatus := Some pending |}))%js
  | _, _, _, _ => Js.Return (inl (BadRequest "Missing required fields"))
  end.

(** ... and from the awaited [createWorkOrder] on, against the table as
    it is by then. *)
Definition postWorkOrdersCreate (t : Table) (now : Z) (uuid : string)
           (params : CreateWorkOrderParams) : Response * Table :=
  let '(res, t') := createWorkOrder t now uuid params in
  match error res, data res with
  | None, Some row => (Created row, t')
  | _, _ => (ServerError "Failed to create work order", t')
  end.

(** [updateWorkOrder] up to its last [await]: the partial record
    [updates], with the lab notes merged into the data that the awaited
    [getWorkOrderById] has read. *)
Definition updateWorkOrderRead (t : Table) (now : Z)
           (params : UpdateWorkOrderParams) : Updates :=
  {| set_updated_at := now;
     set_status := uStatus params;
     set_pdf_url := pdfUrl params;
     set_pdf_storage_path := pdfStoragePath params;
     set_completed_at := completedAt params;
     set_lab_slip_data :=
       match uLabNotes params with
       | Some notes =>
           match data (getWorkOrderById t (uId params)) with
           | Some current => Some (setLabNotes (lab_slip_data current) notes)
           | None => None
           end
       | None => None
       end |}.

(** ... and its awaited update, against the table as it is by then. *)
Definition updateWorkOrderWrite (t : Table) (params : UpdateWorkOrderParams)
           (updates : Updates) : Result CrownWorkOrderRecord * Table :=
  update t (uId params) (applyUpdates updates).

(** A request between two of its round trips. *)
Inductive InFlight :=
| Creating (params : CreateWorkOrderParams)
| Updating (params : UpdateWorkOrderParams) (updates : Updates).

(** The table, and the requests that wait for their next round trip. *)
Record Server := {
  rows : Table;
  inFlight : list InFlight
}.

Definition idle (t : Table) : Server := {| rows := t; inFlight := [] |}.

(** One round trip of one request; between the round trips of a request
    those of other requests may run.  A request that is answered before
    its first write (a rejected [POST], a [PATCH] without status) takes
    no step. *)
Inductive serverStep : Server -> Server -> Prop :=
| post_checked (s : Server) (body : CreateBody)
               (params : CreateWorkOrderParams) :
    postWorkOrdersCheck (rows s) body = Js.Return (inr params) ->
    serverStep s {| rows := rows s;
                    inFlight := Creating params :: inFlight s |}
| post_created (s : Server) (now : Z) (uuid : string)
               (params : CreateWorkOrderParams)
               (before after : list InFlight) :
    inFlight s = (before ++ Creating params :: after)%list ->
    serverStep s {| rows := snd (postWorkOrdersCreate (rows s) now uuid params);
                    inFlight := (before ++ after)%list |}
| update_read (s : Server) (now : Z) (params : UpdateWorkOrderParams) :
    serverStep s {| rows := rows s;
                    inFlight :=
                      Updating params (updateWorkOrderRead (rows s) now params)
                      :: inFlight s |}
| update_written (s : Server) (params : UpdateWorkOrderParams)
                 (updates : Updates) (before after : list InFlight) :
    inFlight s = (before ++ Updating params updates :: after)%list ->
    serverStep s {| rows := snd (updateWorkOrderWrite (rows s) params updates);
                    inFlight := (before ++ after)%list |}
| deleted (s : Server) (i : string) :
    serverStep s {| rows := snd (deleteWorkOrder (rows s) i);
                    inFlight := inFlight s |}.

Inductive serverRun : Server -> Server -> Prop :=
| run_done (s : Server) : serverRun s s
| run_step (s s' s'' : Server) :
    serverStep s s' -> serverRun s' s'' -> serverRun s s''.

End Server.
(* ================================================================== *)
(** * Vocabulary of the properties *)
(* ================================================================== *)

Module Spec.
Import CrownTypes CrownDetection.

(** The code as the classifier looks it up. *)
Definition normalize (procedureCode : string) : string :=
  JsString.toUpperCase (JsString.trim procedureCode).

Definition knownCrownCodes : list string :=
  ["D2740"; "D2750"; "D2751"; "D2752"].

(** A classifier that monitors one of the four codes only. *)
Definition monitorsD2740 : ProcedureDetectionConfig :=
  {| monitoredCodes := ["D2740"];
     autoCreateWorkOrder := true;
     requiresApproval := false;
     defaultPriority := routine |}.

Fixpoint hasLower (s : string) : bool :=
  match s with
  | EmptyString => false
  | String c s' => (JsString.isLower c || hasLower s')%bool
  end.

(** The notes name an urgent keyword, in whatever case. *)
Definition hasUrgentKeyword (notes : option string) : Prop :=
  exists text keyword,
    notes = Some text /\ In keyword urgentKeywords /\
    JsString.includes (JsString.toLowerCase text) keyword = true.

(** The keyword scan of [determinePriority]. *)
Definition keywordScan (notes : option string) : bool :=
  match notes with
  | Some notes =>
      (JsString.truthy notes &&
       existsb (fun keyword => JsString.includes (JsString.toLowerCase notes) keyword)
               urgentKeywords)%bool
  | None => false
  end.

(** A letter [A] to [T], in either case. *)
Definition isPrimaryToothLetter (c : ascii) : bool :=
  (JsString.inRange 65 84 c || JsString.inRange 97 116 c)%bool.

(** A shade mention: a letter [A] to [D], in either case, with a digit
    right after it.  Every rule of [extractShade] asks for one. *)
Fixpoint mentionsShade (s : string) : bool :=
  match s with
  | String c s' =>
      (Regex.cls_AD true c && match s' with
                              | String d _ => JsString.isDigit d
                              | EmptyString => false
                              end
       || mentionsShade s')%bool
  | EmptyString => false
  end.

(** [suffix s' s]: the text [s'] is what is left of [s] at some position. *)
Inductive suffix : string -> string -> Prop :=
| suffix_here (s : string) : suffix s s
| suffix_next (c : ascii) (s' s : string) : suffix s' s -> suffix s' (String c s).

(** [failsOn r s]: the pattern [r] fails at every position of [s],
    whatever follows it. *)
Definition failsOn {A : Type} (r : Regex.regex) (s : string) : Prop :=
  forall (prev : option ascii) (s' : string) (cap : option string)
         (k : @Regex.cont A),
    suffix s' s -> Regex.rmatch r prev s' cap k = None.

(** A stand-in for the run time's printing of numbers, right on 14. *)
Definition printFourteen (n : float) : string :=
  if PrimFloat.eqb n 14 then "14" else "NaN".

(** *** The store *)

Import Supabase WorkOrderQueries Routes.

(** The states of the table [lab_slips] that the operations of the work
    order module reach from the empty table: creations whose initial
    status is not [seated] (the route [POST /work-orders] always creates
    [pending] records), status updates by [updateWorkOrderStatus] and by
    the route [PATCH /work-orders/:id/status], the storing of a rendered
    document's path, and deletions. *)
Inductive reachable : Table -> Prop :=
| reach_empty : reachable []
| reach_create (t : Table) (now : Z) (uuid : string)
               (params : CreateWorkOrderParams) :
    reachable t ->
    orElse (cStatus params) pending <> seated ->
    reachable (snd (createWorkOrder t now uuid params))
| reach_post (t : Table) (now : Z) (uuid : string) (body : CreateBody) :
    reachable t ->
    reachable (snd (postWorkOrders t now uuid body))
| reach_status (t : Table) (now : Z) (i : string)
               (newStatus : WorkOrderStatus) (notes : option string) :
    reachable t ->
    reachable (snd (updateWorkOrderStatus t now i newStatus notes))
| reach_patch (t : Table) (now : Z) (i : string)
              (newStatus notes : option string) :
    reachable t ->
    reachable (snd (patchStatus t now i newStatus notes))
| reach_pdf (t : Table) (now : Z) (i path : string) :
    reachable t ->
    reachable (snd (updateWorkOrder t now
                      {| uId := i; uStatus := None; uLabNotes := None;
                         pdfUrl := None; pdfStoragePath := Some path;
                         completedAt := None |}))
| reach_delete (t : Table) (i : string) :
    reachable t ->
    reachable (snd (deleteWorkOrder t i)).

(** The seatings on the way to a state of the table: the key and the
    time of every status update to [seated] that succeeded, latest
    first.  [seating] adds the entry of one call of
    [updateWorkOrderStatus]. *)
Definition seating (res : Result CrownWorkOrderRecord) (now : Z) (i : string)
           (newStatus : WorkOrderStatus) (seatings : list (string * Z))
  : list (string * Z) :=
  match data res with
  | Some _ =>
      if String.eqb newStatus seated then (i, now) :: seatings else seatings
  | None => seatings
  end.

(** [reachable], with the seatings on the way. *)
Inductive reachedWith : Table -> list (string * Z) -> Prop :=
| with_empty : reachedWith [] []
| with_create (t : Table) (seatings : list (string * Z)) (now : Z)
              (uuid : string) (params : CreateWorkOrderParams) :
    reachedWith t seatings ->
    orElse (cStatus params) pending <> seated ->
    reachedWith (snd (createWorkOrder t now uuid params)) seatings
| with_post (t : Table) (seatings : list (string * Z)) (now : Z)
            (uuid : string) (body : CreateBody) :
    reachedWith t seatings ->
    reachedWith (snd (postWorkOrders t now uuid body)) seatings
| with_status (t : Table) (seatings : list (string * Z)) (now : Z)
              (i : string) (newStatus : WorkOrderStatus)
              (notes : option string) :
    reachedWith t seatings ->
    reachedWith (snd (updateWorkOrderStatus t now i newStatus notes))
                (seating (fst (updateWorkOrderStatus t now i newStatus notes))
                         now i newStatus seatings)
| with_patch (t : Table) (seatings : list (string * Z)) (now : Z)
             (i : string) (newStatus notes : option string) :
    reachedWith t seatings ->
    reachedWith (snd (patchStatus t now i newStatus notes))
                (match truthyS newStatus with
                 | Some s =>
                     seating (fst (updateWorkOrderStatus t now i s notes))
                             now i s seatings
                 | None => seatings
                 end)
| with_pdf (t : Table) (seatings : list (string * Z)) (now : Z)
           (i path : string) :
    reachedWith t seatings ->
    reachedWith (snd (updateWorkOrder t now
                        {| uId := i; uStatus := None; uLabNotes := None;
                           pdfUrl := None; pdfStoragePath := Some path;
                           completedAt := None |}))
                seatings
| with_delete (t : Table) (seatings : list (string * Z)) (i : string) :
    reachedWith t seatings ->
    reachedWith (snd (deleteWorkOrder t i)) seatings.

(** The completion time of a record, when it has one, is the time of a
    seating of its key. *)
Definition logged (seatings : list (string * Z)) (r : CrownWorkOrderRecord)
  : Prop :=
  forall c, completed_at r = Some c -> In (id r, c) seatings.

(** A seated record carries its completion time. *)
Definition stamped (r : CrownWorkOrderRecord) : Prop :=
  status r = seated -> completed_at r <> None.


(** A row is in none of the four buckets of the statistics. *)
Definition unbucketed (wo : CrownWorkOrderRecord) : bool :=
  negb (String.eqb (status wo) pending
        || JsString.arrayIncludes inProgressStatuses (status wo)
        || String.eqb (status wo) ready
        || String.eqb (status wo) seated).

Definition isInternal (r : CrownWorkOrderRecord) : bool :=
  match lab_id r with None => true | Some _ => false end.

(** *** Sample requests and tables *)

Definition crownRequest (procId : Z) (procCode : string) : CreateBody :=
  {| bPatientId := Some 501;
     bProcedureId := Some procId;
     bAppointmentId := None;
     patient := Some {| name := Some "Pat Doe"; dateOfBirth := Some 0 |};
     procedure := Some {| code := Some procCode;
                          pDescription := Some "Crown";
                          pToothNumber := Some "14";
                          pShade := None |};
     bCrownSpecs := None;
     bSpecialInstructions := None;
     bClinicalNotes := None;
     bAssignedTo := None;
     bPriority := None;
     bDueDate := None |}.

(** The table after [POST /work-orders] for procedure 77 at time 1000. *)
Definition oneOrder : Table :=
  snd (postWorkOrders [] 1000 "wo-1" (crownRequest 77 "D2740")).

(** ... after the order is seated at time 2000 ... *)
Definition seatedOrder : Table :=
  snd (patchStatus oneOrder 2000 "wo-1" (Some "seated") None).

(** ... and after it is set back to [pending] at time 3000. *)
Definition reopenedOrder : Table :=
  snd (patchStatus seatedOrder 3000 "wo-1" (Some "pending") None).

(** Creation parameters that ask for the initial status [seated]. *)
Definition seatedFromTheStart : CreateWorkOrderParams :=
  {| openDentalPatientId := 501;
     openDentalProcedureId := 78;
     openDentalAppointmentId := None;
     patientName := Some "Pat Doe";
     patientDob := Some 0;
     procedureCode := "D2740";
     procedureDescription := Some "Crown";
     toothNumber := Some "14";
     cShade := "A2";
     workOrderData := {| crownSpecs := getDefaultCrownSpecs "D2740" "A2";
                         specialInstructions := None;
                         clinicalNotes := None;
                         labNotes := None;
                         priority := "routine";
                         assignedTo := "Lab Tech" |};
     cSpecialInstructions := None;
     dueDate := None;
     cStatus := Some seated |}.

(** A traditional lab slip of the same table, sent to an outside lab. *)
Definition outsideSlip : CrownWorkOrderRecord :=
  {| id := "slip-1";
     lab_id := Some "lab-9";
     opendental_patient_id := 502;
     opendental_procedure_id := 90;
     opendental_appointment_id := None;
     patient_name := Some "Sam Roe";
     patient_dob := Some 0;
     procedure_code := "D2740";
     procedure_description := Some "Crown";
     tooth_number := Some "3";
     shade := "A2";
     lab_slip_data := workOrderData seatedFromTheStart;
     special_instructions := None;
     status := "sent";
     pdf_url := None;
     pdf_storage_path := None;
     created_at := 10;
     updated_at := 10;
     sent_at := Some 10;
     due_date := None;
     completed_at := None |}.

(** [n] pending work orders, created one millisecond apart. *)
Fixpoint manyOrders (n : nat) : Table :=
  match n with
  | O => []
  | S n' =>
      snd (postWorkOrders (manyOrders n') (Z.of_nat n)
                          ("wo-" ++ AICommands.natToString n)
                          (crownRequest (Z.of_nat n) "D2740"))
  end.

(** *** The command interpreter *)

Import AICommands.

(** The parse stage fails: the call of the language model raises an
    error, its reply has no first block or one that is not text, the text
    is not parseable JSON, or it is the JSON text [null], whose fields
    cannot be read. *)
Inductive parseStageFails (JSON_parse : string -> option JsValue)
  : ClaudeReply -> Prop :=
| fails_rejected (message : string) :
    parseStageFails JSON_parse (Rejected message)
| fails_no_content :
    parseStageFails JSON_parse (Message [])
| fails_not_text (type : string) (rest : list ContentBlock) :
    parseStageFails JSON_parse (Message (OtherBlock type :: rest))
| fails_not_json (response : string) (rest : list ContentBlock) :
    JSON_parse response = None ->
    parseStageFails JSON_parse (Message (TextBlock response :: rest))
| fails_null (response : string) (rest : list ContentBlock) :
    JSON_parse response = Some JNull ->
    parseStageFails JSON_parse (Message (TextBlock response :: rest)).

(** Stand-ins for the run time's conversions, for the sample runs: a
    parser that knows the JSON texts [null], [true] and [[]], a printer
    and a reader of numbers that know nothing, and a row count of 50. *)
Definition sampleParse (s : string) : option JsValue :=
  if String.eqb s "null" then Some JNull
  else if String.eqb s "true" then Some (JBool true)
  else if String.eqb s "[]" then Some (JArray [])
  else None.

Definition sampleText (v : JsValue) : string := "".
Definition sampleNumber (s : string) : float := PrimFloat.nan.
Definition sampleLimit (v : JsValue) : nat := 50%nat.

(** The parse result of "show pending lab slips" at a given confidence. *)
Definition listPending (c : float) : ParsedCommand :=
  {| intent := JString "list_lab_slips";
     parameters := JObject [("status", JString "pending")];
     confidence := JNumber c;
     originalText := "show pending lab slips" |}.

Definition emptyWorld (t : Table) : World := {| table := t; calls := [] |}.

End Spec.

(* ================================================================== *)
(** * Vocabulary of the further properties *)
(* ================================================================== *)

Module SpecMore.
Import CrownTypes CrownDetection CrownService Spec.

(** The first character of a text is not white space (or there is none). *)
Definition startsClean (s : string) : bool :=
  match s with
  | String c _ => negb (JsString.isWhiteSpace c)
  | EmptyString => true
  end.

(** The number of checks of [validateProcedureData] a request violates. *)
Definition violations (procedure : PartialProcedure) (patient : PartialPatient)
  : nat :=
  (Nat.b2n (negb (setS (vCode procedure)
                  && match vCode procedure with
                     | Some c => isCrownProcedure c
                     | None => false
                     end))
   + Nat.b2n (negb (setS (vToothNumber procedure)))
   + Nat.b2n (negb (setZ (vId procedure)))
   + Nat.b2n (negb (setZ (ptId patient)))
   + Nat.b2n (negb (setS (ptName patient))
              && negb (setS (ptFirstName patient) && setS (ptLastName patient)))
   + Nat.b2n (negb (setDate (ptDateOfBirth patient))))%nat.

(** Two detection results classify alike: they agree on everything but
    the free-text note. *)
Definition sameClassification (a b : DetectionResult) : Prop :=
  isCrown a = isCrown b /\
  procedureCode a = procedureCode b /\
  description a = description b /\
  confidence a = confidence b /\
  recommendedMaterial a = recommendedMaterial b.

(** The code is detected under the configuration. *)
Definition detected (config : ProcedureDetectionConfig) (procedureCode : string)
  : bool :=
  isCrown (detectCrownProcedure config procedureCode).

(** A complete crown procedure and its patient, for the sample runs. *)
Definition completeProcedure : PartialProcedure :=
  {| vCode := Some "D2750"; vToothNumber := Some "14"; vId := Some 77 |}.

Definition completePatient : PartialPatient :=
  {| ptId := Some 501; ptName := None; ptFirstName := Some "Pat";
     ptLastName := Some "Doe"; ptDateOfBirth := Some (Some 0) |}.

(** A Vita shade as [extractShade] returns it: a letter [A] to [D] and one
    or two digits. *)
Definition wellFormedShade (w : string) : bool :=
  match w with
  | String c (String d1 EmptyString) =>
      (JsString.inRange 65 68 c && JsString.isDigit d1)%bool
  | String c (String d1 (String d2 EmptyString)) =>
      (JsString.inRange 65 68 c && JsString.isDigit d1 && JsString.isDigit d2)%bool
  | _ => false
  end.

(** The text the group [([A-D]\d{1,2})] can capture. *)
Definition shaped (ci : bool) (w : string) : Prop :=
  exists c d1,
    Regex.cls_AD ci c = true /\ JsString.isDigit d1 = true /\
    (w = String c (String d1 EmptyString)
     \/ exists d2, JsString.isDigit d2 = true /\
                   w = String c (String d1 (String d2 EmptyString))).

(** The pattern has no capture group. *)
Fixpoint groupFree (r : Regex.regex) : bool :=
  match r with
  | Regex.RSeq a b => (groupFree a && groupFree b)%bool
  | Regex.RGroup _ => false
  | _ => true
  end.

(** The pattern is a sequence with the shade group as its one group. *)
Inductive capturesShade : Regex.regex -> Prop :=
| captures_here (ci : bool) (rest : Regex.regex) :
    groupFree rest = true ->
    capturesShade (Regex.RSeq (Regex.shadeGroup ci) rest)
| captures_later (first rest : Regex.regex) :
    groupFree first = true ->
    capturesShade rest ->
    capturesShade (Regex.RSeq first rest).

Definition shadeLetters : list ascii := ["A"; "B"; "C"; "D"]%char.

Definition digits : list ascii :=
  ["0"; "1"; "2"; "3"; "4"; "5"; "6"; "7"; "8"; "9"]%char.

(** The urgency of a priority. *)
Definition rank (p : Priority) : Z :=
  match p with routine => 0 | urgent => 1 | asap => 2 end.

End SpecMore.

(* ================================================================== *)
(** * Vocabulary of the helper properties *)
(* ================================================================== *)

Module SpecHelpers.
Import CrownTypes CrownHelpers.

(** The calendar day [a] is the day [b] or an earlier one: by year, then
    month, then day of the month. *)
Definition onOrBefore (a b : CalendarDate) : Prop :=
  fullYear a < fullYear b \/
  (fullYear a = fullYear b /\
   (month a < month b \/ (month a = month b /\ date a <= date b))).

(** The same day of the same month, [k] years later. *)
Definition addYears (k : Z) (d : CalendarDate) : CalendarDate :=
  {| fullYear := fullYear d + k; month := month d; date := date d |}.

Fixpoint allDigits (s : string) : bool :=
  match s with
  | EmptyString => true
  | String c s' => (JsString.isDigit c && allDigits s')%bool
  end.

(** The integers [lo], [lo + 1], ..., [lo + n - 1]. *)
Definition range (lo n : Z) : list Z :=
  List.map (fun k => lo + Z.of_nat k) (seq 0 (Z.to_nat n)).

(** The number a text of decimal digits denotes. *)
Fixpoint decimalFrom (acc : Z) (s : string) : Z :=
  match s with
  | EmptyString => acc
  | String c s' => decimalFrom (10 * acc + (Z.of_nat (nat_of_ascii c) - 48)) s'
  end.

Definition decimalValue (s : string) : Z := decimalFrom 0 s.

(** A text of [width] digits. *)
Definition digitField (width : nat) (s : string) : bool :=
  (Nat.eqb (String.length s) width && allDigits s)%bool.

Definition newYearsEve2025 : CalendarDate :=
  {| fullYear := 2025; month := 11; date := 31 |}.

(** A text of [width] digits that denotes [n]. *)
Definition denotes (width : nat) (n : Z) (s : string) : bool :=
  (digitField width s && (decimalValue s =? n))%bool.

End SpecHelpers.

(* ================================================================== *)
(** * Vocabulary of the properties of the store and the routes *)
(* ================================================================== *)

Module SpecStore.
Import CrownTypes Supabase WorkOrderQueries Routes ReadRoutes Spec.

(** Newest first: no row is older than a row after it. *)
Fixpoint newestFirst (l : Table) : Prop :=
  match l with
  | [] => True
  | r :: l' =>
      (forall x, In x l' -> created_at x <= created_at r) /\ newestFirst l'
  end.

(** The row is an internal work order that passes every filter that is
    set.  A filter whose value is falsy (the empty text, the number 0) is
    not set. *)
Definition satisfies (filters : WorkOrderFilters) (r : CrownWorkOrderRecord)
  : Prop :=
  lab_id r = None /\
  (forall s, fStatus filters = Some (inl s) -> s <> "" -> status r = s) /\
  (forall l, fStatus filters = Some (inr l) -> In (status r) l) /\
  (forall a, fAssignedTo filters = Some a -> a <> "" ->
             assignedTo (lab_slip_data r) = a) /\
  (forall p, patientId filters = Some p -> p <> 0 ->
             opendental_patient_id r = p) /\
  (forall p, procedureId filters = Some p -> p <> 0 ->
             opendental_procedure_id r = p) /\
  (forall d, dateFrom filters = Some d -> d <= created_at r) /\
  (forall d, dateTo filters = Some d -> created_at r <= d) /\
  (forall p, fPriority filters = Some p -> p <> "" ->
             priority (lab_slip_data r) = p).

(** No two rows have the same key. *)
Definition uniqueKeys (t : Table) : Prop := NoDup (List.map id t).

(** No two rows refer to the same procedure. *)
Definition uniquePerProcedure (t : Table) : Prop :=
  NoDup (List.map opendental_procedure_id t).

(** No row has the key [i]. *)
Definition absent (i : string) (t : Table) : Prop :=
  forall r, In r t -> id r <> i.

(** What a request to one of the routes that write does to the table
    when no round trip of another request runs between its own:
    [POST /work-orders], [PATCH /work-orders/:id/status], the update at
    the end of [POST /work-orders/:id/pdf], [DELETE /work-orders/:id]. *)
Inductive routeStep : Table -> Table -> Prop :=
| step_post (t : Table) (now : Z) (uuid : string) (body : CreateBody) :
    routeStep t (snd (postWorkOrders t now uuid body))
| step_patch (t : Table) (now : Z) (i : string)
             (newStatus notes : option string) :
    routeStep t (snd (patchStatus t now i newStatus notes))
| step_pdf (t : Table) (now : Z) (i path : string) :
    routeStep t (snd (updateWorkOrder t now
                        {| uId := i; uStatus := None; uLabNotes := None;
                           pdfUrl := None; pdfStoragePath := Some path;
                           completedAt := None |}))
| step_delete (t : Table) (i : string) :
    routeStep t (snd (deleteRoute t i)).

(** The two rows agree on every column that a status update does not
    write: all but [status], [updated_at], [completed_at] and the lab
    notes. *)
Definition sameButStatus (r r' : CrownWorkOrderRecord) : Prop :=
  id r' = id r /\
  lab_id r' = lab_id r /\
  opendental_patient_id r' = opendental_patient_id r /\
  opendental_procedure_id r' = opendental_procedure_id r /\
  opendental_appointment_id r' = opendental_appointment_id r /\
  patient_name r' = patient_name r /\
  patient_dob r' = patient_dob r /\
  procedure_code r' = procedure_code r /\
  procedure_description r' = procedure_description r /\
  tooth_number r' = tooth_number r /\
  shade r' = shade r /\
  special_instructions r' = special_instructions r /\
  pdf_url r' = pdf_url r /\
  pdf_storage_path r' = pdf_storage_path r /\
  created_at r' = created_at r /\
  sent_at r' = sent_at r /\
  due_date r' = due_date r /\
  crownSpecs (lab_slip_data r') = crownSpecs (lab_slip_data r) /\
  specialInstructions (lab_slip_data r')
  = specialInstructions (lab_slip_data r) /\
  clinicalNotes (lab_slip_data r') = clinicalNotes (lab_slip_data r) /\
  priority (lab_slip_data r') = priority (lab_slip_data r) /\
  assignedTo (lab_slip_data r') = assignedTo (lab_slip_data r).

(** Two requests for different procedures, one after the other. *)
Definition twoOrders : Table :=
  snd (postWorkOrders oneOrder 1500 "wo-2" (crownRequest 78 "D2750")).

(** Two requests for the same procedure on the empty table, both checked
    before either is created: what the check of the request prepares, the
    answer and the table after the first creation, and after the
    second. *)
Definition racedParams : CreateWorkOrderParams :=
  match Server.postWorkOrdersCheck [] (crownRequest 77 "D2740") with
  | Js.Return (inr params) => params
  | _ => seatedFromTheStart
  end.

Definition firstRaced : Response * Table :=
  Server.postWorkOrdersCreate [] 1000 "wo-1" racedParams.

Definition secondRaced : Response * Table :=
  Server.postWorkOrdersCreate (snd firstRaced) 1001 "wo-2" racedParams.

End SpecStore.

(* ================================================================== *)
(** * Vocabulary of the properties of the command interpreter *)
(* ================================================================== *)

Module SpecCommands.
Import CrownTypes Supabase WorkOrderQueries AICommands.

(** The parse result of "what is the status of lab slip ...". *)
Definition askStatus (i : string) : ParsedCommand :=
  {| intent := JString "get_status";
     parameters := JObject [("lab_slip_id", JString i)];
     confidence := JNumber 0.9;
     originalText := "what is the status of this lab slip" |}.

End SpecCommands.

(* ================================================================== *)
(** * Properties *)
(* ================================================================== *)

Import Spec.

(** ** Strings and characters *)

Ltac each_ascii c :=
  destruct c as [[] [] [] [] [] [] [] []].

Lemma toUpperChar_not_lower (c : ascii) :
  JsString.isLower (JsString.toUpperChar c) = false.
Proof. each_ascii c; reflexivity. Qed.

Lemma toUpperCase_no_lower (s : string) :
  hasLower (JsString.toUpperCase s) = false.
Proof.
  unfold JsString.toUpperCase.
  induction s as [|c s IH]; simpl; [reflexivity|].
  now rewrite toUpperChar_not_lower, IH.
Qed.

Lemma arrayIncludes_In (l : list string) (x : string) :
  JsString.arrayIncludes l x = true <-> In x l.
Proof.
  unfold JsString.arrayIncludes. rewrite existsb_exists. split.
  - intros [y [Hy E]]. apply String.eqb_eq in E. now subst.
  - intros H. exists x. split; [assumption | apply String.eqb_refl].
Qed.

Lemma arrayIncludes_not_In (l : list string) (x : string) :
  JsString.arrayIncludes l x = false <-> ~ In x l.
Proof.
  rewrite <- arrayIncludes_In. split; intros H.
  - intros E. congruence.
  - destruct (JsString.arrayIncludes l x); [exfalso; now apply H | reflexivity].
Qed.

(** No name inherited from [Object.prototype] is the upper case of a
    string: each of them has a lower-case letter. *)
Lemma upper_not_inherited (s : string) :
  JsString.arrayIncludes CrownTypes.Object_prototype_keys
                         (JsString.toUpperCase s) = false.
Proof.
  apply arrayIncludes_not_In. intros H.
  assert (L : hasLower (JsString.toUpperCase s) = true).
  { simpl in H.
    repeat (destruct H as [H | H]; [rewrite <- H; reflexivity|]).
    destruct H. }
  rewrite toUpperCase_no_lower in L. discriminate.
Qed.

(** ** The procedure classifier *)

Section Classifier.
Import CrownTypes CrownDetection.

Lemma isCrownProcedure_normalize (procedureCode : string) :
  isCrownProcedure (normalize procedureCode) = true
  <-> In (normalize procedureCode) knownCrownCodes.
Proof.
  unfold isCrownProcedure, js_in, normalize.
  rewrite upper_not_inherited, orb_false_r.
  apply arrayIncludes_In.
Qed.

Lemma material_of_known (c : string) :
  In c knownCrownCodes ->
  exists m, recommendMaterialForCode c = Some m.
Proof.
  intros H. simpl in H.
  repeat (destruct H as [H | H]; [subst c; eexists; reflexivity|]).
  destruct H.
Qed.

Lemma detect_crown (config : ProcedureDetectionConfig) (procedureCode : string) :
  In (normalize procedureCode) knownCrownCodes ->
  In (normalize procedureCode) (monitoredCodes config) ->
  detectCrownProcedure config procedureCode =
  {| isCrown := true;
     procedureCode := Some (normalize procedureCode);
     description := getCrownDescription (normalize procedureCode);
     confidence := 1%float;
     recommendedMaterial := recommendMaterialForCode (normalize procedureCode);
     notes := Some ("Detected " ++ normalize procedureCode ++ " - "
                      ++ describe (normalize procedureCode)) |}.
Proof.
  intros K M. unfold detectCrownProcedure. fold (normalize procedureCode).
  apply arrayIncludes_In in M. apply isCrownProcedure_normalize in K.
  now rewrite M, K.
Qed.

Lemma detect_not_crown (config : ProcedureDetectionConfig) (procedureCode : string) :
  ~ In (normalize procedureCode) knownCrownCodes
  \/ ~ In (normalize procedureCode) (monitoredCodes config) ->
  detectCrownProcedure config procedureCode =
  {| isCrown := false;
     procedureCode := None;
     description := None;
     confidence := 0%float;
     recommendedMaterial := None;
     notes := Some ("Procedure code " ++ procedureCode
                      ++ " is not a monitored crown procedure") |}.
Proof.
  intros H. unfold detectCrownProcedure. fold (normalize procedureCode).
  destruct H as [K | M].
  - rewrite <- isCrownProcedure_normalize in K.
    apply not_true_is_false in K. now rewrite K, andb_false_r.
  - apply arrayIncludes_not_In in M. now rewrite M.
Qed.

(** C5, as amended.  A procedure code whose trimmed, upper-cased form is
    one of the four known crown codes and is among the configured
    [monitoredCodes] (the default configuration monitors exactly the
    four) is classified [isCrown = true] with confidence 1 and the
    material the table [materialMap] gives for it; a code whose
    normalized form is outside the known set, or is not monitored, is
    classified [isCrown = false] with confidence 0 and no material. *)
Theorem detectCrownProcedure_classifies :
  monitoredCodes DEFAULT_DETECTION_CONFIG = knownCrownCodes /\
  forall (config : ProcedureDetectionConfig) (procedureCode : string),
    let r := detectCrownProcedure config procedureCode in
    (In (normalize procedureCode) knownCrownCodes ->
     In (normalize procedureCode) (monitoredCodes config) ->
     isCrown r = true /\ confidence r = 1%float /\
     exists m, recommendedMaterial r = Some m /\
               lookup (normalize procedureCode) materialMap = Some m)
    /\
    (~ In (normalize procedureCode) knownCrownCodes
     \/ ~ In (normalize procedureCode) (monitoredCodes config) ->
     isCrown r = false /\ confidence r = 0%float /\
     recommendedMaterial r = None).
Proof.
  split; [reflexivity|]. intros config procedureCode r. subst r. split.
  - intros K M. rewrite (detect_crown _ _ K M). simpl.
    destruct (material_of_known _ K) as [m Hm].
    repeat split. exists m. split; exact Hm.
  - intros H. rewrite (detect_not_crown _ _ H). simpl. repeat split.
Qed.

(** The classifier of the routes and of the exported singleton, the
    default configuration, on the code [" d2750 "]; and on ["D0120"]. *)
Lemma detectCrownProcedure_classifies_witness :
  (isCrown (detectCrownProcedure DEFAULT_DETECTION_CONFIG " d2750 ") = true /\
   confidence (detectCrownProcedure DEFAULT_DETECTION_CONFIG " d2750 ") = 1%float /\
   exists m,
     recommendedMaterial (detectCrownProcedure DEFAULT_DETECTION_CONFIG " d2750 ")
     = Some m /\
     lookup (normalize " d2750 ") materialMap = Some m) /\
  (isCrown (detectCrownProcedure DEFAULT_DETECTION_CONFIG "D0120") = false /\
   confidence (detectCrownProcedure DEFAULT_DETECTION_CONFIG "D0120") = 0%float /\
   recommendedMaterial (detectCrownProcedure DEFAULT_DETECTION_CONFIG "D0120") = None).
Proof.
  split.
  - apply (proj2 detectCrownProcedure_classifies DEFAULT_DETECTION_CONFIG " d2750 ");
      simpl; auto.
  - apply (proj2 detectCrownProcedure_classifies DEFAULT_DETECTION_CONFIG "D0120").
    left. simpl. intros H.
    repeat (destruct H as [H | H]; [discriminate H|]). exact H.
Defined.

(** C5 as stated fails for a classifier that does not monitor a known
    code: [D2750] is one of the four crown codes, and a service
    configured to monitor [D2740] only does not detect it. *)
Lemma known_code_not_monitored :
  In (normalize "D2750") knownCrownCodes /\
  isCrown (detectCrownProcedure monitorsD2740 "D2750") = false.
Proof. simpl. split; [auto | reflexivity]. Qed.

End Classifier.

(** ** Priority *)

Section PriorityFacts.
Import CrownTypes CrownDetection.

(** [ceilDays] is the whole-day difference, rounded up: it is at most [n]
    exactly when the difference is at most [n] days. *)
Lemma ceilDays_le (ms n : Z) :
  ceilDays ms <= n <-> ms <= n * msPerDay.
Proof.
  unfold ceilDays, msPerDay.
  replace (1000 * 60 * 60 * 24) with 86400000 by reflexivity.
  pose proof (Z.div_mod (- ms) 86400000 ltac:(lia)) as E.
  pose proof (Z.mod_pos_bound (- ms) 86400000 ltac:(lia)) as B.
  lia.
Qed.

Lemma keywordScan_spec (notes : option string) :
  keywordScan notes = true <-> hasUrgentKeyword notes.
Proof.
  unfold keywordScan, hasUrgentKeyword. destruct notes as [text|].
  - rewrite andb_true_iff, existsb_exists. split.
    + intros [_ [k [Hk E]]]. exists text, k. auto.
    + intros [text' [k [Eq [Hk E]]]]. injection Eq as <-. split.
      * destruct text; [|reflexivity]. exfalso. simpl in Hk.
        repeat (destruct Hk as [Hk | Hk]; [subst k; discriminate E|]).
        destruct Hk.
      * exists k. auto.
  - split; [discriminate|]. intros [text [k [Eq _]]]. discriminate.
Qed.

Lemma determinePriority_unfold config now procedureDate appointmentDate notes :
  determinePriority config now procedureDate appointmentDate notes =
  if keywordScan notes then asap
  else match appointmentDate with
       | Some (Some t) =>
           if (ceilDays (t - now) <=? 1) then asap
           else if (ceilDays (t - now) <=? 3) then urgent
           else defaultPriority config
       | _ => defaultPriority config
       end.
Proof.
  unfold determinePriority, keywordScan.
  destruct notes; destruct appointmentDate as [[t|]|]; reflexivity.
Qed.

(** C8.  An urgent keyword in the notes yields [asap] whatever the dates.
    Without one, an appointment date decides by the whole-day difference
    between now and the appointment, [ceilDays]: at most 1 day [asap], at
    most 3 days [urgent], otherwise the configured default; without an
    appointment date the result is the configured default, which is
    [routine] in the default configuration. *)
Theorem determinePriority_cases :
  defaultPriority DEFAULT_DETECTION_CONFIG = routine /\
  forall (config : ProcedureDetectionConfig) (now : Z)
         (procedureDate : JsDate) (appointmentDate : option JsDate)
         (notes : option string),
    let result :=
      determinePriority config now procedureDate appointmentDate notes in
    (hasUrgentKeyword notes -> result = asap) /\
    (~ hasUrgentKeyword notes ->
     (forall t, appointmentDate = Some (Some t) ->
                (ceilDays (t - now) <= 1 -> result = asap) /\
                (1 < ceilDays (t - now) <= 3 -> result = urgent) /\
                (3 < ceilDays (t - now) -> result = defaultPriority config)) /\
     (appointmentDate = None -> result = defaultPriority config)).
Proof.
  split; [reflexivity|]. intros config now pd appt notes result. subst result.
  rewrite determinePriority_unfold. split.
  - intros H. apply keywordScan_spec in H. now rewrite H.
  - intros H. rewrite <- keywordScan_spec in H. apply not_true_is_false in H.
    rewrite H. split.
    + intros t ->. repeat split; intros D.
      * apply Z.leb_le in D. now rewrite D.
      * destruct D as [D1 D3].
        apply Z.leb_gt in D1. apply Z.leb_le in D3. now rewrite D1, D3.
      * assert (N1 : (ceilDays (t - now) <=? 1) = false) by (apply Z.leb_gt; lia).
        apply Z.leb_gt in D. now rewrite N1, D.
    + now intros ->.
Qed.

Lemma no_keyword_in_none : ~ hasUrgentKeyword None.
Proof. intros [text [k [E _]]]. discriminate E. Qed.

(** The four outcomes at concrete calls under the default configuration:
    a rush note with an appointment in five days; no note and an
    appointment in 20 hours, in 2.5 days and in 5 days; no appointment. *)
Lemma determinePriority_cases_witness :
  determinePriority DEFAULT_DETECTION_CONFIG 0 None
                    (Some (Some (5 * msPerDay))) (Some "Please RUSH this") = asap /\
  determinePriority DEFAULT_DETECTION_CONFIG 0 None
                    (Some (Some 72000000)) None = asap /\
  determinePriority DEFAULT_DETECTION_CONFIG 0 None
                    (Some (Some 216000000)) None = urgent /\
  determinePriority DEFAULT_DETECTION_CONFIG 0 None
                    (Some (Some (5 * msPerDay))) None = routine /\
  determinePriority DEFAULT_DETECTION_CONFIG 0 None None None = routine.
Proof.
  pose proof (proj2 determinePriority_cases DEFAULT_DETECTION_CONFIG 0 None) as H.
  split; [|split; [|split; [|split]]].
  - apply (proj1 (H (Some (Some (5 * msPerDay))) (Some "Please RUSH this"))).
    exists "Please RUSH this", "rush".
    split; [reflexivity | split; [simpl; auto | reflexivity]].
  - refine (proj1 (proj1 (proj2 (H (Some (Some 72000000)) None)
                                no_keyword_in_none) _ eq_refl) _).
    vm_compute. discriminate.
  - refine (proj1 (proj2 (proj1 (proj2 (H (Some (Some 216000000)) None)
                                       no_keyword_in_none) _ eq_refl)) _).
    vm_compute. split; [reflexivity | discriminate].
  - refine (proj2 (proj2 (proj1 (proj2 (H (Some (Some (5 * msPerDay))) None)
                                       no_keyword_in_none) _ eq_refl)) _).
    vm_compute. reflexivity.
  - exact (proj2 (proj2 (H None None) no_keyword_in_none) eq_refl).
Defined.

End PriorityFacts.

(** ** Tooth designators *)

Section ToothFacts.
Import CrownDetection Regex.

Lemma primaryToothLetter_class (c : ascii) :
  JsString.inRange 65 84 (JsString.toUpperChar c) = isPrimaryToothLetter c.
Proof. each_ascii c; reflexivity. Qed.

(** [^] fails at every position after the first. *)
Lemma primaryToothLetter_later (p : ascii) (s : string) :
  execFrom primaryToothLetter (Some p) s = None.
Proof.
  revert p. induction s as [|c s IH]; intros p; [reflexivity|].
  simpl. apply IH.
Qed.

(** [/^[A-T]$/i] accepts exactly the one-letter strings [A] to [T] and
    [a] to [t]. *)
Lemma primaryToothLetter_test (s : string) :
  js_test primaryToothLetter s =
  match s with
  | String c EmptyString => isPrimaryToothLetter c
  | _ => false
  end.
Proof.
  unfold js_test. destruct s as [|c [|d s]].
  - reflexivity.
  - rewrite <- primaryToothLetter_class. cbn.
    destruct (JsString.inRange 65 84 (JsString.toUpperChar c)); reflexivity.
  - cbn. destruct (JsString.inRange 65 84 (JsString.toUpperChar c));
      cbn; now rewrite primaryToothLetter_later.
Qed.

(** A single letter is not a number. *)
Lemma parseInt_letter (c : ascii) :
  isPrimaryToothLetter c = true -> parseInt (String c EmptyString) = None.
Proof. each_ascii c; intros H; try discriminate H; reflexivity. Qed.

Variable Number_toString : float -> string.

(** C10.  [extractToothNumber] is a total function of its input.  With
    [cleaned] the trimmed text of the input: when [parseInt] reads from it
    an integer from 1 to 32 the result is [cleaned]; when [cleaned] is a
    single letter [A] to [T] in either case the result is that letter in
    upper case; in every other case the result is [cleaned]. *)
Theorem extractToothNumber_cases (toothNum : string + float) :
  let cleaned := JsString.trim (js_String Number_toString toothNum) in
  let result := extractToothNumber Number_toString toothNum in
  (forall n, parseInt cleaned = Some n -> 1 <= n <= 32 -> result = cleaned) /\
  (forall c, cleaned = String c EmptyString -> isPrimaryToothLetter c = true ->
             result = String (JsString.toUpperChar c) EmptyString) /\
  ((forall n, parseInt cleaned = Some n -> ~ 1 <= n <= 32) ->
   (forall c, cleaned = String c EmptyString -> isPrimaryToothLetter c = false) ->
   result = cleaned).
Proof.
  intros cleaned result. subst result. unfold extractToothNumber.
  fold cleaned. rewrite primaryToothLetter_test. split; [|split].
  - intros n E [L U]. rewrite E.
    apply Z.leb_le in L. apply Z.leb_le in U. now rewrite L, U.
  - intros c E L. rewrite E, (parseInt_letter c L), L. reflexivity.
  - intros N P. destruct (parseInt cleaned) as [n|] eqn:E.
    + specialize (N n eq_refl).
      destruct ((1 <=? n) && (n <=? 32))%bool eqn:B; [reflexivity|].
      destruct cleaned as [|c [|d s]]; try reflexivity.
      now rewrite (P c eq_refl).
    + destruct cleaned as [|c [|d s]]; try reflexivity.
      now rewrite (P c eq_refl).
Qed.

End ToothFacts.

(** A number 14.0 printed as [14], a padded [" 7 "], the letter [t], and
    the designator [UR6], under a printer of numbers that knows 14. *)
Lemma extractToothNumber_cases_witness :
  CrownDetection.extractToothNumber printFourteen (inr 14%float) = "14" /\
  CrownDetection.extractToothNumber printFourteen (inl " 7 ") = "7" /\
  CrownDetection.extractToothNumber printFourteen (inl "t") = "T" /\
  CrownDetection.extractToothNumber printFourteen (inl "UR6") = "UR6".
Proof.
  split; [|split; [|split]].
  - refine (proj1 (extractToothNumber_cases printFourteen (inr 14%float)) 14 eq_refl _).
    lia.
  - refine (proj1 (extractToothNumber_cases printFourteen (inl " 7 ")) 7 eq_refl _).
    lia.
  - exact (proj1 (proj2 (extractToothNumber_cases printFourteen (inl "t")))
                 "t"%char eq_refl eq_refl).
  - refine (proj2 (proj2 (extractToothNumber_cases printFourteen (inl "UR6"))) _ _).
    + intros n E. discriminate E.
    + intros c E. discriminate E.
Defined.

(** ** Shade extraction *)

Section MatcherFacts.
Import Regex.
Context {A : Type}.

Lemma suffix_trans (a b c : string) : suffix a b -> suffix b c -> suffix a c.
Proof.
  intros Hab Hbc. induction Hbc; [assumption|].
  apply suffix_next. now apply IHHbc.
Qed.

Lemma suffix_tail (c : ascii) (s' s : string) :
  suffix (String c s') s -> suffix s' s.
Proof.
  intros H. apply suffix_trans with (String c s'); [|assumption].
  apply suffix_next, suffix_here.
Qed.

(** A pattern calls its continuation on what is left of the input: when
    the continuation fails on every suffix, the pattern fails. *)
Lemma repeat_greedy_suffix (p : ascii -> bool) (fuel lo : nat)
      (prev : option ascii) (s : string) (cap : option string) (k : @cont A) :
  (forall prev' s' cap', suffix s' s -> k prev' s' cap' = None) ->
  repeat_greedy p lo fuel prev s cap k = None.
Proof.
  revert lo prev s. induction fuel as [|fuel IH]; intros lo prev s K.
  - simpl. destruct lo; [apply K, suffix_here | reflexivity].
  - simpl. destruct s as [|c s].
    + destruct lo; [apply K, suffix_here | reflexivity].
    + assert (Stop : match lo with
                     | O => k prev (String c s) cap
                     | S _ => None
                     end = None).
      { destruct lo; [apply K, suffix_here | reflexivity]. }
      destruct (p c); [|exact Stop].
      rewrite IH; [exact Stop|].
      intros prev' s' cap' Hs. apply K. now apply suffix_next.
Qed.

Lemma rmatch_suffix (r : regex) :
  forall (prev : option ascii) (s : string) (cap : option string) (k : @cont A),
    (forall prev' s' cap', suffix s' s -> k prev' s' cap' = None) ->
    rmatch r prev s cap k = None.
Proof.
  induction r as [|p|r1 IH1 r2 IH2|p lo hi|r1 IH1| | |]; intros prev s cap k K; simpl.
  - apply K, suffix_here.
  - destruct s as [|c s]; [reflexivity|].
    destruct (p c); [|reflexivity]. apply K, suffix_next, suffix_here.
  - apply IH1. intros prev' s' cap' Hs. apply IH2.
    intros prev'' s'' cap'' Hs'. apply K. now apply suffix_trans with s'.
  - now apply repeat_greedy_suffix.
  - apply IH1. intros prev' s' cap' Hs. now apply K.
  - destruct (xorb _ _); [apply K, suffix_here | reflexivity].
  - destruct prev; [reflexivity | apply K, suffix_here].
  - destruct s; [apply K, suffix_here | reflexivity].
Qed.

Lemma mentionsShade_suffix (s' s : string) :
  suffix s' s -> mentionsShade s = false -> mentionsShade s' = false.
Proof.
  induction 1 as [|c s' s H IH]; intros M; [assumption|].
  apply IH. simpl in M. now apply orb_false_iff in M.
Qed.

Lemma cls_AD_any (ci : bool) (c : ascii) :
  cls_AD ci c = true -> cls_AD true c = true.
Proof. destruct ci; [auto|]. each_ascii c; intros H; try discriminate H; reflexivity. Qed.

(** The group [([A-D]\d{1,2})] fails where no shade is mentioned. *)
Lemma shadeGroup_fails (ci : bool) (prev : option ascii) (s : string)
      (cap : option string) (k : @cont A) :
  mentionsShade s = false ->
  rmatch (shadeGroup ci) prev s cap k = None.
Proof.
  intros M. destruct s as [|c s]; [reflexivity|].
  simpl. destruct (cls_AD ci c) eqn:C; [|reflexivity].
  apply cls_AD_any in C. simpl in M. rewrite C in M. simpl in M.
  apply orb_false_iff in M. destruct M as [D _].
  destruct s as [|d s]; [reflexivity|]. now rewrite D.
Qed.

Lemma failsOn_group (ci : bool) (r : regex) (s : string) :
  mentionsShade s = false -> failsOn (A := A) (RSeq (shadeGroup ci) r) s.
Proof.
  intros M prev s' cap k Hs.
  change (rmatch (shadeGroup ci) prev s' cap
                 (fun prev' s'' cap' => rmatch r prev' s'' cap' k) = None).
  apply shadeGroup_fails. now apply mentionsShade_suffix with s.
Qed.

Lemma failsOn_later (r1 r2 : regex) (s : string) :
  failsOn (A := A) r2 s -> failsOn (A := A) (RSeq r1 r2) s.
Proof.
  intros F prev s' cap k Hs. simpl. apply rmatch_suffix.
  intros prev' s'' cap' Hs'. apply F. now apply suffix_trans with s'.
Qed.

End MatcherFacts.

Section ShadeFacts.
Import CrownDetection Regex.

Lemma execFrom_fails (r : regex) (s : string) :
  failsOn (A := option string) r s ->
  forall prev, execFrom r prev s = None.
Proof.
  induction s as [|c s IH]; intros F prev; cbn [execFrom]; unfold matchHere.
  - now rewrite (F prev EmptyString None _ (suffix_here _)).
  - rewrite (F prev (String c s) None _ (suffix_here _)).
    apply IH. intros prev' s' cap k Hs. apply F. now apply suffix_next.
Qed.

(** No rule of [extractShade] matches a text without a shade mention. *)
Lemma rules_need_mention (notes : string) (pattern : regex) :
  mentionsShade notes = false ->
  In pattern shadePatterns ->
  js_match notes pattern = None.
Proof.
  intros M H. unfold js_match. apply execFrom_fails.
  simpl in H. destruct H as [<- | [<- | [<- | [<- | []]]]].
  - unfold shadeLabelPrefixed. cbn [seq lit].
    do 2 apply failsOn_later. now apply failsOn_group.
  - unfold shadeLabelSuffixed. cbn [seq]. now apply failsOn_group.
  - unfold shadeColorPrefixed. cbn [seq lit].
    do 2 apply failsOn_later. now apply failsOn_group.
  - unfold shadeBareToken. cbn [seq].
    apply failsOn_later. now apply failsOn_group.
Qed.

Lemma firstShade_none (patterns : list regex) (notes : string) :
  (forall q, In q patterns -> shadeOf notes q = None) ->
  firstShade patterns notes = None.
Proof.
  induction patterns as [|p ps IH]; intros H; [reflexivity|].
  simpl. rewrite (H p (or_introl eq_refl)). apply IH.
  intros q Hq. apply H. now right.
Qed.

Lemma firstShade_first (before after : list regex) (pattern : regex)
      (notes shade : string) :
  (forall q, In q before -> shadeOf notes q = None) ->
  shadeOf notes pattern = Some shade ->
  firstShade (before ++ pattern :: after) notes = Some shade.
Proof.
  induction before as [|p ps IH]; intros H E; simpl.
  - now rewrite E.
  - rewrite (H p (or_introl eq_refl)). apply IH; [|assumption].
    intros q Hq. apply H. now right.
Qed.

(** C9.  [extractShade] tries its rules in the order label-prefixed,
    label-suffixed, color-prefixed, bare token, and returns the shade of
    the first rule that matches; when no rule matches, and so for every
    text that mentions no shade (no letter [A] to [D] with a digit after
    it), it returns ["A2"]. *)
Theorem extractShade_rules :
  shadePatterns =
  [shadeLabelPrefixed; shadeLabelSuffixed; shadeColorPrefixed; shadeBareToken]
  /\
  forall notes : string,
    (forall before pattern after shade,
        shadePatterns = (before ++ pattern :: after)%list ->
        (forall q, In q before -> shadeOf notes q = None) ->
        shadeOf notes pattern = Some shade ->
        extractShade notes = shade) /\
    ((forall q, In q shadePatterns -> shadeOf notes q = None) ->
     extractShade notes = "A2") /\
    (mentionsShade notes = false -> extractShade notes = "A2").
Proof.
  split; [reflexivity|]. intros notes. split; [|split].
  - intros before pattern after shade E B P. unfold extractShade.
    rewrite E. now rewrite (firstShade_first before after pattern notes shade B P).
  - intros N. unfold extractShade. now rewrite (firstShade_none _ _ N).
  - intros M. unfold extractShade. rewrite firstShade_none; [reflexivity|].
    intros q Hq. unfold shadeOf. now rewrite (rules_need_mention notes q M Hq).
Qed.

(** The notes of the repository's shade test, and a text on which the
    first rule wins over an earlier match of the second. *)
Lemma extractShade_rules_witness :
  extractShade "Patient wants shade A3 to match adjacent teeth" = "A3" /\
  extractShade "Use B2 shade for this case" = "B2" /\
  extractShade "A1 shade: B2" = "B2" /\
  extractShade "seat crown, tooth C4" = "C4" /\
  extractShade "No specific shade mentioned" = "A2".
Proof.
  pose proof (proj2 extractShade_rules) as H.
  split; [|split; [|split; [|split]]].
  - apply (proj1 (H _) [] shadeLabelPrefixed
                 [shadeLabelSuffixed; shadeColorPrefixed; shadeBareToken]).
    + reflexivity.
    + intros q [].
    + reflexivity.
  - apply (proj1 (H _) [shadeLabelPrefixed] shadeLabelSuffixed
                 [shadeColorPrefixed; shadeBareToken]).
    + reflexivity.
    + intros q [<- | []]. reflexivity.
    + reflexivity.
  - apply (proj1 (H _) [] shadeLabelPrefixed
                 [shadeLabelSuffixed; shadeColorPrefixed; shadeBareToken]).
    + reflexivity.
    + intros q [].
    + reflexivity.
  - apply (proj1 (H _) [shadeLabelPrefixed; shadeLabelSuffixed; shadeColorPrefixed]
                 shadeBareToken []).
    + reflexivity.
    + intros q [<- | [<- | [<- | []]]]; reflexivity.
    + reflexivity.
  - apply (proj2 (proj2 (H _))). reflexivity.
Defined.

End ShadeFacts.

(** ** The work order store *)

Section StoreFacts.
Import CrownTypes Supabase WorkOrderQueries Routes.

Lemma single_data {X : Type} (rows : list X) (r : X) :
  data (single rows) = Some r -> rows = [r].
Proof.
  destruct rows as [|x [|y rows]]; simpl; intros H; try discriminate H.
  now injection H as ->.
Qed.

Lemma applyUpdates_id (u : Updates) (r : CrownWorkOrderRecord) :
  id (applyUpdates u r) = id r.
Proof. reflexivity. Qed.

(** Rewriting the rows with key [i] by a function that keeps the key
    commutes with the selection of those rows. *)
Lemma filter_rewritten (i : string)
      (f : CrownWorkOrderRecord -> CrownWorkOrderRecord) (t : Table) :
  (forall r, id (f r) = id r) ->
  filter (eq_id i) (List.map (fun r => if eq_id i r then f r else r) t)
  = List.map f (filter (eq_id i) t).
Proof.
  intros K. induction t as [|x t IH]; [reflexivity|].
  simpl. destruct (eq_id i x) eqn:E.
  - assert (E' : eq_id i (f x) = true) by (unfold eq_id in *; now rewrite K).
    rewrite E'. simpl. now rewrite IH.
  - rewrite E. exact IH.
Qed.

(** What a status update does to a table in which the key resolves. *)
Lemma updateWorkOrderStatus_resolved (t : Table) (now : Z) (i : string)
      (newStatus : WorkOrderStatus) (notes : option string)
      (r : CrownWorkOrderRecord) :
  data (getWorkOrderById t i) = Some r ->
  exists u,
    set_status u = Some newStatus /\
    set_completed_at u = (if String.eqb newStatus seated then Some now else None) /\
    updateWorkOrderStatus t now i newStatus notes =
    if lab_slips_status_check newStatus
    then (ok (applyUpdates u r),
          List.map (fun x => if eq_id i x then applyUpdates u x else x) t)
    else (fail checkViolation, t).
Proof.
  intros R. apply single_data in R.
  unfold updateWorkOrderStatus, updateWorkOrder, update. cbn [uId uStatus].
  eexists. split; [|split]; cycle 2.
  - rewrite R. cbn [List.map]. cbn [applyUpdates status pick set_status].
    reflexivity.
  - reflexivity.
  - reflexivity.
Qed.

Lemma status_check_truthy (s : string) :
  lab_slips_status_check s = true -> JsString.truthy s = true.
Proof. destruct s; [discriminate | reflexivity]. Qed.

(** C1, as amended.  For a work order id that resolves to a record, a
    status update with a status the table admits succeeds; and every
    successful status update returns the record with the new status (the
    route [PATCH /work-orders/:id/status] answers 200 with it), is what
    the id resolves to afterwards, keeps the number of rows, and appends
    no history entry: the record stores no status history, and the work
    order read back from it has the empty history before and after the
    call, so the length of the history stays 0. *)
Theorem updateWorkOrderStatus_history
        (t : Table) (now : Z) (i : string) (newStatus : WorkOrderStatus)
        (notes : option string) (r : CrownWorkOrderRecord) :
  data (getWorkOrderById t i) = Some r ->
  (lab_slips_status_check newStatus = true ->
   exists r', data (fst (updateWorkOrderStatus t now i newStatus notes)) = Some r')
  /\
  forall r',
    data (fst (updateWorkOrderStatus t now i newStatus notes)) = Some r' ->
    let t' := snd (updateWorkOrderStatus t now i newStatus notes) in
    status r' = newStatus /\
    patchStatus t now i (Some newStatus) notes = (Ok r', t') /\
    getWorkOrderById t' i = ok r' /\
    List.length t' = List.length t /\
    List.length (statusHistory (toCrownWorkOrder r'))
    = List.length (statusHistory (toCrownWorkOrder r)) /\
    List.length (statusHistory (toCrownWorkOrder r')) = 0%nat.
Proof.
  intros R.
  destruct (updateWorkOrderStatus_resolved t now i newStatus notes r R)
    as [u [Hs [_ E]]].
  unfold patchStatus. rewrite E. split.
  - intros C. rewrite C. eexists. reflexivity.
  - intros r'. destruct (lab_slips_status_check newStatus) eqn:C; [|discriminate].
    cbn [fst snd data ok]. intros H. injection H as <-.
    split; [|split; [|split; [|split; [|split]]]].
    + cbn [applyUpdates status]. now rewrite Hs.
    + cbn [truthyS]. rewrite (status_check_truthy _ C), E. reflexivity.
    + unfold getWorkOrderById.
      rewrite (filter_rewritten i (applyUpdates u) t (applyUpdates_id u)).
      apply single_data in R. rewrite R. reflexivity.
    + apply length_map.
    + reflexivity.
    + reflexivity.
Qed.

(** The order of the sample table, moved to [scanned] with a note. *)
Lemma updateWorkOrderStatus_history_witness :
  exists r r',
    data (getWorkOrderById oneOrder "wo-1") = Some r /\
    data (fst (updateWorkOrderStatus oneOrder 2000 "wo-1" "scanned"
                                     (Some "scan done"))) = Some r' /\
    status r' = "scanned" /\
    List.length (statusHistory (toCrownWorkOrder r'))
    = List.length (statusHistory (toCrownWorkOrder r)).
Proof.
  destruct (getWorkOrderById oneOrder "wo-1") as [[r|] e] eqn:R;
    [|discriminate R].
  assert (Hr : data (getWorkOrderById oneOrder "wo-1") = Some r)
    by (rewrite R; reflexivity).
  pose proof (updateWorkOrderStatus_history oneOrder 2000 "wo-1" "scanned"
                (Some "scan done") r Hr) as [Total After].
  destruct (Total eq_refl) as [r' Hr'].
  exists r, r'. destruct (After r' Hr') as [S [_ [_ [_ [L _]]]]].
  repeat split; assumption.
Defined.

(** C1 as stated fails: the status update of the sample order succeeds,
    and the history of the work order read back from the record has
    length 0 after the call, not the length before plus one. *)
Lemma status_update_appends_nothing :
  exists r r',
    data (getWorkOrderById oneOrder "wo-1") = Some r /\
    data (fst (updateWorkOrderStatus oneOrder 2000 "wo-1" "scanned" None))
    = Some r' /\
    List.length (statusHistory (toCrownWorkOrder r'))
    <> S (List.length (statusHistory (toCrownWorkOrder r))).
Proof.
  eexists. eexists. split; [vm_compute; reflexivity|].
  split; [vm_compute; reflexivity|]. discriminate.
Qed.

End StoreFacts.

(** ** Completion time stamps *)

Section CompletionFacts.
Import CrownTypes Supabase WorkOrderQueries Routes.

Lemma insert_Forall (P : CrownWorkOrderRecord -> Prop) (t : Table)
      (r : CrownWorkOrderRecord) :
  P r -> Forall P t -> Forall P (snd (insert t r)).
Proof.
  intros Hr Ht. unfold insert.
  destruct (negb (lab_slips_status_check (status r))); [exact Ht|].
  destruct (existsb (eq_id (id r)) t); [exact Ht|].
  simpl. apply Forall_app. split; [exact Ht | now constructor].
Qed.

Lemma update_Forall (P : CrownWorkOrderRecord -> Prop) (t : Table) (i : string)
      (f : CrownWorkOrderRecord -> CrownWorkOrderRecord) :
  (forall r, P r -> P (f r)) -> Forall P t -> Forall P (snd (update t i f)).
Proof.
  intros Hf Ht. unfold update.
  destruct (List.map f (filter (eq_id i) t)) as [|r' [|r'' l]]; try exact Ht.
  destruct (lab_slips_status_check (status r')); [|exact Ht].
  simpl. apply Forall_map. apply Forall_impl with (P := P); [|exact Ht].
  intros r Hr. destruct (eq_id i r); auto.
Qed.

Lemma delete_Forall (P : CrownWorkOrderRecord -> Prop) (t : Table) (i : string) :
  Forall P t -> Forall P (delete t i).
Proof.
  intros Ht. unfold delete. apply Forall_forall. intros r Hr.
  apply filter_In in Hr. rewrite Forall_forall in Ht. now apply Ht.
Qed.

Lemma createWorkOrder_stamped (t : Table) (now : Z) (uuid : string)
      (params : CreateWorkOrderParams) :
  orElse (cStatus params) pending <> seated ->
  Forall stamped t ->
  Forall stamped (snd (createWorkOrder t now uuid params)).
Proof.
  intros N Ht. unfold createWorkOrder. apply insert_Forall; [|exact Ht].
  intros S. cbn [status] in S. contradiction.
Qed.

Lemma postWorkOrders_stamped (t : Table) (now : Z) (uuid : string)
      (body : CreateBody) :
  Forall stamped t -> Forall stamped (snd (postWorkOrders t now uuid body)).
Proof.
  intros Ht. unfold postWorkOrders, postWorkOrdersTry.
  destruct (truthyZ (bPatientId body)); [|exact Ht].
  destruct (truthyZ (bProcedureId body)) as [procId|]; [|exact Ht].
  destruct (patient body); [|exact Ht].
  destruct (procedure body) as [proc|]; [|exact Ht].
  destruct (code proc) as [procCode|]; [|exact Ht].
  cbn [stringOrThrow Js.bind].
  destruct (negb _); [exact Ht|].
  destruct (workOrderExistsForProcedure t procId); [exact Ht|].
  match goal with
  | |- context [createWorkOrder t now uuid ?p] =>
      pose proof (createWorkOrder_stamped t now uuid p) as C;
      destruct (createWorkOrder t now uuid p) as [res t']
  end.
  assert (Ht' : Forall stamped t') by (apply C; [discriminate | exact Ht]).
  cbn. destruct (error res); [exact Ht'|]. destruct (data res); exact Ht'.
Qed.

Lemma updateWorkOrderStatus_stamped (t : Table) (now : Z) (i : string)
      (newStatus : WorkOrderStatus) (notes : option string) :
  Forall stamped t ->
  Forall stamped (snd (updateWorkOrderStatus t now i newStatus notes)).
Proof.
  intros Ht. unfold updateWorkOrderStatus, updateWorkOrder.
  apply update_Forall; [|exact Ht].
  intros r _ S. cbn [applyUpdates status completed_at uStatus completedAt
                     set_status set_completed_at pick pickOpt] in *.
  subst newStatus. rewrite String.eqb_refl. discriminate.
Qed.

Lemma patchStatus_stamped (t : Table) (now : Z) (i : string)
      (newStatus notes : option string) :
  Forall stamped t ->
  Forall stamped (snd (patchStatus t now i newStatus notes)).
Proof.
  intros Ht. unfold patchStatus.
  destruct (truthyS newStatus) as [s|]; [|exact Ht].
  pose proof (updateWorkOrderStatus_stamped t now i s notes Ht) as U.
  destruct (updateWorkOrderStatus t now i s notes) as [res t'].
  destruct (error res); [exact U|]. destruct (data res); exact U.
Qed.

Lemma reachable_stamped (t : Table) : reachable t -> Forall stamped t.
Proof.
  induction 1 as [|t now uuid params _ IH N|t now uuid body _ IH
                  |t now i s notes _ IH|t now i s notes _ IH
                  |t now i path _ IH|t i _ IH].
  - constructor.
  - now apply createWorkOrder_stamped.
  - now apply postWorkOrders_stamped.
  - now apply updateWorkOrderStatus_stamped.
  - now apply patchStatus_stamped.
  - unfold updateWorkOrder. apply update_Forall; [|exact IH].
    intros r Hr S. apply Hr. exact S.
  - now apply delete_Forall.
Qed.

Lemma reachedWith_reachable (t : Table) (seatings : list (string * Z)) :
  reachedWith t seatings -> reachable t.
Proof.
  induction 1; [constructor | now apply reach_create | now apply reach_post
               | now apply reach_status | now apply reach_patch
               | now apply reach_pdf | now apply reach_delete].
Qed.

Lemma reachable_reachedWith (t : Table) :
  reachable t -> exists seatings, reachedWith t seatings.
Proof.
  induction 1 as [|t clock uuid params _ [l IH] N|t clock uuid body _ [l IH]
                  |t clock i s notes _ [l IH]|t clock i s notes _ [l IH]
                  |t clock i path _ [l IH]|t i _ [l IH]];
    eexists;
    [ apply with_empty | apply with_create | apply with_post
    | apply with_status | apply with_patch | apply with_pdf
    | apply with_delete ]; eassumption.
Qed.

(** A status update rewrites the rows with the key, stamping them when
    the new status is [seated] and only then, or fails and leaves the
    table as it is. *)
Lemma updateWorkOrderStatus_outcome (t : Table) (now : Z) (i : string)
      (newStatus : WorkOrderStatus) (notes : option string) :
  (exists u row,
      set_completed_at u
      = (if String.eqb newStatus seated then Some now else None) /\
      updateWorkOrderStatus t now i newStatus notes
      = (ok row,
         List.map (fun x => if eq_id i x then applyUpdates u x else x) t)) \/
  (exists e, updateWorkOrderStatus t now i newStatus notes = (fail e, t)).
Proof.
  unfold updateWorkOrderStatus, updateWorkOrder, update. cbn [uId].
  match goal with
  | |- context [List.map (applyUpdates ?u) (filter (eq_id i) t)] =>
      destruct (List.map (applyUpdates u) (filter (eq_id i) t))
        as [|r' [|r'' l]];
      [ right; now exists PGRST116
      | destruct (lab_slips_status_check (status r'));
        [ left; exists u, r'; split; reflexivity
        | right; now exists checkViolation ]
      | right; now exists PGRST116 ]
  end.
Qed.

Lemma rewritten_Forall (P Q : CrownWorkOrderRecord -> Prop) (i : string)
      (f : CrownWorkOrderRecord -> CrownWorkOrderRecord) (t : Table) :
  (forall r, P r -> Q r) ->
  (forall r, id r = i -> P r -> Q (f r)) ->
  Forall P t ->
  Forall Q (List.map (fun x => if eq_id i x then f x else x) t).
Proof.
  intros Keep Write Ht. apply Forall_map.
  apply Forall_impl with (P := P); [|exact Ht].
  intros r Hr. destruct (eq_id i r) eqn:E; [|now apply Keep].
  apply Write; [|exact Hr]. unfold eq_id in E. now apply String.eqb_eq.
Qed.

Lemma updateWorkOrderStatus_logged (t : Table) (seatings : list (string * Z))
      (now : Z) (i : string) (newStatus : WorkOrderStatus)
      (notes : option string) :
  Forall (logged seatings) t ->
  Forall (logged (seating (fst (updateWorkOrderStatus t now i newStatus notes))
                          now i newStatus seatings))
         (snd (updateWorkOrderStatus t now i newStatus notes)).
Proof.
  intros Ht.
  destruct (updateWorkOrderStatus_outcome t now i newStatus notes)
    as [[u [row [C E]]] | [e E]]; rewrite E; [|exact Ht].
  unfold seating. cbn [fst snd ok data].
  apply rewritten_Forall with (P := logged seatings); [| |exact Ht].
  - intros r L c Hc. specialize (L c Hc).
    destruct (String.eqb newStatus seated); [now right | exact L].
  - intros r I L c Hc. unfold logged in L.
    cbn [applyUpdates completed_at id] in Hc |- *. rewrite C in Hc.
    destruct (String.eqb newStatus seated); cbn [pickOpt] in Hc.
    + injection Hc as <-. rewrite I. now left.
    + now apply L.
Qed.

Lemma patchStatus_logged (t : Table) (seatings : list (string * Z))
      (now : Z) (i : string) (newStatus notes : option string) :
  Forall (logged seatings) t ->
  Forall (logged (match truthyS newStatus with
                  | Some s =>
                      seating (fst (updateWorkOrderStatus t now i s notes))
                              now i s seatings
                  | None => seatings
                  end))
         (snd (patchStatus t now i newStatus notes)).
Proof.
  intros Ht. unfold patchStatus.
  destruct (truthyS newStatus) as [s|]; [|exact Ht].
  pose proof (updateWorkOrderStatus_logged t seatings now i s notes Ht) as U.
  destruct (updateWorkOrderStatus t now i s notes) as [res t'].
  cbn [fst snd] in U |- *.
  destruct (error res); [exact U|]. destruct (data res); exact U.
Qed.

Lemma postWorkOrders_logged (t : Table) (seatings : list (string * Z))
      (now : Z) (uuid : string) (body : CreateBody) :
  Forall (logged seatings) t ->
  Forall (logged seatings) (snd (postWorkOrders t now uuid body)).
Proof.
  intros Ht. unfold postWorkOrders, postWorkOrdersTry.
  destruct (truthyZ (bPatientId body)); [|exact Ht].
  destruct (truthyZ (bProcedureId body)) as [procId|]; [|exact Ht].
  destruct (patient body); [|exact Ht].
  destruct (procedure body) as [proc|]; [|exact Ht].
  destruct (code proc) as [procCode|]; [|exact Ht].
  cbn [stringOrThrow Js.bind].
  destruct (negb _); [exact Ht|].
  destruct (workOrderExistsForProcedure t procId); [exact Ht|].
  match goal with
  | |- context [createWorkOrder t now uuid ?p] =>
      assert (C : Forall (logged seatings)
                         (snd (createWorkOrder t now uuid p)))
        by (unfold createWorkOrder; apply insert_Forall;
            [intros c Hc; discriminate Hc | exact Ht]);
      destruct (createWorkOrder t now uuid p) as [res t']
  end.
  cbn. destruct (error res); [exact C|]. destruct (data res); exact C.
Qed.

Lemma reachedWith_logged (t : Table) (seatings : list (string * Z)) :
  reachedWith t seatings -> Forall (logged seatings) t.
Proof.
  induction 1 as [|t l clock uuid params _ IH N|t l clock uuid body _ IH
                  |t l clock i s notes _ IH|t l clock i s notes _ IH
                  |t l clock i path _ IH|t l i _ IH].
  - constructor.
  - unfold createWorkOrder. apply insert_Forall; [|exact IH].
    intros c Hc. discriminate Hc.
  - now apply postWorkOrders_logged.
  - now apply updateWorkOrderStatus_logged.
  - now apply patchStatus_logged.
  - unfold updateWorkOrder. apply update_Forall; [|exact IH].
    intros r Hr c Hc. now apply Hr.
  - now apply delete_Forall.
Qed.

Lemma createWorkOrder_open (t : Table) (now : Z) (uuid : string)
      (params : CreateWorkOrderParams) (row : CrownWorkOrderRecord) :
  data (fst (createWorkOrder t now uuid params)) = Some row ->
  completed_at row = None.
Proof.
  unfold createWorkOrder, insert.
  destruct (negb (lab_slips_status_check _)); [discriminate|].
  destruct (existsb _ t); [discriminate|].
  cbn. intros H. now injection H as <-.
Qed.

Lemma postWorkOrders_open (t : Table) (now : Z) (uuid : string)
      (body : CreateBody) (row : CrownWorkOrderRecord) :
  fst (postWorkOrders t now uuid body) = Created row ->
  completed_at row = None /\ status row = pending.
Proof.
  unfold postWorkOrders, postWorkOrdersTry.
  destruct (truthyZ (bPatientId body)); [|discriminate].
  destruct (truthyZ (bProcedureId body)) as [procId|]; [|discriminate].
  destruct (patient body); [|discriminate].
  destruct (procedure body) as [proc|]; [|discriminate].
  destruct (code proc) as [procCode|]; [|discriminate].
  cbn [stringOrThrow Js.bind].
  destruct (negb _); [discriminate|].
  destruct (workOrderExistsForProcedure t procId); [discriminate|].
  unfold createWorkOrder, insert.
  destruct (negb (lab_slips_status_check _)); [discriminate|].
  destruct (existsb _ t); [discriminate|].
  cbn. intros H. injection H as <-. split; reflexivity.
Qed.

Lemma updateWorkOrderStatus_keeps_completedAt (t : Table) (now : Z)
      (i : string) (newStatus : WorkOrderStatus) (notes : option string) :
  newStatus <> seated ->
  List.map completed_at (snd (updateWorkOrderStatus t now i newStatus notes))
  = List.map completed_at t.
Proof.
  intros N.
  destruct (updateWorkOrderStatus_outcome t now i newStatus notes)
    as [[u [row [C E]]] | [e E]]; rewrite E; [|reflexivity].
  cbn [snd]. rewrite map_map. apply map_ext. intros r.
  destruct (eq_id i r); [|reflexivity].
  cbn [applyUpdates completed_at]. rewrite C.
  destruct (String.eqb_spec newStatus seated); [contradiction | reflexivity].
Qed.

(** C2, as amended.  In every state of the table reached from the empty
    table by creations with an initial status other than [seated] (the
    route [POST /work-orders] creates [pending] records), status updates
    (by the query or through the route), document updates and deletions,
    a record whose status is [seated] has a completion time.  Of the
    converse this much holds.  A completion time is only ever the time of
    a seating: a record that has one was set to [seated] at that time by
    a status update that succeeded, so a record that was never seated has
    none.  A record as it is created has none.  And a status update to
    another status than [seated] leaves every completion time as it was:
    none is added, and none is cleared (which is why a completion time
    outlives the status [seated]). *)
Theorem seated_has_completedAt (t : Table) :
  (reachable t ->
   forall r, In r t -> status r = seated -> completed_at r <> None) /\
  (forall seatings,
      reachedWith t seatings ->
      reachable t /\
      (forall r c, In r t -> completed_at r = Some c ->
                   In (id r, c) seatings) /\
      (forall r, In r t -> (forall c, ~ In (id r, c) seatings) ->
                 completed_at r = None /\ status r <> seated)) /\
  (reachable t -> exists seatings, reachedWith t seatings) /\
  (forall now uuid params row,
      data (fst (createWorkOrder t now uuid params)) = Some row ->
      completed_at row = None) /\
  (forall now uuid body row,
      fst (postWorkOrders t now uuid body) = Created row ->
      completed_at row = None /\ status row = pending) /\
  (forall now i newStatus notes,
      newStatus <> seated ->
      List.map completed_at
               (snd (updateWorkOrderStatus t now i newStatus notes))
      = List.map completed_at t) /\
  (forall now i newStatus notes,
      newStatus <> Some seated ->
      List.map completed_at (snd (patchStatus t now i newStatus notes))
      = List.map completed_at t).
Proof.
  assert (S : reachable t ->
              forall r, In r t -> status r = seated -> completed_at r <> None).
  { intros R r H. apply reachable_stamped in R.
    rewrite Forall_forall in R. now apply R. }
  split; [exact S|]. split; [|split; [|split; [|split; [|split]]]].
  - intros seatings W. pose proof (reachedWith_reachable t seatings W) as R.
    pose proof (reachedWith_logged t seatings W) as L.
    rewrite Forall_forall in L.
    split; [exact R|]. split; [intros r c H; now apply L|].
    intros r H N.
    assert (C : completed_at r = None).
    { destruct (completed_at r) as [c|] eqn:E; [|reflexivity].
      exfalso. apply (N c). now apply L. }
    split; [exact C|]. intros St. now apply (S R r H St).
  - apply reachable_reachedWith.
  - intros clock uuid params row. apply createWorkOrder_open.
  - intros clock uuid body row. apply postWorkOrders_open.
  - intros clock i newStatus notes.
    apply updateWorkOrderStatus_keeps_completedAt.
  - intros clock i newStatus notes N. unfold patchStatus.
    destruct newStatus as [s|]; cbn [truthyS]; [|reflexivity].
    destruct (JsString.truthy s); [|reflexivity].
    assert (N' : s <> seated) by congruence.
    pose proof (updateWorkOrderStatus_keeps_completedAt t clock i s notes N')
      as U.
    destruct (updateWorkOrderStatus t clock i s notes) as [res t'].
    cbn [snd] in U. destruct (error res); [exact U|].
    destruct (data res); exact U.
Qed.

Lemma seatedOrder_reachable : reachable seatedOrder.
Proof.
  exact (reach_patch oneOrder 2000 "wo-1" (Some "seated") None
           (reach_post [] 1000 "wo-1" (crownRequest 77 "D2740") reach_empty)).
Qed.

(** The sample order: before it is seated it has no completion time,
    after it is seated it has one, and when it is then set back to
    [pending] the completion time stays. *)
Lemma seated_has_completedAt_witness :
  (exists r, In r seatedOrder /\ status r = seated /\ completed_at r <> None) /\
  (forall r, In r oneOrder -> completed_at r = None /\ status r <> seated) /\
  List.map completed_at reopenedOrder = List.map completed_at seatedOrder.
Proof.
  split; [|split].
  - destruct seatedOrder as [|r l] eqn:E; [discriminate E|].
    exists r. split; [now left|].
    assert (S : status r = seated) by (injection E as <- _; reflexivity).
    split; [exact S|].
    apply (proj1 (seated_has_completedAt (r :: l))); [|now left|exact S].
    rewrite <- E. exact seatedOrder_reachable.
  - intros r H.
    apply (proj1 (proj2 (seated_has_completedAt oneOrder)) []);
      [|exact H|intros c []].
    exact (with_post [] [] 1000 "wo-1" (crownRequest 77 "D2740") with_empty).
  - apply (proj2 (proj2 (proj2 (proj2 (proj2 (proj2
             (seated_has_completedAt seatedOrder))))))
             3000 "wo-1" (Some "pending") None).
    discriminate.
Defined.

(** C2 as stated fails in both directions.  The sample order, created
    through the route, seated at time 2000 and then set back to [pending],
    is a reachable record with a completion time whose status is not
    [seated]; and [createWorkOrder] with the initial status [seated]
    stores a seated record without a completion time. *)
Lemma completedAt_outlives_seated :
  (reachable reopenedOrder /\
   exists r, In r reopenedOrder /\
             completed_at r = Some 2000 /\ status r = pending /\
             status r <> seated) /\
  (exists r, data (fst (createWorkOrder [] 1000 "wo-9" seatedFromTheStart))
             = Some r /\
             status r = seated /\ completed_at r = None).
Proof.
  split; [split|].
  - exact (reach_patch seatedOrder 3000 "wo-1" (Some "pending") None
                       seatedOrder_reachable).
  - eexists. split; [left; reflexivity|].
    split; [reflexivity|]. split; [reflexivity | discriminate].
  - eexists. split; [reflexivity|]. split; reflexivity.
Qed.

End CompletionFacts.

(** ** Duplicate prevention *)

Section DuplicateFacts.
Import CrownTypes Supabase WorkOrderQueries Routes.

Lemma insertDesc_length (r : CrownWorkOrderRecord) (l : Table) :
  List.length (insertDesc r l) = S (List.length l).
Proof.
  induction l as [|x l IH]; [reflexivity|].
  simpl. destruct (created_at x <? created_at r); simpl; [reflexivity|].
  now rewrite IH.
Qed.

Lemma orderByCreatedDesc_length (t : Table) :
  List.length (orderByCreatedDesc t) = List.length t.
Proof.
  induction t as [|x t IH]; [reflexivity|].
  simpl. now rewrite insertDesc_length, IH.
Qed.

(** The duplicate check finds a work order for the procedure as soon as
    some row of the table refers to it. *)
Lemma workOrderExistsForProcedure_true (t : Table) (procId : Z)
      (r : CrownWorkOrderRecord) :
  In r t -> opendental_procedure_id r = procId ->
  workOrderExistsForProcedure t procId = true.
Proof.
  intros H E. unfold workOrderExistsForProcedure, getWorkOrderByProcedureId.
  assert (F : In r (filter (fun x => opendental_procedure_id x =? procId) t)).
  { apply filter_In. split; [exact H|]. apply Z.eqb_eq. exact E. }
  pose proof (orderByCreatedDesc_length
                (filter (fun x => opendental_procedure_id x =? procId) t)) as L.
  destruct (filter (fun x => opendental_procedure_id x =? procId) t) as [|y l];
    [destruct F|].
  destruct (orderByCreatedDesc (y :: l)) as [|z l']; [discriminate L|].
  reflexivity.
Qed.





End DuplicateFacts.

(** ** Statistics *)

Section StatsFacts.
Import CrownTypes Supabase WorkOrderQueries Routes.

Lemma listWorkOrders_all (t : Table) (n : nat) :
  listWorkOrders t noFilters n
  = limit n (orderByCreatedDesc (filter isInternal t)).
Proof. reflexivity. Qed.

Lemma countIf_cons (p : CrownWorkOrderRecord -> bool)
      (x : CrownWorkOrderRecord) (l : list CrownWorkOrderRecord) :
  countIf p (x :: l) = (Nat.b2n (p x) + countIf p l)%nat.
Proof. unfold countIf. simpl. destruct (p x); reflexivity. Qed.

(** A status falls in exactly one of: pending, in progress, ready,
    seated, none of these. *)
Lemma one_bucket (wo : CrownWorkOrderRecord) :
  (Nat.b2n (String.eqb (status wo) pending)
   + Nat.b2n (JsString.arrayIncludes inProgressStatuses (status wo))
   + Nat.b2n (String.eqb (status wo) ready)
   + Nat.b2n (String.eqb (status wo) seated)
   + Nat.b2n (unbucketed wo) = 1)%nat.
Proof.
  unfold unbucketed. generalize (status wo). intros s.
  destruct (String.eqb s pending) eqn:E1.
  { apply String.eqb_eq in E1. now subst s. }
  destruct (JsString.arrayIncludes inProgressStatuses s) eqn:E2.
  { apply arrayIncludes_In in E2. simpl in E2.
    repeat (destruct E2 as [E2 | E2]; [now subst s|]). destruct E2. }
  destruct (String.eqb s ready) eqn:E3.
  { apply String.eqb_eq in E3. now subst s. }
  destruct (String.eqb s seated); reflexivity.
Qed.

Lemma buckets_partition (l : list CrownWorkOrderRecord) :
  (List.length l
   = countIf (fun wo => String.eqb (status wo) pending) l
     + countIf (fun wo => JsString.arrayIncludes inProgressStatuses (status wo)) l
     + countIf (fun wo => String.eqb (status wo) ready) l
     + countIf (fun wo => String.eqb (status wo) seated) l
     + countIf unbucketed l)%nat.
Proof.
  induction l as [|x l IH]; [reflexivity|].
  rewrite !countIf_cons. pose proof (one_bucket x). simpl List.length. lia.
Qed.

(** C6, as amended.  [getWorkOrderStats] recomputes from the table on each
    call, over the rows [listWorkOrders({}, 1000)] returns: the internal
    rows (no [lab_id]), newest first, at most 1000 of them.  [total] is
    the number of those rows, the smaller of 1000 and the number of
    internal rows; [pending], [inProgress], [ready] and [completed] count
    among them the rows with status [pending], a status in {scanned,
    designed, milling, sintering, finishing, qc}, [ready] and [seated]; no
    row is counted in two buckets, and [total] is the sum of the four
    buckets and the rows in none of them. *)
Theorem getWorkOrderStats_counts (t : Table) :
  let all := listWorkOrders t noFilters 1000 in
  let stats := getWorkOrderStats t in
  total stats = List.length all /\
  total stats = Nat.min 1000 (countIf isInternal t) /\
  statPending stats = countIf (fun wo => String.eqb (status wo) pending) all /\
  inProgress stats
  = countIf (fun wo => JsString.arrayIncludes
                         [scanned; designed; milling; sintering; finishing; qc]
                         (status wo)) all /\
  statReady stats = countIf (fun wo => String.eqb (status wo) ready) all /\
  completed stats = countIf (fun wo => String.eqb (status wo) seated) all /\
  (forall wo,
      Nat.b2n (String.eqb (status wo) pending)
      + Nat.b2n (JsString.arrayIncludes inProgressStatuses (status wo))
      + Nat.b2n (String.eqb (status wo) ready)
      + Nat.b2n (String.eqb (status wo) seated) <= 1)%nat /\
  (total stats
   = statPending stats + inProgress stats + statReady stats + completed stats
     + countIf unbucketed all)%nat.
Proof.
  intros all stats. subst stats. unfold getWorkOrderStats. fold all.
  cbn [total statPending inProgress statReady completed].
  split; [reflexivity|]. split.
  { subst all. rewrite listWorkOrders_all. unfold limit, countIf.
    now rewrite length_firstn, orderByCreatedDesc_length. }
  split; [reflexivity|]. split; [reflexivity|]. split; [reflexivity|].
  split; [reflexivity|]. split.
  - intros wo. pose proof (one_bucket wo). lia.
  - apply buckets_partition.
Qed.

(** C6 as stated fails: with 1001 work orders in the table, all of them
    internal and pending, [total] is 1000; and a lab slip of an outside
    lab in the table is not counted at all. *)
Lemma stats_capped_at_1000 :
  (List.length (manyOrders 1001) = 1001%nat /\
   countIf isInternal (manyOrders 1001) = 1001%nat /\
   total (getStats (manyOrders 1001)) = 1000%nat /\
   statPending (getStats (manyOrders 1001)) = 1000%nat) /\
  (List.length (outsideSlip :: oneOrder) = 2%nat /\
   total (getStats (outsideSlip :: oneOrder)) = 1%nat).
Proof. vm_compute. repeat split. Qed.

End StatsFacts.

(** ** The command interpreter *)

Section FloatFacts.



End FloatFacts.

Section InterpreterFacts.
Import Supabase WorkOrderQueries AICommands.

Variable JSON_parse : string -> option JsValue.
Variable toText : JsValue -> string.
Variable StringToNumber : string -> float.
Variable limitOf : JsValue -> nat.

(** Each way of failing in the parse stage is a [throw] in the [try]
    block of [parseCommand]. *)
Lemma parseStageFails_throws (userInput : string) (reply : ClaudeReply) :
  parseStageFails JSON_parse reply ->
  exists e, parseCommandTry JSON_parse userInput reply = Js.Throw e.
Proof.
  intros F. destruct F as [m| |ty rest|response rest N|response rest N];
    unfold parseCommandTry; cbn [firstText Js.bind]; try (eexists; reflexivity).
  - unfold parseJson. rewrite N. eexists. reflexivity.
  - unfold parseJson. rewrite N. eexists. reflexivity.
Qed.

(** C7.  When the reply of the language model is not parseable JSON, and
    whenever an error is raised in the parse stage (the call of the
    language model raises an error, the reply has no text block in first
    place, the fields of the parsed value cannot be read), [parseCommand]
    returns the parse result with intent [unknown], no parameters and
    confidence 0 for the input: it is a total function, and every [throw]
    of its [try] block ends in its [catch] block. *)
Theorem parseCommand_fails_soft (userInput : string) (reply : ClaudeReply) :
  parseStageFails JSON_parse reply
  \/ (exists e, parseCommandTry JSON_parse userInput reply = Js.Throw e) ->
  parseCommand JSON_parse userInput reply = unknownCommand userInput /\
  intent (parseCommand JSON_parse userInput reply) = JString "unknown" /\
  confidence (parseCommand JSON_parse userInput reply) = JNumber 0.
Proof.
  intros F.
  assert (T : exists e, parseCommandTry JSON_parse userInput reply = Js.Throw e).
  { destruct F as [F | T]; [now apply parseStageFails_throws | exact T]. }
  destruct T as [e T].
  assert (E : parseCommand JSON_parse userInput reply = unknownCommand userInput).
  { unfold parseCommand. now rewrite T. }
  rewrite E. repeat split.
Qed.

(** [executeCommand] is [execute] on the result of [parseCommand]. *)
Lemma executeCommand_execute (w : World) (now : Z) (userInput : string)
      (parsing phrasing : ClaudeReply) :
  executeCommand JSON_parse toText StringToNumber limitOf w now userInput
                 parsing phrasing
  = execute toText StringToNumber limitOf w now
            (parseCommand JSON_parse userInput parsing) phrasing.
Proof. reflexivity. Qed.


End InterpreterFacts.

Section InterpreterSamples.
Import Supabase WorkOrderQueries AICommands.

(** A reply that is prose, a call that is refused, and a reply without
    content. *)
Lemma parseCommand_fails_soft_witness :
  parseCommand sampleParse "mark abc as seated"
               (Message [TextBlock "Sure! I will mark it."])
  = unknownCommand "mark abc as seated" /\
  parseCommand sampleParse "mark abc as seated" (Rejected "overloaded")
  = unknownCommand "mark abc as seated" /\
  confidence (parseCommand sampleParse "mark abc as seated" (Message []))
  = JNumber 0.
Proof.
  split; [|split].
  - apply (parseCommand_fails_soft sampleParse).
    left. apply fails_not_json. reflexivity.
  - apply (parseCommand_fails_soft sampleParse).
    right. eexists. reflexivity.
  - apply (parseCommand_fails_soft sampleParse). left. apply fails_no_content.
Defined.


End InterpreterSamples.

(* ================================================================== *)
(** * Further properties *)
(* ================================================================== *)

Import SpecMore SpecHelpers SpecStore SpecCommands.

(** ** Trimming and case *)

Section TrimFacts.

Lemma toUpperChar_idempotent (c : ascii) :
  JsString.toUpperChar (JsString.toUpperChar c) = JsString.toUpperChar c.
Proof. each_ascii c; reflexivity. Qed.

Lemma toUpperChar_space (c : ascii) :
  JsString.isWhiteSpace (JsString.toUpperChar c) = JsString.isWhiteSpace c.
Proof. each_ascii c; reflexivity. Qed.

Lemma toUpperCase_idempotent (s : string) :
  JsString.toUpperCase (JsString.toUpperCase s) = JsString.toUpperCase s.
Proof.
  unfold JsString.toUpperCase. induction s as [|c s IH]; simpl; [reflexivity|].
  now rewrite toUpperChar_idempotent, IH.
Qed.

Lemma trimStart_upper (s : string) :
  JsString.trimStart (JsString.toUpperCase s)
  = JsString.toUpperCase (JsString.trimStart s).
Proof.
  unfold JsString.toUpperCase. induction s as [|c s IH]; simpl; [reflexivity|].
  rewrite toUpperChar_space. destruct (JsString.isWhiteSpace c);
    [exact IH | reflexivity].
Qed.

Lemma trimEnd_upper (s : string) :
  JsString.trimEnd (JsString.toUpperCase s)
  = JsString.toUpperCase (JsString.trimEnd s).
Proof.
  unfold JsString.toUpperCase. induction s as [|c s IH]; simpl; [reflexivity|].
  rewrite IH, toUpperChar_space.
  destruct (JsString.trimEnd s); simpl;
    [destruct (JsString.isWhiteSpace c); reflexivity | reflexivity].
Qed.

Lemma trimStart_startsClean (s : string) :
  startsClean (JsString.trimStart s) = true.
Proof.
  induction s as [|c s IH]; simpl; [reflexivity|].
  destruct (JsString.isWhiteSpace c) eqn:W; [exact IH|].
  simpl. now rewrite W.
Qed.

Lemma trimStart_clean (s : string) :
  startsClean s = true -> JsString.trimStart s = s.
Proof.
  destruct s as [|c s]; simpl; [reflexivity|].
  destruct (JsString.isWhiteSpace c); [discriminate | reflexivity].
Qed.

Lemma trimEnd_startsClean (s : string) :
  startsClean s = true -> startsClean (JsString.trimEnd s) = true.
Proof.
  destruct s as [|c s]; simpl; [reflexivity|].
  destruct (JsString.isWhiteSpace c) eqn:W; [discriminate|]. intros _.
  destruct (JsString.trimEnd s); simpl; now rewrite W.
Qed.

Lemma trimEnd_idempotent (s : string) :
  JsString.trimEnd (JsString.trimEnd s) = JsString.trimEnd s.
Proof.
  induction s as [|c s IH]; simpl; [reflexivity|].
  destruct (JsString.trimEnd s) as [|d r] eqn:E.
  - destruct (JsString.isWhiteSpace c) eqn:W; simpl; [reflexivity|].
    now rewrite W.
  - cbn [JsString.trimEnd]. fold JsString.trimEnd.
    change (match JsString.trimEnd (String d r) with
            | EmptyString =>
                if JsString.isWhiteSpace c then EmptyString
                else String c EmptyString
            | String a t => String c (String a t)
            end = String c (String d r)).
    now rewrite IH.
Qed.

(** [trim] leaves nothing to trim. *)
Lemma trim_startsClean (s : string) :
  JsString.trimStart (JsString.trim s) = JsString.trim s.
Proof.
  unfold JsString.trim. apply trimStart_clean, trimEnd_startsClean,
                          trimStart_startsClean.
Qed.

Lemma trim_idempotent (s : string) :
  JsString.trim (JsString.trim s) = JsString.trim s.
Proof.
  unfold JsString.trim at 1. rewrite trim_startsClean.
  unfold JsString.trim. apply trimEnd_idempotent.
Qed.

Lemma trim_upper (s : string) :
  JsString.trim (JsString.toUpperCase s)
  = JsString.toUpperCase (JsString.trim s).
Proof. unfold JsString.trim. now rewrite trimStart_upper, trimEnd_upper. Qed.

Lemma normalize_idempotent (s : string) :
  normalize (normalize s) = normalize s.
Proof.
  unfold normalize. now rewrite trim_upper, trim_idempotent,
                       toUpperCase_idempotent.
Qed.

End TrimFacts.

(** ** The detection service *)

Section ServiceFacts.
Import CrownTypes CrownDetection CrownService.

Lemma toUpper_toLower (c : ascii) :
  JsString.toUpperChar (JsString.toLowerChar c) = JsString.toUpperChar c.
Proof. each_ascii c; reflexivity. Qed.

Lemma toLowerChar_space (c : ascii) :
  JsString.isWhiteSpace (JsString.toLowerChar c) = JsString.isWhiteSpace c.
Proof. each_ascii c; reflexivity. Qed.

Lemma toUpperCase_toLowerCase (s : string) :
  JsString.toUpperCase (JsString.toLowerCase s) = JsString.toUpperCase s.
Proof.
  unfold JsString.toUpperCase, JsString.toLowerCase.
  induction s as [|c s IH]; simpl; [reflexivity|].
  now rewrite toUpper_toLower, IH.
Qed.

Lemma normalize_upper (s : string) :
  normalize (JsString.toUpperCase s) = normalize s.
Proof.
  unfold normalize. now rewrite trim_upper, toUpperCase_idempotent.
Qed.

Lemma normalize_lower (s : string) :
  normalize (JsString.toLowerCase s) = normalize s.
Proof.
  rewrite <- (normalize_upper (JsString.toLowerCase s)).
  rewrite toUpperCase_toLowerCase. apply normalize_upper.
Qed.

Lemma normalize_trim (s : string) :
  normalize (JsString.trim s) = normalize s.
Proof. unfold normalize. now rewrite trim_idempotent. Qed.

(** The classification depends on the normalized code only. *)
Lemma same_normalized (config : ProcedureDetectionConfig) (a b : string) :
  normalize a = normalize b ->
  sameClassification (detectCrownProcedure config a)
                     (detectCrownProcedure config b).
Proof.
  intros E. unfold sameClassification, detectCrownProcedure.
  fold (normalize a). fold (normalize b). rewrite E.
  destruct (JsString.arrayIncludes (monitoredCodes config) (normalize b)
            && isCrownProcedure (normalize b))%bool; repeat split.
Qed.

(** X1.  The classifier is insensitive to case and to surrounding white
    space: a code, its trimmed form, its upper-case and lower-case forms
    and its normalized form are classified alike; and so is the code the
    classifier reports back for a crown ([procedureCode]) when it is
    classified again. *)
Theorem detectCrownProcedure_insensitive
        (config : ProcedureDetectionConfig) (code : string) :
  sameClassification (detectCrownProcedure config (JsString.trim code))
                     (detectCrownProcedure config code) /\
  sameClassification (detectCrownProcedure config (JsString.toUpperCase code))
                     (detectCrownProcedure config code) /\
  sameClassification (detectCrownProcedure config (JsString.toLowerCase code))
                     (detectCrownProcedure config code) /\
  (forall reported,
      procedureCode (detectCrownProcedure config code) = Some reported ->
      sameClassification (detectCrownProcedure config reported)
                         (detectCrownProcedure config code)).
Proof.
  split; [|split; [|split]].
  - apply same_normalized, normalize_trim.
  - apply same_normalized, normalize_upper.
  - apply same_normalized, normalize_lower.
  - intros reported R. apply same_normalized.
    unfold detectCrownProcedure in R. fold (normalize code) in R.
    destruct (JsString.arrayIncludes (monitoredCodes config) (normalize code)
              && isCrownProcedure (normalize code))%bool;
      [|discriminate R].
    cbn in R. injection R as <-. apply normalize_idempotent.
Qed.

Lemma detected_iff (config : ProcedureDetectionConfig) (code : string) :
  detected config code = true
  <-> In (normalize code) knownCrownCodes
      /\ In (normalize code) (monitoredCodes config).
Proof.
  unfold detected, detectCrownProcedure. fold (normalize code).
  destruct (JsString.arrayIncludes (monitoredCodes config) (normalize code))
    eqn:M; destruct (isCrownProcedure (normalize code)) eqn:K; cbn.
  - apply arrayIncludes_In in M. apply isCrownProcedure_normalize in K. tauto.
  - split; [discriminate|]. intros [H _].
    apply isCrownProcedure_normalize in H. congruence.
  - split; [discriminate|]. intros [_ H].
    apply arrayIncludes_In in H. congruence.
  - split; [discriminate|]. intros [_ H].
    apply arrayIncludes_In in H. congruence.
Qed.

Lemma filter_map_pairs (config : ProcedureDetectionConfig)
      (procedures : list ProcedureRef) :
  detectCrownProcedures config procedures
  = List.map (fun proc => (refId proc,
                           detectCrownProcedure config (refCode proc)))
             (filter (fun proc => detected config (refCode proc)) procedures).
Proof.
  unfold detectCrownProcedures, detected.
  induction procedures as [|p ps IH]; [reflexivity|].
  cbn [List.map filter snd].
  destruct (isCrown (detectCrownProcedure config (refCode p)));
    cbn [List.map]; now rewrite IH.
Qed.

(** X2.  The batch detection returns, in the order of the input, exactly
    the procedures whose code is detected, each with its own id and its
    detection result; nothing else is returned, and no procedure that is
    detected is dropped. *)
Theorem detectCrownProcedures_selects
        (config : ProcedureDetectionConfig) (procedures : list ProcedureRef) :
  List.map fst (detectCrownProcedures config procedures)
  = List.map refId (filter (fun proc => detected config (refCode proc)) procedures)
  /\
  (forall i detection,
      In (i, detection) (detectCrownProcedures config procedures) <->
      exists proc, In proc procedures /\ refId proc = i /\
                   detection = detectCrownProcedure config (refCode proc) /\
                   In (normalize (refCode proc)) knownCrownCodes /\
                   In (normalize (refCode proc)) (monitoredCodes config)).
Proof.
  rewrite filter_map_pairs. split.
  - rewrite map_map. reflexivity.
  - intros i detection. rewrite in_map_iff. split.
    + intros [proc [E H]]. apply filter_In in H. destruct H as [H D].
      injection E as <- <-. apply detected_iff in D.
      exists proc. tauto.
    + intros [proc [H [<- [-> [K M]]]]]. exists proc. split; [reflexivity|].
      apply filter_In. split; [exact H|]. apply detected_iff. tauto.
Qed.

(** X3.  A work order is created automatically exactly for a detected
    crown code, under a configuration with [autoCreateWorkOrder], when the
    procedure status is [C] or [EC], spelled so. *)
Theorem shouldAutoCreateWorkOrder_iff
        (config : ProcedureDetectionConfig) (code procedureStatus : string) :
  shouldAutoCreateWorkOrder config code procedureStatus = true
  <-> In (normalize code) knownCrownCodes
      /\ In (normalize code) (monitoredCodes config)
      /\ autoCreateWorkOrder config = true
      /\ (procedureStatus = "C" \/ procedureStatus = "EC").
Proof.
  unfold shouldAutoCreateWorkOrder. fold (detected config code).
  pose proof (detected_iff config code) as D.
  destruct (detected config code); cbn [negb].
  - destruct (autoCreateWorkOrder config); cbn [negb].
    + rewrite arrayIncludes_In. cbn [autoCreateStatuses In].
      split.
      * intros [H | [H | []]]; (split; [apply D; reflexivity|]);
          (split; [apply D; reflexivity|]); (split; [reflexivity|]); auto.
      * intros [_ [_ [_ [H | H]]]]; auto.
    + split; [discriminate|]. intros [_ [_ [H _]]]. discriminate H.
  - split; [discriminate|]. intros [K [M _]].
    assert (false = true) by (apply D; tauto). discriminate.
Qed.

End ServiceFacts.

(** ** Validation *)

Section ValidationFacts.
Import CrownTypes CrownDetection CrownService.

Lemma pushIf_length (violated : bool) (message : string) (l : list string) :
  List.length (pushIf violated message l)
  = (List.length l + Nat.b2n violated)%nat.
Proof.
  destruct violated; simpl; [|lia]. rewrite length_app. reflexivity.
Qed.

Lemma codeError_length (c : option string) :
  List.length (codeError c)
  = Nat.b2n (negb (setS c && match c with
                             | Some c => isCrownProcedure c
                             | None => false
                             end)).
Proof.
  destruct c as [c|]; simpl; [|reflexivity].
  destruct (JsString.truthy c); simpl; [|reflexivity].
  destruct (isCrownProcedure c); reflexivity.
Qed.

Lemma errors_length (procedure : PartialProcedure) (patient : PartialPatient) :
  List.length (errors (validateProcedureData procedure patient))
  = violations procedure patient.
Proof.
  unfold validateProcedureData, violations. cbn [errors].
  rewrite !pushIf_length, codeError_length. reflexivity.
Qed.

Lemma known_is_normal (c : string) :
  In c knownCrownCodes -> normalize c = c.
Proof.
  intros H. simpl in H.
  repeat (destruct H as [H | H]; [subst c; reflexivity|]). destruct H.
Qed.

Lemma six_zero (a b c d e f : bool) :
  (Nat.b2n a + Nat.b2n b + Nat.b2n c + Nat.b2n d + Nat.b2n e + Nat.b2n f
   = 0)%nat ->
  a = false /\ b = false /\ c = false /\ d = false /\ e = false /\ f = false.
Proof. destruct a, b, c, d, e, f; cbn; intros H; try discriminate H; tauto. Qed.

(** X4.  [validateProcedureData] reports every violated check, one
    message each, and is valid exactly when none is violated.  A valid
    procedure has a code that [isCrownProcedure] accepts as it is written
    (no trimming, no change of case): one of the four crown codes, which
    the default classifier then detects, or a name that every object
    inherits. *)
Theorem validateProcedureData_accumulates
        (procedure : PartialProcedure) (patient : PartialPatient) :
  let v := validateProcedureData procedure patient in
  List.length (errors v) = violations procedure patient /\
  (isValid v = true <-> errors v = []) /\
  (isValid v = true <-> violations procedure patient = 0%nat) /\
  (isValid v = true ->
   exists c, vCode procedure = Some c /\
             (In c knownCrownCodes \/ In c Object_prototype_keys) /\
             (In c knownCrownCodes ->
              detected DEFAULT_DETECTION_CONFIG c = true) /\
             setS (vToothNumber procedure) = true /\
             setZ (vId procedure) = true /\
             setZ (ptId patient) = true /\
             (setS (ptName patient) = true
              \/ setS (ptFirstName patient) = true
                 /\ setS (ptLastName patient) = true) /\
             setDate (ptDateOfBirth patient) = true).
Proof.
  intros v. pose proof (errors_length procedure patient) as L. fold v in L.
  assert (V : isValid v = true <-> violations procedure patient = 0%nat).
  { subst v. unfold validateProcedureData in *. cbn [isValid errors] in *.
    rewrite Nat.eqb_eq, L. reflexivity. }
  split; [exact L|]. split; [|split; [exact V|]].
  - rewrite V, <- L. split.
    + intros H. now apply length_zero_iff_nil.
    + intros ->. reflexivity.
  - intros H. apply V in H. unfold violations in H.
    apply six_zero in H.
    destruct H as [H1 [H2 [H3 [H4 [H5 H6]]]]].
    apply negb_false_iff in H1, H2, H3, H4, H6.
    apply andb_true_iff in H1. destruct H1 as [S1 K].
    destruct (vCode procedure) as [c|] eqn:C; [|discriminate S1].
    exists c. split; [reflexivity|].
    split; [|split; [|split; [|split; [|split; [|split]]]]]; try assumption.
    + unfold isCrownProcedure, js_in in K. apply orb_true_iff in K.
      destruct K as [K | K]; apply arrayIncludes_In in K; auto.
    + intros Kn. apply detected_iff. rewrite (known_is_normal c Kn).
      split; [exact Kn | exact Kn].
    + destruct (setS (ptName patient)); [now left|]. right.
      destruct (setS (ptFirstName patient)), (setS (ptLastName patient));
        try discriminate H5. split; reflexivity.
Qed.

End ValidationFacts.

(** ** Priority, continued *)

Section PriorityMore.
Import CrownTypes CrownDetection.

Lemma ceilDays_monotone (a b : Z) : a <= b -> ceilDays a <= ceilDays b.
Proof.
  intros H. apply ceilDays_le.
  assert (B : b <= ceilDays b * msPerDay) by (apply ceilDays_le; lia).
  lia.
Qed.

(** X5.  With [routine] as the configured default, a later appointment
    never makes a work order more urgent: for the same notes and the same
    clock, the priority for an appointment at [t2] is at most the priority
    for an earlier appointment at [t1]. *)
Theorem determinePriority_monotone
        (config : ProcedureDetectionConfig) (now : Z) (procedureDate : JsDate)
        (notes : option string) (t1 t2 : Z) :
  defaultPriority config = routine ->
  t1 <= t2 ->
  rank (determinePriority config now procedureDate (Some (Some t2)) notes)
  <= rank (determinePriority config now procedureDate (Some (Some t1)) notes).
Proof.
  intros D H. rewrite !determinePriority_unfold, D.
  destruct (keywordScan notes); [reflexivity|].
  pose proof (ceilDays_monotone (t1 - now) (t2 - now) ltac:(lia)) as M.
  destruct (ceilDays (t1 - now) <=? 1) eqn:A1;
    destruct (ceilDays (t2 - now) <=? 1) eqn:A2;
    destruct (ceilDays (t1 - now) <=? 3) eqn:U1;
    destruct (ceilDays (t2 - now) <=? 3) eqn:U2;
    cbn; try lia;
    repeat match goal with
           | H : (_ <=? _) = true |- _ => apply Z.leb_le in H
           | H : (_ <=? _) = false |- _ => apply Z.leb_gt in H
           end; lia.
Qed.

(** An appointment in two days and one in a week, with no notes. *)
Lemma determinePriority_monotone_witness :
  rank (determinePriority DEFAULT_DETECTION_CONFIG 0 None
                          (Some (Some (7 * msPerDay))) None)
  <= rank (determinePriority DEFAULT_DETECTION_CONFIG 0 None
                             (Some (Some (2 * msPerDay))) None).
Proof.
  apply (determinePriority_monotone DEFAULT_DETECTION_CONFIG 0 None None
                                    (2 * msPerDay) (7 * msPerDay)).
  - reflexivity.
  - vm_compute. discriminate.
Defined.

End PriorityMore.

(** ** Shade extraction, continued *)

Section CaptureFacts.
Import Regex.
Context {A : Type}.

(** A repetition hands the capture on as it found it. *)
Lemma repeat_greedy_cap (p : ascii -> bool) (fuel lo : nat)
      (prev : option ascii) (s : string) (cap : option string)
      (k : @cont A) (res : A) :
  repeat_greedy p lo fuel prev s cap k = Some res ->
  exists prev' s', k prev' s' cap = Some res.
Proof.
  revert lo prev s. induction fuel as [|fuel IH]; intros lo prev s H.
  - simpl in H. destruct lo; [eauto | discriminate H].
  - simpl in H. destruct s as [|c s].
    + destruct lo; [eauto | discriminate H].
    + destruct (p c).
      * destruct (repeat_greedy p (pred lo) fuel (Some c) s cap k) eqn:E.
        -- injection H as <-. now apply IH in E.
        -- destruct lo; [eauto | discriminate H].
      * destruct lo; [eauto | discriminate H].
Qed.

(** So does every pattern without a group. *)
Lemma rmatch_cap (r : regex) :
  groupFree r = true ->
  forall (prev : option ascii) (s : string) (cap : option string)
         (k : @cont A) (res : A),
    rmatch r prev s cap k = Some res ->
    exists prev' s', k prev' s' cap = Some res.
Proof.
  induction r as [|p|r1 IH1 r2 IH2|p lo hi|r1 IH1| | |];
    intros G prev s cap k res H; simpl in H.
  - eauto.
  - destruct s as [|c s]; [discriminate H|].
    destruct (p c); [eauto | discriminate H].
  - simpl in G. apply andb_true_iff in G. destruct G as [G1 G2].
    apply (IH1 G1) in H. destruct H as [prev' [s' H]].
    now apply (IH2 G2) in H.
  - now apply repeat_greedy_cap in H.
  - discriminate G.
  - destruct (xorb _ _); [eauto | discriminate H].
  - destruct prev; [discriminate H | eauto].
  - destruct s; [eauto | discriminate H].
Qed.

Lemma consumed_two (a b : ascii) (s : string) :
  consumed (String a (String b s)) s = String a (String b EmptyString).
Proof.
  unfold consumed.
  change (String.length (String a (String b s)))
    with (S (S (String.length s))).
  replace (S (S (String.length s)) - String.length s)%nat with 2%nat by lia.
  destruct s; reflexivity.
Qed.

Lemma consumed_three (a b c : ascii) (s : string) :
  consumed (String a (String b (String c s))) s
  = String a (String b (String c EmptyString)).
Proof.
  unfold consumed.
  change (String.length (String a (String b (String c s))))
    with (S (S (S (String.length s)))).
  replace (S (S (S (String.length s))) - String.length s)%nat
    with 3%nat by lia.
  destruct s; reflexivity.
Qed.

(** One or two digits, the longer run first. *)
Lemma digits12_cap (prev : option ascii) (s : string) (cap : option string)
      (k : @cont A) (res : A) :
  repeat_greedy JsString.isDigit 1 2 prev s cap k = Some res ->
  exists d1 s2,
    s = String d1 s2 /\ JsString.isDigit d1 = true /\
    (k (Some d1) s2 cap = Some res
     \/ exists d2 s3, s2 = String d2 s3 /\ JsString.isDigit d2 = true /\
                      k (Some d2) s3 cap = Some res).
Proof.
  intros H. destruct s as [|d1 s2]; [discriminate H|].
  cbn [repeat_greedy pred] in H.
  destruct (JsString.isDigit d1) eqn:D1; [|discriminate H].
  exists d1, s2. split; [reflexivity|]. split; [exact D1|].
  destruct s2 as [|d2 s3].
  - left. destruct (k (Some d1) EmptyString cap); [exact H | discriminate H].
  - destruct (JsString.isDigit d2) eqn:D2.
    + destruct (k (Some d2) s3 cap) eqn:Long.
      * right. exists d2, s3. injection H as <-. auto.
      * left. destruct (k (Some d1) (String d2 s3) cap);
          [exact H | discriminate H].
    + left. destruct (k (Some d1) (String d2 s3) cap);
        [exact H | discriminate H].
Qed.

(** The shade group hands on a letter and one or two digits. *)
Lemma shadeGroup_cap (ci : bool) (prev : option ascii) (s : string)
      (cap : option string) (k : @cont A) (res : A) :
  rmatch (shadeGroup ci) prev s cap k = Some res ->
  exists prev' s' w, shaped ci w /\ k prev' s' (Some w) = Some res.
Proof.
  intros H. unfold shadeGroup in H. cbn [rmatch] in H.
  destruct s as [|c s1]; [discriminate H|].
  destruct (cls_AD ci c) eqn:C; [|discriminate H].
  apply digits12_cap in H.
  destruct H as [d1 [s2 [-> [D1 [K | [d2 [s3 [-> [D2 K]]]]]]]]].
  - rewrite consumed_two in K.
    exists (Some d1), s2, (String c (String d1 EmptyString)).
    split; [|exact K]. exists c, d1. auto.
  - rewrite consumed_three in K.
    exists (Some d2), s3, (String c (String d1 (String d2 EmptyString))).
    split; [|exact K]. exists c, d1. split; [exact C|].
    split; [exact D1|]. right. exists d2. auto.
Qed.

Lemma capturesShade_cap (r : regex) :
  capturesShade r ->
  forall (prev : option ascii) (s : string) (cap : option string)
         (k : @cont A) (res : A),
    rmatch r prev s cap k = Some res ->
    exists ci prev' s' w, shaped ci w /\ k prev' s' (Some w) = Some res.
Proof.
  induction 1 as [ci rest G|first rest G _ IH]; intros prev s cap k res H.
  - change (rmatch (shadeGroup ci) prev s cap
                   (fun prev' s' cap' => rmatch rest prev' s' cap' k)
            = Some res) in H.
    apply shadeGroup_cap in H. destruct H as [prev' [s' [w [W H]]]].
    apply (rmatch_cap rest G) in H. destruct H as [prev'' [s'' H]].
    exists ci, prev'', s'', w. auto.
  - change (rmatch first prev s cap
                   (fun prev' s' cap' => rmatch rest prev' s' cap' k)
            = Some res) in H.
    apply (rmatch_cap first G) in H. destruct H as [prev' [s' H]].
    now apply IH in H.
Qed.

End CaptureFacts.

Section ShadeShape.
Import CrownDetection Regex.

Lemma execFrom_cap (r : regex) (s : string) :
  capturesShade r ->
  forall prev cap,
    execFrom r prev s = Some cap -> exists ci w, shaped ci w /\ cap = Some w.
Proof.
  intros C. induction s as [|c s IH]; intros prev cap H;
    cbn [execFrom] in H; unfold matchHere in H.
  - destruct (rmatch r prev EmptyString None (fun _ _ cap0 => Some cap0))
      eqn:M; [|discriminate H].
    injection H as <-. apply (capturesShade_cap r C) in M.
    destruct M as [ci [_ [_ [w [W E]]]]]. injection E as <-. eauto.
  - destruct (rmatch r prev (String c s) None (fun _ _ cap0 => Some cap0))
      eqn:M.
    + injection H as <-. apply (capturesShade_cap r C) in M.
      destruct M as [ci [_ [_ [w [W E]]]]]. injection E as <-. eauto.
    + now apply IH in H.
Qed.

Lemma lit_groupFree (ci : bool) (s : string) : groupFree (lit ci s) = true.
Proof. induction s as [|c s IH]; [reflexivity | exact IH]. Qed.

Lemma shadePatterns_capture (pattern : regex) :
  In pattern shadePatterns -> capturesShade pattern.
Proof.
  intros H. simpl in H. destruct H as [<- | [<- | [<- | [<- | []]]]].
  - apply captures_later; [apply lit_groupFree|].
    apply captures_later; [reflexivity|]. now apply captures_here.
  - apply captures_here. cbn [seq groupFree]. now rewrite lit_groupFree.
  - apply captures_later; [apply lit_groupFree|].
    apply captures_later; [reflexivity|]. now apply captures_here.
  - apply captures_later; [reflexivity|]. now apply captures_here.
Qed.

Lemma digit_upper (d : ascii) :
  JsString.isDigit d = true -> JsString.toUpperChar d = d.
Proof. each_ascii d; intros H; try discriminate H; reflexivity. Qed.

Lemma letter_upper (ci : bool) (c : ascii) :
  cls_AD ci c = true -> JsString.inRange 65 68 (JsString.toUpperChar c) = true.
Proof. intros H. apply cls_AD_any in H. exact H. Qed.

Lemma shaped_upper (ci : bool) (w : string) :
  shaped ci w -> wellFormedShade (JsString.toUpperCase w) = true.
Proof.
  intros [c [d1 [C [D1 [-> | [d2 [D2 ->]]]]]]]; cbn.
  - now rewrite (letter_upper ci c C), (digit_upper d1 D1), D1.
  - now rewrite (letter_upper ci c C), (digit_upper d1 D1),
      (digit_upper d2 D2), D1, D2.
Qed.

Lemma shadeOf_wellFormed (notes : string) (pattern : regex) (shade : string) :
  In pattern shadePatterns ->
  shadeOf notes pattern = Some shade ->
  wellFormedShade shade = true.
Proof.
  intros P H. unfold shadeOf, js_match in H.
  destruct (execFrom pattern None notes) as [[m1|]|] eqn:E; try discriminate H.
  destruct (JsString.truthy m1); [|discriminate H]. injection H as <-.
  apply (execFrom_cap pattern notes (shadePatterns_capture pattern P)) in E.
  destruct E as [ci [w [W E]]]. injection E as ->.
  now apply shaped_upper with ci.
Qed.

Lemma firstShade_wellFormed (patterns : list regex) (notes shade : string) :
  (forall p, In p patterns -> In p shadePatterns) ->
  firstShade patterns notes = Some shade ->
  wellFormedShade shade = true.
Proof.
  induction patterns as [|p ps IH]; intros Sub H; [discriminate H|].
  cbn [firstShade] in H. destruct (shadeOf notes p) as [sh|] eqn:E.
  - injection H as <-. apply (shadeOf_wellFormed notes p sh); [|exact E].
    apply Sub. now left.
  - apply IH; [|exact H]. intros q Hq. apply Sub. now right.
Qed.

Lemma extractShade_shape (notes : string) :
  wellFormedShade (extractShade notes) = true.
Proof.
  unfold extractShade.
  destruct (firstShade shadePatterns notes) as [shade|] eqn:E; [|reflexivity].
  apply (firstShade_wellFormed shadePatterns notes shade); [auto | exact E].
Qed.

Lemma letter_cases (c : ascii) :
  JsString.inRange 65 68 c = true -> In c shadeLetters.
Proof. each_ascii c; intros H; try discriminate H; simpl; tauto. Qed.

Lemma digit_cases (d : ascii) :
  JsString.isDigit d = true -> In d digits.
Proof. each_ascii d; intros H; try discriminate H; simpl; tauto. Qed.

(** A well-formed shade, taken as notes, is a bare token: it is its own
    shade. *)
Lemma wellFormed_fixed (w : string) :
  wellFormedShade w = true -> extractShade w = w.
Proof.
  destruct w as [|c [|d1 [|d2 [|e w]]]]; cbn [wellFormedShade];
    try discriminate.
  - intros H. apply andb_true_iff in H. destruct H as [C D1].
    apply letter_cases in C. apply digit_cases in D1.
    unfold shadeLetters in C. unfold digits in D1.
    repeat (destruct C as [<- | C]; [|]); try destruct C;
      repeat (destruct D1 as [<- | D1]; [reflexivity|]); destruct D1.
  - intros H. apply andb_true_iff in H. destruct H as [H D2].
    apply andb_true_iff in H. destruct H as [C D1].
    apply letter_cases in C. apply digit_cases in D1. apply digit_cases in D2.
    unfold shadeLetters in C. unfold digits in D1, D2.
    repeat (destruct C as [<- | C]; [|]); try destruct C;
      repeat (destruct D1 as [<- | D1]; [|]); try destruct D1;
        repeat (destruct D2 as [<- | D2]; [reflexivity|]); destruct D2.
Qed.

(** X6.  Whatever the notes, [extractShade] returns a well-formed shade:
    one of the letters [A] to [D], in upper case, followed by one or two
    digits. *)
Theorem extractShade_wellFormed (notes : string) :
  wellFormedShade (extractShade notes) = true /\
  2 <= Z.of_nat (String.length (extractShade notes)) <= 3.
Proof.
  pose proof (extractShade_shape notes) as W. split; [exact W|].
  destruct (extractShade notes) as [|c [|d1 [|d2 [|e w]]]];
    cbn in W; try discriminate W; cbn; lia.
Qed.

(** X7.  [extractShade] is idempotent: the shade extracted from notes,
    given as notes, is extracted again as it is. *)
Theorem extractShade_idempotent (notes : string) :
  extractShade (extractShade notes) = extractShade notes.
Proof. apply wellFormed_fixed, extractShade_shape. Qed.

End ShadeShape.

Section ToothMore.
Import CrownDetection Regex.
Variable Number_toString : float -> string.

Lemma isPrimaryToothLetter_upper (c : ascii) :
  isPrimaryToothLetter (JsString.toUpperChar c) = isPrimaryToothLetter c.
Proof.
  now rewrite <- !primaryToothLetter_class, toUpperChar_idempotent.
Qed.

(** X8.  [extractToothNumber] returns a trimmed text and is idempotent:
    the tooth number it returns, given again, is returned as it is. *)
Theorem extractToothNumber_idempotent (toothNum : string + float) :
  let result := extractToothNumber Number_toString toothNum in
  JsString.trim result = result /\
  extractToothNumber Number_toString (inl result) = result.
Proof.
  cbv zeta. unfold extractToothNumber. cbn [js_String].
  set (cleaned := JsString.trim (js_String Number_toString toothNum)).
  assert (T : JsString.trim cleaned = cleaned) by apply trim_idempotent.
  destruct (match parseInt cleaned with
            | Some n => ((1 <=? n) && (n <=? 32))%bool
            | None => false
            end) eqn:N.
  - rewrite T, N. split; reflexivity.
  - destruct (js_test primaryToothLetter cleaned) eqn:L.
    + rewrite trim_upper, T, toUpperCase_idempotent.
      split; [reflexivity|].
      rewrite primaryToothLetter_test in L.
      destruct cleaned as [|c [|d s]]; try discriminate L.
      change (JsString.toUpperCase (String c EmptyString))
        with (String (JsString.toUpperChar c) EmptyString).
      rewrite parseInt_letter by (now rewrite isPrimaryToothLetter_upper).
      rewrite primaryToothLetter_test, isPrimaryToothLetter_upper, L.
      reflexivity.
    + rewrite T, N, L. split; reflexivity.
Qed.

End ToothMore.

Section HelperFacts.
Import CrownTypes CrownHelpers SpecHelpers.

(** X9.  [calculateAge] counts the birthdays reached: the [k]-th
    anniversary of the date of birth is today or earlier exactly when [k]
    is at most the age.  (So the age is negative for a date of birth
    after today.) *)
Theorem calculateAge_anniversaries (today dateOfBirth : CalendarDate) (k : Z) :
  onOrBefore (addYears k dateOfBirth) today
  <-> k <= calculateAge today dateOfBirth.
Proof.
  unfold onOrBefore, addYears, calculateAge. cbn [fullYear month date].
  destruct (month today - month dateOfBirth <? 0) eqn:M;
    [apply Z.ltb_lt in M | apply Z.ltb_ge in M]; cbn [orb].
  - lia.
  - destruct (month today - month dateOfBirth =? 0) eqn:M0;
      [apply Z.eqb_eq in M0 | apply Z.eqb_neq in M0]; cbn [andb].
    + destruct (date today <? date dateOfBirth) eqn:D;
        [apply Z.ltb_lt in D | apply Z.ltb_ge in D]; lia.
    + lia.
Qed.

Lemma range_In (lo n z : Z) :
  lo <= z < lo + n -> In z (range lo n).
Proof.
  intros H. unfold range. apply in_map_iff. exists (Z.to_nat (z - lo)).
  split; [lia|]. apply in_seq. lia.
Qed.

Lemma range_checked (p : Z -> bool) (lo n z : Z) :
  forallb p (range lo n) = true -> lo <= z < lo + n -> p z = true.
Proof.
  intros F H. rewrite forallb_forall in F. apply F, range_In, H.
Qed.

Lemma year_field (y : Z) :
  1000 <= y <= 9999 -> denotes 4 y (intToString y) = true.
Proof.
  intros H.
  apply (range_checked (fun y => denotes 4 y (intToString y)) 1000 9000);
    [vm_compute; reflexivity | lia].
Qed.

Lemma month_field (m : Z) :
  0 <= m <= 11 -> denotes 2 (m + 1) (padStart 2 (intToString (m + 1))) = true.
Proof.
  intros H.
  apply (range_checked
           (fun m => denotes 2 (m + 1) (padStart 2 (intToString (m + 1))))
           0 12);
    [vm_compute; reflexivity | lia].
Qed.

Lemma day_field (d : Z) :
  1 <= d <= 31 -> denotes 2 d (padStart 2 (intToString d)) = true.
Proof.
  intros H.
  apply (range_checked
           (fun d => denotes 2 d (padStart 2 (intToString d))) 1 31);
    [vm_compute; reflexivity | lia].
Qed.

Lemma suffix_field (n : Z) :
  0 <= n <= 999 -> denotes 3 n (padStart 3 (intToString n)) = true.
Proof.
  intros H.
  apply (range_checked
           (fun n => denotes 3 n (padStart 3 (intToString n))) 0 1000);
    [vm_compute; reflexivity | lia].
Qed.

Ltac too_long H :=
  unfold denotes, digitField in H;
  cbn [String.length Nat.eqb andb] in H; discriminate H.

(** A work order number laid out field by field. *)
Lemma layout (n : Z) (y m d : Z) (yyyy mm dd nnn : string) :
  denotes 4 y yyyy = true -> denotes 2 m mm = true ->
  denotes 2 d dd = true -> denotes 3 n nnn = true ->
  let number := "CWO-" ++ yyyy ++ mm ++ dd ++ "-" ++ nnn in
  String.length number = 16%nat /\
  substring 0 4 number = "CWO-" /\
  denotes 4 y (substring 4 4 number) = true /\
  denotes 2 m (substring 8 2 number) = true /\
  denotes 2 d (substring 10 2 number) = true /\
  substring 12 1 number = "-" /\
  denotes 3 n (substring 13 3 number) = true.
Proof.
  intros FY FM FD FN.
  destruct yyyy as [|y1 [|y2 [|y3 [|y4 [|y5 yyyy]]]]]; try too_long FY.
  destruct mm as [|m1 [|m2 [|m3 mm]]]; try too_long FM.
  destruct dd as [|d1 [|d2 [|d3 dd]]]; try too_long FD.
  destruct nnn as [|n1 [|n2 [|n3 [|n4 nnn]]]]; try too_long FN.
  cbv zeta. cbn [append String.length substring].
  repeat split; assumption.
Qed.

(** X10.  For a date in the years 1000 to 9999 and a random part from 0
    to 999, the work order number has 16 characters: [CWO-], then the
    year in four digits, the month counted from 1 in two digits, the day
    of the month in two digits, a hyphen, and the random part in three
    digits.  (So the date and the random part can be read back from the
    number.) *)
Theorem generateWorkOrderNumber_format (d : CalendarDate) (suffix : Z) :
  1000 <= fullYear d <= 9999 ->
  0 <= month d <= 11 ->
  1 <= date d <= 31 ->
  0 <= suffix <= 999 ->
  let number := generateWorkOrderNumber d suffix in
  String.length number = 16%nat /\
  substring 0 4 number = "CWO-" /\
  denotes 4 (fullYear d) (substring 4 4 number) = true /\
  denotes 2 (month d + 1) (substring 8 2 number) = true /\
  denotes 2 (date d) (substring 10 2 number) = true /\
  substring 12 1 number = "-" /\
  denotes 3 suffix (substring 13 3 number) = true.
Proof.
  intros Y M D S. unfold generateWorkOrderNumber.
  apply layout; [apply year_field, Y | apply month_field, M
                | apply day_field, D | apply suffix_field, S].
Qed.

Lemma generateWorkOrderNumber_format_witness :
  String.length (generateWorkOrderNumber newYearsEve2025 7) = 16%nat /\
  substring 0 4 (generateWorkOrderNumber newYearsEve2025 7) = "CWO-" /\
  denotes 4 2025 (substring 4 4 (generateWorkOrderNumber newYearsEve2025 7))
  = true /\
  denotes 2 12 (substring 8 2 (generateWorkOrderNumber newYearsEve2025 7))
  = true /\
  denotes 2 31 (substring 10 2 (generateWorkOrderNumber newYearsEve2025 7))
  = true /\
  substring 12 1 (generateWorkOrderNumber newYearsEve2025 7) = "-" /\
  denotes 3 7 (substring 13 3 (generateWorkOrderNumber newYearsEve2025 7))
  = true.
Proof.
  apply (generateWorkOrderNumber_format newYearsEve2025 7);
    cbn [newYearsEve2025 fullYear month date]; lia.
Defined.

(** X11.  The status helpers are consistent: a status in progress is not
    complete and is actionable; the complete status ([seated]) is not
    actionable; and a status that is not actionable is [cancelled] or
    [seated]. *)
Theorem status_helpers_consistent (s : WorkOrderStatus) :
  (isInProgress s = true -> isComplete s = false /\ isActionable s = true) /\
  (isComplete s = true -> isActionable s = false /\ isInProgress s = false) /\
  (isActionable s = false <-> s = cancelled \/ s = seated).
Proof.
  unfold isInProgress, isComplete, isActionable.
  split; [|split].
  - intros H. apply arrayIncludes_In in H. cbn [inProgressStatuses In] in H.
    destruct H as [<- | [<- | [<- | [<- | [<- | [<- | []]]]]]];
      split; reflexivity.
  - intros H. apply String.eqb_eq in H. subst s. split; reflexivity.
  - rewrite negb_false_iff, arrayIncludes_In. cbn [In].
    split; [intros [H | [H | []]]; auto | intros [H | H]; auto].
Qed.

End HelperFacts.

Section OrderFacts.
Import CrownTypes Supabase WorkOrderQueries SpecStore.

Lemma insertDesc_In (r x : CrownWorkOrderRecord) (l : Table) :
  In x (insertDesc r l) <-> x = r \/ In x l.
Proof.
  induction l as [|y l IH]; cbn [insertDesc].
  - cbn. intuition congruence.
  - destruct (created_at y <? created_at r); cbn [In].
    + intuition congruence.
    + rewrite IH. intuition congruence.
Qed.

Lemma orderByCreatedDesc_In (t : Table) (x : CrownWorkOrderRecord) :
  In x (orderByCreatedDesc t) <-> In x t.
Proof.
  induction t as [|y t IH]; [reflexivity|].
  cbn [orderByCreatedDesc fold_right]. fold (orderByCreatedDesc t).
  rewrite insertDesc_In, IH. cbn. intuition congruence.
Qed.

Lemma insertDesc_newestFirst (r : CrownWorkOrderRecord) (l : Table) :
  newestFirst l -> newestFirst (insertDesc r l).
Proof.
  induction l as [|y l IH]; intros S; cbn [insertDesc].
  - cbn. split; [intros x []| exact I].
  - destruct S as [Hy S].
    destruct (created_at y <? created_at r) eqn:E.
    + apply Z.ltb_lt in E. cbn [newestFirst]. split; [|split; assumption].
      intros x [<- | Hx]; [lia|]. specialize (Hy x Hx). lia.
    + apply Z.ltb_ge in E. cbn [newestFirst]. split; [|apply IH, S].
      intros x Hx. apply insertDesc_In in Hx.
      destruct Hx as [-> | Hx]; [exact E | apply Hy, Hx].
Qed.

Lemma orderByCreatedDesc_newestFirst (t : Table) :
  newestFirst (orderByCreatedDesc t).
Proof.
  induction t as [|y t IH]; [exact I|].
  cbn [orderByCreatedDesc fold_right]. fold (orderByCreatedDesc t).
  apply insertDesc_newestFirst, IH.
Qed.

Lemma limit_In (n : nat) (l : Table) (x : CrownWorkOrderRecord) :
  In x (limit n l) -> In x l.
Proof.
  unfold limit. revert l. induction n as [|n IH]; intros l H; [destruct H|].
  destruct l as [|y l]; [destruct H|].
  cbn in H. destruct H as [-> | H]; [now left | right; apply IH, H].
Qed.

Lemma limit_newestFirst (n : nat) (l : Table) :
  newestFirst l -> newestFirst (limit n l).
Proof.
  unfold limit. revert l. induction n as [|n IH]; intros l S; [exact I|].
  destruct l as [|y l]; [exact I|]. destruct S as [Hy S].
  cbn [firstn newestFirst]. split; [|apply IH, S].
  intros x Hx. apply Hy. apply (limit_In n), Hx.
Qed.

(** A matching row that the limit cuts off is no newer than the rows that
    are returned. *)
Lemma limit_cuts_oldest (n : nat) (l : Table) (r x : CrownWorkOrderRecord) :
  newestFirst l -> In r l -> ~ In r (limit n l) -> In x (limit n l) ->
  created_at r <= created_at x.
Proof.
  unfold limit. revert l. induction n as [|n IH]; intros l S R N X;
    [destruct X|].
  destruct l as [|y l]; [destruct X|]. destruct S as [Hy S].
  cbn [firstn] in N, X. destruct R as [-> | R]; [exfalso; apply N; now left|].
  destruct X as [<- | X]; [apply Hy, R|].
  apply (IH l); try assumption. intros C. apply N. now right.
Qed.

Lemma limit_short (n : nat) (l : Table) :
  (List.length (limit n l) < n)%nat -> limit n l = l.
Proof.
  unfold limit. intros H. apply firstn_all2.
  rewrite length_firstn in H. lia.
Qed.

End OrderFacts.

Section QueryFacts.
Import CrownTypes Supabase WorkOrderQueries QueryHelpers SpecStore.

Lemma byProcedure_head (t : Table) (procId : Z) :
  getWorkOrderByProcedureId t procId =
  match orderByCreatedDesc
          (filter (fun r => opendental_procedure_id r =? procId) t) with
  | [] => {| data := None; error := None |}
  | r :: _ => ok r
  end.
Proof.
  unfold getWorkOrderByProcedureId.
  destruct (orderByCreatedDesc _) as [|r l]; [reflexivity|].
  destruct l; reflexivity.
Qed.

(** X12.  The lookup by procedure never reports an error: a procedure
    without a work order gives neither data nor error.  The record it
    gives is a row of the table for that procedure, and the newest one:
    no row for the procedure was created later.  It gives a record as
    soon as the table has a row for the procedure, which is exactly when
    [workOrderExistsForProcedure] answers true. *)
Theorem getWorkOrderByProcedureId_newest (t : Table) (procId : Z) :
  error (getWorkOrderByProcedureId t procId) = None /\
  (forall r,
      data (getWorkOrderByProcedureId t procId) = Some r ->
      In r t /\ opendental_procedure_id r = procId /\
      forall r', In r' t -> opendental_procedure_id r' = procId ->
                 created_at r' <= created_at r) /\
  (data (getWorkOrderByProcedureId t procId) = None <->
   forall r, In r t -> opendental_procedure_id r <> procId) /\
  (workOrderExistsForProcedure t procId = true <->
   exists r, In r t /\ opendental_procedure_id r = procId).
Proof.
  unfold workOrderExistsForProcedure. rewrite byProcedure_head.
  pose proof (orderByCreatedDesc_newestFirst
                (filter (fun r => opendental_procedure_id r =? procId) t)) as S.
  pose proof (orderByCreatedDesc_In
                (filter (fun r => opendental_procedure_id r =? procId) t)) as M.
  destruct (orderByCreatedDesc _) as [|z l].
  - assert (N : forall r, In r t -> opendental_procedure_id r <> procId).
    { intros r H E. apply (M r). apply filter_In. split; [exact H|].
      now apply Z.eqb_eq. }
    cbn. split; [reflexivity|]. split; [discriminate|]. split; [tauto|].
    split; [discriminate|]. intros [r [H E]]. exfalso. now apply (N r).
  - assert (Z : In z t /\ opendental_procedure_id z = procId).
    { assert (H : In z (z :: l)) by now left.
      apply M, filter_In in H. destruct H as [H E].
      split; [exact H | now apply Z.eqb_eq]. }
    cbn. split; [reflexivity|]. split; [|split].
    + intros r E. injection E as <-. destruct Z as [Z1 Z2].
      split; [exact Z1|]. split; [exact Z2|].
      intros r' H' E'.
      assert (H : In r' (z :: l)).
      { apply M, filter_In. split; [exact H' | now apply Z.eqb_eq]. }
      destruct H as [<- | H]; [lia|]. destruct S as [S _]. apply S, H.
    + split; [discriminate|]. intros N. exfalso.
      destruct Z as [Z1 Z2]. now apply (N z).
    + split; [|reflexivity]. intros _. exists z. exact Z.
Qed.

Lemma truthyS_Some (x : option string) (a : string) :
  truthyS x = Some a <-> x = Some a /\ a <> "".
Proof.
  destruct x as [[|c s]|]; cbn; split; intros H; try discriminate H.
  - destruct H as [H N]. injection H as <-. now contradiction N.
  - injection H as <-. split; [reflexivity | discriminate].
  - now destruct H as [H N].
  - destruct H as [H N]. discriminate H.
Qed.

Lemma truthyZ_Some (x : option Z) (a : Z) :
  truthyZ x = Some a <-> x = Some a /\ a <> 0.
Proof.
  destruct x as [n|]; cbn; [|split; [discriminate | intros [H _]; discriminate H]].
  destruct (n =? 0) eqn:E; [apply Z.eqb_eq in E | apply Z.eqb_neq in E];
    split; intros H; try discriminate H.
  - destruct H as [H N]. injection H as <-. contradiction.
  - injection H as <-. now split.
  - destruct H as [H _]. exact H.
Qed.

Lemma whenSet_In {X : Type} (x : option X)
      (p : X -> CrownWorkOrderRecord -> bool) (t : Table)
      (r : CrownWorkOrderRecord) :
  In r (whenSet x p t) <-> In r t /\ forall a, x = Some a -> p a r = true.
Proof.
  destruct x as [a|]; cbn.
  - rewrite filter_In. split; intros [H P]; (split; [exact H|]).
    + intros b E. now injection E as <-.
    + now apply P.
  - split; [intros H; split; [exact H | discriminate] | tauto].
Qed.

Lemma statusFilter_In
      (f : option (WorkOrderStatus + list WorkOrderStatus)) (t : Table)
      (r : CrownWorkOrderRecord) :
  In r (statusFilter f t) <->
  In r t /\
  (forall s, f = Some (inl s) -> s <> "" -> status r = s) /\
  (forall l, f = Some (inr l) -> In (status r) l).
Proof.
  destruct f as [[[|c s]|l]|]; cbn [statusFilter JsString.truthy].
  - split; [|tauto]. intros H. split; [exact H|]. split.
    + intros s E N. injection E as <-. now contradiction N.
    + discriminate.
  - rewrite filter_In. split.
    + intros [H E]. apply String.eqb_eq in E. split; [exact H|]. split.
      * intros s' E' _. now injection E' as <-.
      * discriminate.
    + intros [H [E _]]. split; [exact H|]. apply String.eqb_eq.
      apply E; [reflexivity | discriminate].
  - rewrite filter_In, arrayIncludes_In. split.
    + intros [H E]. split; [exact H|]. split; [discriminate|].
      intros l' E'. now injection E' as <-.
    + intros [H [_ E]]. split; [exact H|]. now apply E.
  - split; [|tauto]. intros H. split; [exact H|]. split; discriminate.
Qed.

(** The listing is the limit of the ordered selection of the rows that
    satisfy the filters. *)
Lemma listWorkOrders_selection (t : Table) (filters : WorkOrderFilters) :
  exists q,
    (forall lim,
        listWorkOrders t filters lim = limit lim (orderByCreatedDesc q)) /\
    forall r, In r q <-> In r t /\ satisfies filters r.
Proof.
  eexists. split; [intros lim; reflexivity|].
  intros r. rewrite !whenSet_In, statusFilter_In, filter_In.
  unfold satisfies. split.
  - intros [[[[[[[[H L] [S1 S2]] A] P] Q] F] T] R].
    split; [exact H|].
    split; [destruct (lab_id r); [discriminate L | reflexivity]|].
    split; [exact S1|]. split; [exact S2|].
    split; [intros a E N; apply String.eqb_eq, A, truthyS_Some; now split|].
    split; [intros p E N; apply Z.eqb_eq, P, truthyZ_Some; now split|].
    split; [intros p E N; apply Z.eqb_eq, Q, truthyZ_Some; now split|].
    split; [intros d E; apply Z.leb_le, F, E|].
    split; [intros d E; apply Z.leb_le, T, E|].
    intros p E N; apply String.eqb_eq, R, truthyS_Some; now split.
  - intros [H [L [S1 [S2 [A [P [Q [F [T R]]]]]]]]].
    repeat split; try assumption.
    + now rewrite L.
    + intros a E. apply truthyS_Some in E. destruct E as [E N].
      apply String.eqb_eq. now apply A.
    + intros p E. apply truthyZ_Some in E. destruct E as [E N].
      apply Z.eqb_eq. now apply P.
    + intros p E. apply truthyZ_Some in E. destruct E as [E N].
      apply Z.eqb_eq. now apply Q.
    + intros d E. apply Z.leb_le. now apply F.
    + intros d E. apply Z.leb_le. now apply T.
    + intros p E. apply truthyS_Some in E. destruct E as [E N].
      apply String.eqb_eq. now apply R.
Qed.

(** X13.  Every row that [listWorkOrders] returns is a row of the table,
    an internal work order, that passes every filter that is set; a filter
    with a falsy value (the empty text, the id 0) filters nothing.  When
    fewer rows than the limit are returned, every such row of the table is
    among them. *)
Theorem listWorkOrders_selects
        (t : Table) (filters : WorkOrderFilters) (lim : nat)
        (r : CrownWorkOrderRecord) :
  (In r (listWorkOrders t filters lim) -> In r t /\ satisfies filters r) /\
  ((List.length (listWorkOrders t filters lim) < lim)%nat ->
   In r t -> satisfies filters r -> In r (listWorkOrders t filters lim)).
Proof.
  destruct (listWorkOrders_selection t filters) as [q [L Q]].
  rewrite L. split.
  - intros H. apply limit_In in H.
    apply (proj1 (orderByCreatedDesc_In _ _)) in H. now apply Q.
  - intros Short H S. rewrite (limit_short _ _ Short).
    apply orderByCreatedDesc_In, Q. now split.
Qed.

(** X14.  [listWorkOrders] returns at most [limit] rows, newest first;
    and the rows it leaves out for the limit are the oldest: a row of the
    table that passes the filters and is not returned is no newer than any
    row that is. *)
Theorem listWorkOrders_newest
        (t : Table) (filters : WorkOrderFilters) (lim : nat) :
  (List.length (listWorkOrders t filters lim) <= lim)%nat /\
  newestFirst (listWorkOrders t filters lim) /\
  (forall r x,
      In r t -> satisfies filters r ->
      ~ In r (listWorkOrders t filters lim) ->
      In x (listWorkOrders t filters lim) ->
      created_at r <= created_at x).
Proof.
  destruct (listWorkOrders_selection t filters) as [q [L Q]].
  rewrite L. split; [|split].
  - unfold limit. apply firstn_le_length.
  - apply limit_newestFirst, orderByCreatedDesc_newestFirst.
  - intros r x H S N X.
    apply (limit_cuts_oldest lim (orderByCreatedDesc q)); try assumption.
    + apply orderByCreatedDesc_newestFirst.
    + apply orderByCreatedDesc_In, Q. now split.
Qed.

End QueryFacts.

Section WriteFacts.
Import CrownTypes Supabase WorkOrderQueries Routes ReadRoutes SpecStore.

Lemma eq_id_true (i : string) (r : CrownWorkOrderRecord) :
  eq_id i r = true <-> id r = i.
Proof. unfold eq_id. apply String.eqb_eq. Qed.

Lemma eq_id_false (i : string) (r : CrownWorkOrderRecord) :
  eq_id i r = false <-> id r <> i.
Proof. unfold eq_id. apply String.eqb_neq. Qed.

Lemma filter_absent (i : string) (t : Table) :
  absent i t <-> filter (eq_id i) t = [].
Proof.
  unfold absent. induction t as [|x t IH]; cbn [filter].
  - split; [reflexivity | intros _ r []].
  - destruct (eq_id i x) eqn:E.
    + split; [|discriminate]. intros H. exfalso.
      apply (H x); [now left | now apply eq_id_true].
    + rewrite <- IH. split.
      * intros H r Hr. apply H. now right.
      * intros H r [<- | Hr]; [now apply eq_id_false | now apply H].
Qed.

Lemma existsb_absent (i : string) (t : Table) :
  existsb (eq_id i) t = false -> absent i t.
Proof.
  intros H r Hr E. apply eq_id_true in E.
  assert (X : existsb (eq_id i) t = true)
    by (apply existsb_exists; now exists r).
  congruence.
Qed.

Lemma getWorkOrderById_absent (i : string) (t : Table) :
  absent i t -> getWorkOrderById t i = fail PGRST116.
Proof.
  intros H. unfold getWorkOrderById.
  now rewrite (proj1 (filter_absent i t) H).
Qed.

(** A lookup by key gives a record or an error, never neither. *)
Lemma getWorkOrderById_cases (i : string) (t : Table) :
  (exists r, getWorkOrderById t i = ok r /\ In r t /\ id r = i) \/
  getWorkOrderById t i = fail PGRST116.
Proof.
  unfold getWorkOrderById.
  destruct (filter (eq_id i) t) as [|r [|r' l]] eqn:F; cbn; auto.
  left. exists r. split; [reflexivity|].
  assert (H : In r (filter (eq_id i) t)) by (rewrite F; now left).
  apply filter_In in H. destruct H as [H E].
  split; [exact H | now apply eq_id_true].
Qed.

Lemma getWorkOrderById_added (t : Table) (r : CrownWorkOrderRecord)
      (i : string) :
  getWorkOrderById (t ++ [r])%list i =
  if eq_id i r
  then single (filter (eq_id i) t ++ [r])
  else getWorkOrderById t i.
Proof.
  unfold getWorkOrderById. rewrite filter_app. cbn [filter].
  destruct (eq_id i r); [reflexivity | now rewrite app_nil_r].
Qed.

Lemma insert_cases (t : Table) (r : CrownWorkOrderRecord) :
  (insert t r = (ok r, (t ++ [r])%list) /\ absent (id r) t /\
   lab_slips_status_check (status r) = true) \/
  (exists e, insert t r = (fail e, t)).
Proof.
  unfold insert. destruct (lab_slips_status_check (status r)); cbn [negb].
  - destruct (existsb (eq_id (id r)) t) eqn:X.
    + right. now exists uniqueViolation.
    + left. split; [reflexivity|]. split; [|reflexivity].
      now apply existsb_absent.
  - right. now exists checkViolation.
Qed.

Lemma getWorkOrderById_inserted (t : Table) (r : CrownWorkOrderRecord) :
  absent (id r) t ->
  getWorkOrderById (t ++ [r])%list (id r) = ok r /\
  forall i, i <> id r ->
            getWorkOrderById (t ++ [r])%list i = getWorkOrderById t i.
Proof.
  intros A. split.
  - rewrite getWorkOrderById_added.
    rewrite (proj2 (eq_id_true (id r) r) eq_refl).
    now rewrite (proj1 (filter_absent (id r) t) A).
  - intros i N. rewrite getWorkOrderById_added.
    assert (E : eq_id i r = false) by (apply eq_id_false; congruence).
    now rewrite E.
Qed.

(** X15.  A work order that [createWorkOrder] returns is stored as the
    last row of the table under the new key, with the creation time as
    its creation and update time, open ([completed_at] unset) and
    internal; a lookup by that key returns it, and the lookups by other
    keys answer as before.  When no record is returned there is an error,
    and the table is as it was. *)
Theorem createWorkOrder_roundtrip
        (t : Table) (now : Z) (uuid : string) (params : CreateWorkOrderParams) :
  (forall row,
      data (fst (createWorkOrder t now uuid params)) = Some row ->
      error (fst (createWorkOrder t now uuid params)) = None /\
      snd (createWorkOrder t now uuid params) = (t ++ [row])%list /\
      id row = uuid /\ created_at row = now /\ updated_at row = now /\
      completed_at row = None /\ lab_id row = None /\
      status row = orElse (cStatus params) pending /\
      getWorkOrderById (snd (createWorkOrder t now uuid params)) uuid = ok row /\
      (forall i, i <> uuid ->
                 getWorkOrderById (snd (createWorkOrder t now uuid params)) i
                 = getWorkOrderById t i)) /\
  (data (fst (createWorkOrder t now uuid params)) = None ->
   error (fst (createWorkOrder t now uuid params)) <> None /\
   snd (createWorkOrder t now uuid params) = t).
Proof.
  unfold createWorkOrder.
  match goal with |- context [insert t ?r] =>
    destruct (insert_cases t r) as [[E [A _]] | [e E]]; rewrite E
  end; cbn [fst snd ok fail data error].
  - split; [|discriminate]. intros row R. injection R as <-.
    apply getWorkOrderById_inserted in A. cbn [id] in A.
    destruct A as [A1 A2]. repeat (split; [reflexivity|]).
    split; [exact A1 | exact A2].
  - split; [discriminate|]. intros _. split; [discriminate | reflexivity].
Qed.

End WriteFacts.

Section UpdateFacts.
Import CrownTypes Supabase WorkOrderQueries Routes ReadRoutes SpecStore.

(** An update rewrites the one row with the key, or fails with an error
    and leaves the table as it is. *)
Lemma update_cases (t : Table) (i : string)
      (f : CrownWorkOrderRecord -> CrownWorkOrderRecord) :
  (exists r,
      filter (eq_id i) t = [r] /\
      update t i f
      = (ok (f r), List.map (fun x => if eq_id i x then f x else x) t)) \/
  (exists e, update t i f = (fail e, t)).
Proof.
  unfold update. destruct (filter (eq_id i) t) as [|r [|r' l]]; cbn [List.map].
  - right. now exists PGRST116.
  - destruct (lab_slips_status_check (status (f r))).
    + left. now exists r.
    + right. now exists checkViolation.
  - right. now exists PGRST116.
Qed.

Lemma updateWorkOrder_cases (t : Table) (now : Z)
      (params : UpdateWorkOrderParams) :
  (exists r u,
      filter (eq_id (uId params)) t = [r] /\
      set_updated_at u = now /\
      set_status u = uStatus params /\
      set_pdf_url u = pdfUrl params /\
      set_pdf_storage_path u = pdfStoragePath params /\
      set_completed_at u = completedAt params /\
      set_lab_slip_data u
      = option_map (setLabNotes (lab_slip_data r)) (uLabNotes params) /\
      updateWorkOrder t now params
      = (ok (applyUpdates u r),
         List.map (fun x => if eq_id (uId params) x then applyUpdates u x else x)
                  t)) \/
  (exists e, updateWorkOrder t now params = (fail e, t)).
Proof.
  unfold updateWorkOrder.
  match goal with |- context [update t _ (applyUpdates ?u)] =>
    destruct (update_cases t (uId params) (applyUpdates u))
      as [[r [F E]] | [e E]]; [left; exists r, u | right; exists e; exact E]
  end.
  split; [exact F|].
  rewrite E. unfold getWorkOrderById. rewrite F. cbn [single ok data].
  repeat (split; [reflexivity|]).
  destruct (uLabNotes params); split; reflexivity.
Qed.

Lemma map_rewritten {X : Type} (g : CrownWorkOrderRecord -> X) (i : string)
      (f : CrownWorkOrderRecord -> CrownWorkOrderRecord) (t : Table) :
  (forall r, g (f r) = g r) ->
  List.map g (List.map (fun x => if eq_id i x then f x else x) t)
  = List.map g t.
Proof.
  intros K. rewrite map_map. apply map_ext. intros r.
  destruct (eq_id i r); [apply K | reflexivity].
Qed.

Lemma updateWorkOrder_keeps {X : Type} (g : CrownWorkOrderRecord -> X)
      (t : Table) (now : Z) (params : UpdateWorkOrderParams) :
  (forall u r, g (applyUpdates u r) = g r) ->
  List.map g (snd (updateWorkOrder t now params)) = List.map g t.
Proof.
  intros K.
  destruct (updateWorkOrder_cases t now params)
    as [[r [u [_ [_ [_ [_ [_ [_ [_ E]]]]]]]]] | [e E]]; rewrite E; cbn [snd].
  - apply map_rewritten. apply K.
  - reflexivity.
Qed.

Lemma patchStatus_table (t : Table) (now : Z) (i : string)
      (newStatus notes : option string) :
  snd (patchStatus t now i newStatus notes) = t \/
  exists s, snd (patchStatus t now i newStatus notes)
            = snd (updateWorkOrderStatus t now i s notes).
Proof.
  unfold patchStatus. destruct (truthyS newStatus) as [s|]; [|now left].
  right. exists s.
  destruct (updateWorkOrderStatus t now i s notes) as [res t'].
  destruct (error res); [reflexivity|]. destruct (data res); reflexivity.
Qed.

(** X16.  [GET /work-orders/:id] and [PATCH /work-orders/:id/status]
    never answer 404: the lookup and the update give an error whenever
    they give no record, and the error is answered first.  For a key
    that no row has, both answer 500, and the patch leaves the table as it
    is. *)
Theorem unknown_id_is_a_server_error
        (t : Table) (now : Z) (i : string) (newStatus notes : option string) :
  statusCode (getWorkOrder t i) <> 404 /\
  statusCode (fst (patchStatus t now i newStatus notes)) <> 404 /\
  (absent i t ->
   getWorkOrder t i = ServerError "Failed to fetch work order" /\
   (truthyS newStatus <> None ->
    patchStatus t now i newStatus notes
    = (ServerError "Failed to update work order status", t))).
Proof.
  split; [|split].
  - unfold getWorkOrder.
    destruct (getWorkOrderById_cases i t) as [[r [E _]] | E]; rewrite E;
      cbn; discriminate.
  - unfold patchStatus. destruct (truthyS newStatus) as [s|]; [|cbn; discriminate].
    unfold updateWorkOrderStatus.
    match goal with |- context [updateWorkOrder t now ?p] =>
      destruct (updateWorkOrder_cases t now p)
        as [[r [u [_ [_ [_ [_ [_ [_ [_ E]]]]]]]]] | [e E]]; rewrite E
    end; cbn; discriminate.
  - intros A. split.
    + unfold getWorkOrder. now rewrite (getWorkOrderById_absent i t A).
    + intros S. unfold patchStatus.
      destruct (truthyS newStatus) as [s|]; [|now contradiction S].
      unfold updateWorkOrderStatus, updateWorkOrder, update. cbn [uId].
      now rewrite (proj1 (filter_absent i t) A).
Qed.

Lemma delete_other (t : Table) (i j : string) :
  j <> i -> filter (eq_id j) (delete t i) = filter (eq_id j) t.
Proof.
  intros N. unfold delete. induction t as [|x t IH]; [reflexivity|].
  cbn [filter]. destruct (eq_id i x) eqn:E; cbn [negb].
  - assert (F : eq_id j x = false).
    { apply eq_id_false. apply eq_id_true in E. congruence. }
    now rewrite F.
  - cbn [filter]. destruct (eq_id j x); now rewrite IH.
Qed.

Lemma delete_absent (t : Table) (i : string) : absent i (delete t i).
Proof.
  intros r H. unfold delete in H. apply filter_In in H.
  destruct H as [_ H]. apply negb_true_iff in H. now apply eq_id_false.
Qed.

Lemma delete_nothing (t : Table) (i : string) :
  absent i t -> delete t i = t.
Proof.
  intros A. unfold delete. induction t as [|x t IH]; [reflexivity|].
  cbn [filter].
  assert (E : eq_id i x = false) by (apply eq_id_false, A; now left).
  rewrite E. cbn [negb]. f_equal. apply IH. intros r H. apply A. now right.
Qed.

(** X17.  [DELETE /work-orders/:id] answers 200 whether or not a row has
    the key, and never 404.  Afterwards no row has the key, so a
    [GET /work-orders/:id] for it is answered 500; the lookups by other
    keys answer as before; and when no row had the key the table is as it
    was. *)
Theorem deleteRoute_removes (t : Table) (i : string) :
  fst (deleteRoute t i) = 200 /\
  absent i (snd (deleteRoute t i)) /\
  getWorkOrder (snd (deleteRoute t i)) i
  = ServerError "Failed to fetch work order" /\
  (forall j, j <> i ->
             getWorkOrderById (snd (deleteRoute t i)) j
             = getWorkOrderById t j) /\
  (absent i t -> snd (deleteRoute t i) = t).
Proof.
  unfold deleteRoute, deleteWorkOrder. cbn [fst snd].
  split; [reflexivity|]. split; [apply delete_absent|]. split; [|split].
  - unfold getWorkOrder.
    now rewrite (getWorkOrderById_absent i _ (delete_absent t i)).
  - intros j N. unfold getWorkOrderById. now rewrite delete_other.
  - apply delete_nothing.
Qed.

Lemma Forall2_rewritten (R : CrownWorkOrderRecord -> CrownWorkOrderRecord -> Prop)
      (g : CrownWorkOrderRecord -> CrownWorkOrderRecord) (t : Table) :
  (forall r, In r t -> R r (g r)) -> Forall2 R t (List.map g t).
Proof.
  induction t as [|x t IH]; intros H; [constructor|].
  cbn [List.map]. constructor; [apply H; now left|].
  apply IH. intros r Hr. apply H. now right.
Qed.

Lemma sameButStatus_refl (r : CrownWorkOrderRecord) : sameButStatus r r.
Proof. unfold sameButStatus. repeat split. Qed.

(** X18.  A status update writes the addressed row only, and of that row
    only the status, the update time, the completion time and the lab
    notes: row by row, the table afterwards agrees with the table before
    on every other column, and a row with another key is as it was.  No
    row is added, removed or moved. *)
Theorem updateWorkOrderStatus_frame
        (t : Table) (now : Z) (i : string) (newStatus : WorkOrderStatus)
        (notes : option string) :
  Forall2 (fun r r' => sameButStatus r r' /\ (id r <> i -> r' = r))
          t (snd (updateWorkOrderStatus t now i newStatus notes)).
Proof.
  unfold updateWorkOrderStatus.
  match goal with |- context [updateWorkOrder t now ?p] =>
    destruct (updateWorkOrder_cases t now p)
      as [[r0 [u [F [_ [_ [U1 [U2 [_ [U3 E]]]]]]]]] | [e E]]; rewrite E
  end; cbn [snd uId].
  - cbn [uId pdfUrl pdfStoragePath uLabNotes] in F, U1, U2, U3.
    apply Forall2_rewritten. intros r Hr.
    destruct (eq_id i r) eqn:X.
    + assert (R : In r (filter (eq_id i) t)) by (apply filter_In; now split).
      rewrite F in R. destruct R as [<- | []].
      split; [|intros N; apply eq_id_true in X; contradiction].
      unfold sameButStatus, applyUpdates. cbn.
      rewrite U1, U2, U3. cbn [pickOpt].
      destruct (truthyS notes); cbn; repeat split.
    + split; [apply sameButStatus_refl | reflexivity].
  - rewrite <- (map_id t) at 2. apply Forall2_rewritten.
    intros r _. split; [apply sameButStatus_refl | reflexivity].
Qed.

End UpdateFacts.

Section RouteFacts.
Import CrownTypes Supabase WorkOrderQueries Routes ReadRoutes SpecStore.

Lemma NoDup_added {X : Type} (l : list X) (x : X) :
  NoDup l -> ~ In x l -> NoDup (l ++ [x]).
Proof.
  intros N H. induction N as [|y l Hy N IH]; cbn.
  - constructor; [intros [] | constructor].
  - constructor.
    + intros C. apply in_app_or in C. destruct C as [C | [C | []]].
      * contradiction.
      * apply H. now left.
    + apply IH. intros C. apply H. now right.
Qed.

Lemma NoDup_filtered {X : Type} (g : CrownWorkOrderRecord -> X)
      (p : CrownWorkOrderRecord -> bool) (t : Table) :
  NoDup (List.map g t) -> NoDup (List.map g (filter p t)).
Proof.
  induction t as [|x t IH]; intros N; [constructor|].
  cbn [List.map] in N. inversion N as [|a l Hx N' E]. subst a l.
  cbn [filter]. destruct (p x); [|apply IH, N'].
  cbn [List.map]. constructor; [|apply IH, N'].
  intros C. apply Hx. apply in_map_iff in C. destruct C as [r [E R]].
  apply in_map_iff. exists r. split; [exact E|].
  apply filter_In in R. tauto.
Qed.

Lemma no_order_for_procedure (t : Table) (procId : Z) :
  workOrderExistsForProcedure t procId = false ->
  ~ In procId (List.map opendental_procedure_id t).
Proof.
  intros H C. apply in_map_iff in C. destruct C as [r [E R]].
  rewrite (workOrderExistsForProcedure_true t procId r R E) in H.
  discriminate H.
Qed.

Lemma absent_key (t : Table) (i : string) :
  absent i t -> ~ In i (List.map id t).
Proof.
  intros A C. apply in_map_iff in C. destruct C as [r [E R]].
  now apply (A r).
Qed.

(** [POST /work-orders] answers 201 with the row it has appended, or
    another answer and leaves the table as it is. *)
Lemma postWorkOrders_cases (t : Table) (now : Z) (uuid : string)
      (body : CreateBody) :
  (exists row patId proc procCode,
      postWorkOrders t now uuid body = (Created row, (t ++ [row])%list) /\
      absent uuid t /\
      workOrderExistsForProcedure t (opendental_procedure_id row) = false /\
      bPatientId body = Some patId /\ patId <> 0 /\
      bProcedureId body = Some (opendental_procedure_id row) /\
      opendental_procedure_id row <> 0 /\
      procedure body = Some proc /\ code proc = Some procCode /\
      CrownDetection.isCrown
        (CrownDetection.detectCrownProcedure
           CrownDetection.DEFAULT_DETECTION_CONFIG procCode) = true /\
      id row = uuid /\ lab_id row = None /\
      opendental_patient_id row = patId /\
      procedure_code row = procCode /\
      status row = pending /\
      created_at row = now /\ updated_at row = now /\
      completed_at row = None /\
      JsString.truthy (shade row) = true /\
      (bCrownSpecs body = None ->
       crownSpecs (lab_slip_data row)
       = getDefaultCrownSpecs procCode (shade row))) \/
  (snd (postWorkOrders t now uuid body) = t /\
   forall row, fst (postWorkOrders t now uuid body) <> Created row).
Proof.
  unfold postWorkOrders, postWorkOrdersTry.
  destruct (bPatientId body) as [patId|] eqn:B1;
    [|right; split; [reflexivity | discriminate]].
  cbn [truthyZ]. destruct (patId =? 0) eqn:Z1;
    [right; split; [reflexivity | discriminate]|].
  destruct (bProcedureId body) as [procId|] eqn:B2;
    [|right; split; [reflexivity | discriminate]].
  cbn [truthyZ]. destruct (procId =? 0) eqn:Z2;
    [right; split; [reflexivity | discriminate]|].
  destruct (patient body) as [pat|];
    [|right; split; [reflexivity | discriminate]].
  destruct (procedure body) as [proc|];
    [|right; split; [reflexivity | discriminate]].
  destruct (code proc) as [procCode|] eqn:PC;
    [|right; split; [reflexivity | discriminate]].
  cbn [stringOrThrow Js.bind].
  destruct (CrownDetection.isCrown _) eqn:D; cbn [negb];
    [|right; split; [reflexivity | discriminate]].
  destruct (workOrderExistsForProcedure t procId) eqn:W;
    [right; split; [reflexivity | discriminate]|].
  unfold createWorkOrder.
  match goal with |- context [insert t ?r] =>
    destruct (insert_cases t r) as [[E [A _]] | [e E]]; rewrite E
  end; cbn [ok fail data error Js.tryCatch fst snd];
    [|right; split; [reflexivity | discriminate]].
  left. eexists. exists patId, proc, procCode.
  split; [reflexivity|]. cbn.
  split; [exact A|]. split; [exact W|].
  split; [reflexivity|]. split; [now apply Z.eqb_neq|].
  split; [reflexivity|]. split; [now apply Z.eqb_neq|].
  split; [reflexivity|]. split; [exact PC|]. split; [exact D|].
  repeat (split; [reflexivity|]). split.
  - destruct (bCrownSpecs body) as [specs|].
    + destruct (JsString.truthy (specShade specs)) eqn:T; [exact T|].
      unfold orElse. destruct (pShade proc) as [[|c s]|]; reflexivity.
    + unfold orElse. destruct (pShade proc) as [[|c s]|]; reflexivity.
  - intros N. now rewrite N.
Qed.

(** X19.  A work order created by [POST /work-orders] (answer 201) is
    appended to the table under the new key as a pending, internal, open
    work order for the patient and the procedure of the request, created
    and updated at the time of the request, with the procedure code as
    the request spells it and a shade that is never empty; without crown
    specifications in the request it gets the default ones for its code
    and shade.  [GET /work-orders/:id] then answers 200 with the same
    record. *)
Theorem postWorkOrders_then_get
        (t t' : Table) (now : Z) (uuid : string) (body : CreateBody)
        (row : CrownWorkOrderRecord) :
  postWorkOrders t now uuid body = (Created row, t') ->
  t' = (t ++ [row])%list /\
  id row = uuid /\ lab_id row = None /\ status row = pending /\
  created_at row = now /\ updated_at row = now /\ completed_at row = None /\
  bPatientId body = Some (opendental_patient_id row) /\
  bProcedureId body = Some (opendental_procedure_id row) /\
  (exists proc, procedure body = Some proc /\
                code proc = Some (procedure_code row)) /\
  CrownDetection.isCrown
    (CrownDetection.detectCrownProcedure
       CrownDetection.DEFAULT_DETECTION_CONFIG (procedure_code row)) = true /\
  shade row <> "" /\
  (bCrownSpecs body = None ->
   crownSpecs (lab_slip_data row)
   = getDefaultCrownSpecs (procedure_code row) (shade row)) /\
  getWorkOrder t' uuid = Ok row.
Proof.
  intros H.
  destruct (postWorkOrders_cases t now uuid body)
    as [(row' & patId & proc & procCode & E & A & W & B1 & N1 & B2 & N2
         & P & PC & D & I & L & PI & C & S & CA & UA & CO & SH & SP)
       | [_ N]].
  - rewrite E in H. injection H as <- <-. subst procCode patId.
    split; [reflexivity|]. repeat (split; [assumption|]).
    split; [now exists proc|]. split; [exact D|].
    split; [intros Z; rewrite Z in SH; discriminate SH|].
    split; [exact SP|].
    unfold getWorkOrder. rewrite <- I in A |- *.
    now rewrite (proj1 (getWorkOrderById_inserted t row' A)).
  - exfalso. apply (N row). now rewrite H.
Qed.

Lemma postWorkOrders_then_get_witness :
  exists row,
    oneOrder = ([] ++ [row])%list /\
    id row = "wo-1" /\ lab_id row = None /\ status row = pending /\
    getWorkOrder oneOrder "wo-1" = Ok row.
Proof.
  destruct (postWorkOrders [] 1000 "wo-1" (crownRequest 77 "D2740"))
    as [[row| | | | |] t'] eqn:E; try (vm_compute in E; discriminate E).
  assert (T : t' = oneOrder) by (unfold oneOrder; now rewrite E).
  exists row. rewrite <- T.
  pose proof (postWorkOrders_then_get _ _ _ _ _ _ E) as H.
  tauto.
Defined.

(** X20.  The routes never leave a request half done: a
    [POST /work-orders] that is not answered 201, and a
    [PATCH /work-orders/:id/status] that is not answered 200, leave the
    table exactly as it was. *)
Theorem rejected_requests_change_nothing
        (t : Table) (now : Z) (uuid i : string) (body : CreateBody)
        (newStatus notes : option string) :
  (statusCode (fst (postWorkOrders t now uuid body)) <> 201 ->
   snd (postWorkOrders t now uuid body) = t) /\
  (statusCode (fst (patchStatus t now i newStatus notes)) <> 200 ->
   snd (patchStatus t now i newStatus notes) = t).
Proof.
  split.
  - intros H.
    destruct (postWorkOrders_cases t now uuid body)
      as [[row [patId [proc [procCode [E _]]]]] | [E _]]; [|exact E].
    rewrite E in H. now contradiction H.
  - unfold patchStatus. destruct (truthyS newStatus) as [s|]; [|reflexivity].
    unfold updateWorkOrderStatus.
    match goal with |- context [updateWorkOrder t now ?p] =>
      destruct (updateWorkOrder_cases t now p)
        as [[r [u [_ [_ [_ [_ [_ [_ [_ E]]]]]]]]] | [e E]]; rewrite E
    end; cbn; [intros H; now contradiction H | reflexivity].
Qed.

Lemma routeStep_keeps {X : Type} (g : CrownWorkOrderRecord -> X)
      (t t' : Table) :
  (forall u r, g (applyUpdates u r) = g r) ->
  (forall now uuid body row,
      postWorkOrders t now uuid body = (Created row, (t ++ [row])%list) ->
      absent uuid t ->
      workOrderExistsForProcedure t (opendental_procedure_id row) = false ->
      id row = uuid ->
      ~ In (g row) (List.map g t)) ->
  routeStep t t' -> NoDup (List.map g t) -> NoDup (List.map g t').
Proof.
  intros K Fresh Step N.
  destruct Step as [t clock uuid body|t clock i newStatus notes
                   |t clock i path|t i].
  - destruct (postWorkOrders_cases t clock uuid body)
      as [(row & patId & proc & procCode & E & A & W
           & _ & _ & _ & _ & _ & _ & _ & I & _) | [E _]].
    + rewrite E. cbn [snd]. rewrite map_app. cbn [List.map].
      apply NoDup_added; [exact N|]. now apply (Fresh clock uuid body).
    + now rewrite E.
  - destruct (patchStatus_table t clock i newStatus notes) as [E | [s E]];
      rewrite E; [exact N|].
    unfold updateWorkOrderStatus. now rewrite updateWorkOrder_keeps.
  - now rewrite updateWorkOrder_keeps.
  - unfold deleteRoute, deleteWorkOrder, delete. cbn [snd].
    now apply NoDup_filtered.
Qed.

Lemma post_split (t : Table) (now : Z) (uuid : string) (body : CreateBody) :
  postWorkOrders t now uuid body =
  match Server.postWorkOrdersCheck t body with
  | Js.Return (inl answer) => (answer, t)
  | Js.Return (inr params) => Server.postWorkOrdersCreate t now uuid params
  | Js.Throw _ => (ServerError "Internal server error", t)
  end.
Proof.
  unfold postWorkOrders, postWorkOrdersTry, Server.postWorkOrdersCheck.
  destruct (truthyZ (bPatientId body)); [|reflexivity].
  destruct (truthyZ (bProcedureId body)) as [procId|]; [|reflexivity].
  destruct (patient body); [|reflexivity].
  destruct (procedure body) as [proc|]; [|reflexivity].
  destruct (code proc) as [procCode|]; [|reflexivity].
  cbn [stringOrThrow Js.bind].
  destruct (negb _); [reflexivity|].
  destruct (workOrderExistsForProcedure t procId); [reflexivity|].
  cbn [Js.tryCatch]. unfold Server.postWorkOrdersCreate.
  destruct (createWorkOrder _ _ _ _) as [res t'].
  destruct (error res); [reflexivity|]. destruct (data res); reflexivity.
Qed.

Lemma update_split (t : Table) (now : Z) (params : UpdateWorkOrderParams) :
  updateWorkOrder t now params
  = Server.updateWorkOrderWrite t params
      (Server.updateWorkOrderRead t now params).
Proof. reflexivity. Qed.

Lemma update_run (t : Table) (now : Z) (params : UpdateWorkOrderParams) :
  Server.serverRun (Server.idle t)
                   (Server.idle (snd (updateWorkOrder t now params))).
Proof.
  rewrite update_split.
  eapply Server.run_step; [apply (Server.update_read _ now params)|].
  eapply Server.run_step; [|apply Server.run_done].
  exact (Server.update_written
           {| Server.rows := t;
              Server.inFlight :=
                [Server.Updating params
                   (Server.updateWorkOrderRead t now params)] |}
           params (Server.updateWorkOrderRead t now params) [] [] eq_refl).
Qed.

(** A request that is handled alone is a run of its round trips. *)
Lemma routeStep_run (t t' : Table) :
  routeStep t t' -> Server.serverRun (Server.idle t) (Server.idle t').
Proof.
  intros Step.
  destruct Step as [t clock uuid body|t clock i newStatus notes
                   |t clock i path|t i].
  - rewrite post_split.
    destruct (Server.postWorkOrdersCheck t body) as [[answer|params]|e] eqn:C;
      try apply Server.run_done.
    eapply Server.run_step;
      [apply (Server.post_checked (Server.idle t) body params C)|].
    eapply Server.run_step; [|apply Server.run_done].
    exact (Server.post_created
             {| Server.rows := t;
                Server.inFlight := [Server.Creating params] |}
             clock uuid params [] [] eq_refl).
  - destruct (patchStatus_table t clock i newStatus notes) as [E | [s E]];
      rewrite E; [apply Server.run_done|].
    unfold updateWorkOrderStatus. apply update_run.
  - apply update_run.
  - eapply Server.run_step; [|apply Server.run_done].
    exact (Server.deleted (Server.idle t) i).
Qed.

Lemma serverStep_keys (s s' : Server.Server) :
  Server.serverStep s s' ->
  uniqueKeys (Server.rows s) -> uniqueKeys (Server.rows s').
Proof.
  unfold uniqueKeys. intros Step N.
  destruct Step as [s body params C|s clock uuid params before after F
                   |s clock params|s params updates before after F|s i];
    cbn [Server.rows].
  - exact N.
  - unfold Server.postWorkOrdersCreate, createWorkOrder.
    match goal with |- context [insert (Server.rows s) ?r] =>
      destruct (insert_cases (Server.rows s) r) as [[E [A _]] | [e E]];
        rewrite E
    end; cbn [ok fail data error snd]; [|exact N].
    rewrite map_app. cbn [List.map id].
    apply NoDup_added; [exact N | now apply absent_key].
  - exact N.
  - unfold Server.updateWorkOrderWrite.
    destruct (update_cases (Server.rows s) (uId params) (applyUpdates updates))
      as [[r [_ E]] | [e E]]; rewrite E; cbn [snd]; [|exact N].
    now rewrite map_rewritten.
  - unfold deleteWorkOrder, delete. cbn [snd]. now apply NoDup_filtered.
Qed.

Lemma raced_run :
  Server.serverRun (Server.idle []) (Server.idle (snd secondRaced)).
Proof.
  eapply Server.run_step;
    [exact (Server.post_checked (Server.idle [])
              (crownRequest 77 "D2740") racedParams eq_refl)|].
  eapply Server.run_step;
    [exact (Server.post_checked
              {| Server.rows := [];
                 Server.inFlight := [Server.Creating racedParams] |}
              (crownRequest 77 "D2740") racedParams eq_refl)|].
  eapply Server.run_step;
    [exact (Server.post_created
              {| Server.rows := [];
                 Server.inFlight := [Server.Creating racedParams;
                                     Server.Creating racedParams] |}
              1000 "wo-1" racedParams [] [Server.Creating racedParams]
              eq_refl)|].
  eapply Server.run_step; [|apply Server.run_done].
  exact (Server.post_created
           {| Server.rows := snd firstRaced;
              Server.inFlight := [Server.Creating racedParams] |}
           1001 "wo-2" racedParams [] [] eq_refl).
Qed.

(** X21.  Requests to the routes that write, handled one after another,
    keep two invariants of the table: no two rows have the same key, and
    no two rows refer to the same procedure.  The first holds of every
    round trip of every request, however the requests interleave.  The
    second is best effort: [POST /work-orders] looks for a work order of
    the procedure in one round trip and creates in another, and two
    requests for the same procedure that are both checked before either
    is created are both answered 201 and leave two work orders for the
    procedure. *)
Theorem routes_keep_one_order_per_procedure :
  (forall s s',
      Server.serverStep s s' ->
      uniqueKeys (Server.rows s) -> uniqueKeys (Server.rows s')) /\
  (forall t t',
      routeStep t t' ->
      Server.serverRun (Server.idle t) (Server.idle t') /\
      (uniqueKeys t -> uniqueKeys t') /\
      (uniquePerProcedure t -> uniquePerProcedure t')) /\
  (Server.serverRun (Server.idle []) (Server.idle (snd secondRaced)) /\
   statusCode (fst firstRaced) = 201 /\
   statusCode (fst secondRaced) = 201 /\
   List.map opendental_procedure_id (snd secondRaced) = [77; 77] /\
   uniqueKeys (snd secondRaced) /\
   ~ uniquePerProcedure (snd secondRaced)).
Proof.
  split; [exact serverStep_keys|]. split.
  - intros t t' Step. split; [now apply routeStep_run|]. split; intros N.
    + apply (routeStep_keeps id t t'); try assumption; [reflexivity|].
      intros clock uuid body row _ A _ I. rewrite I. now apply absent_key.
    + apply (routeStep_keeps opendental_procedure_id t t'); try assumption;
        [reflexivity|].
      intros clock uuid body row _ _ W _. now apply no_order_for_procedure.
  - split; [exact raced_run|].
    split; [reflexivity|]. split; [reflexivity|]. split; [reflexivity|].
    split.
    + unfold uniqueKeys.
      change (NoDup ["wo-1"; "wo-2"]).
      constructor; [intros [E | []]; discriminate E|].
      constructor; [intros [] | constructor].
    + unfold uniquePerProcedure.
      change (~ NoDup [77; 77]).
      intros N. inversion N as [|x l H _ E]. apply H. now left.
Qed.

(** Two requests for different procedures, one after the other: the
    second is created beside the first. *)
Lemma routes_keep_one_order_per_procedure_witness :
  Server.serverRun (Server.idle oneOrder) (Server.idle twoOrders) /\
  List.length twoOrders = 2%nat /\
  uniqueKeys twoOrders /\ uniquePerProcedure twoOrders.
Proof.
  destruct (proj1 (proj2 routes_keep_one_order_per_procedure)
              oneOrder twoOrders
              (step_post oneOrder 1500 "wo-2" (crownRequest 78 "D2750")))
    as [R [K P]].
  split; [exact R|]. split; [reflexivity|].
  split; [apply K | apply P]; vm_compute;
    (constructor; [intros [] | constructor]).
Defined.

End RouteFacts.

Ltac by_letter :=
  repeat match goal with
         | |- context [match ?s with EmptyString => _ | String _ _ => _ end] =>
             destruct s; cbv beta iota
         | |- context [match ?c with Ascii _ _ _ _ _ _ _ _ => _ end] =>
             destruct c; cbv beta iota
         | |- context [if ?b then _ else _] =>
             is_var b; destruct b; cbv beta iota
         end.

(** A [switch] on the five intents takes the branch of the intent that
    the text spells, and the default branch for every other text. *)
Lemma switch_chain {X : Type} (s : string) (a b c d e f : X) :
  match s with
  | "list_lab_slips" => a
  | "get_status" => b
  | "update_status" => c
  | "create_lab_slip" => d
  | "resend_email" => e
  | _ => f
  end
  = if String.eqb s "list_lab_slips" then a
    else if String.eqb s "get_status" then b
    else if String.eqb s "update_status" then c
    else if String.eqb s "create_lab_slip" then d
    else if String.eqb s "resend_email" then e
    else f.
Proof. by_letter; reflexivity. Qed.

Lemma switch_intent {X : Type} (s : string) (a b c d e f : X) :
  let taken :=
    match s with
    | "list_lab_slips" => a
    | "get_status" => b
    | "update_status" => c
    | "create_lab_slip" => d
    | "resend_email" => e
    | _ => f
    end in
  (s = "update_status" /\ taken = c) \/
  (s <> "update_status" /\
   (taken = a \/ taken = b \/ taken = d \/ taken = e \/ taken = f)).
Proof.
  cbv zeta. rewrite switch_chain.
  destruct (String.eqb_spec s "list_lab_slips") as [-> | _];
    [right; split; [discriminate | tauto]|].
  destruct (String.eqb_spec s "get_status") as [-> | _];
    [right; split; [discriminate | tauto]|].
  destruct (String.eqb_spec s "update_status") as [-> | N];
    [left; split; reflexivity|].
  right. split; [exact N|].
  destruct (String.eqb s "create_lab_slip"); [tauto|].
  destruct (String.eqb s "resend_email"); tauto.
Qed.

Section CommandFacts.
Import CrownTypes Supabase WorkOrderQueries AICommands SpecStore SpecCommands.

Variable JSON_parse : string -> option JsValue.
Variable toText : JsValue -> string.
Variable StringToNumber : string -> float.
Variable limitOf : JsValue -> nat.

(** The [switch] runs one of the three handlers, the update handler for
    the intent [update_status] only, or answers without a handler. *)
Lemma dispatch_cases (w : World) (now : Z) (parsed : ParsedCommand) :
  (intent parsed = JString "update_status" /\
   dispatch toText limitOf w now parsed
   = handleUpdateStatus toText w now (parameters parsed)) \/
  (intent parsed <> JString "update_status" /\
   (dispatch toText limitOf w now parsed
    = handleListLabSlips toText limitOf w (parameters parsed) \/
    dispatch toText limitOf w now parsed
    = handleGetStatus toText w (parameters parsed) \/
    exists message error,
      dispatch toText limitOf w now parsed = (failed message error, w))).
Proof.
  unfold dispatch.
  destruct (intent parsed) as [| |b|n|s|items|fields];
    try (right; split; [discriminate|];
         right; right; eexists; eexists; reflexivity).
  match goal with
  | |- context [match s with EmptyString => ?f | String _ _ => _ end] =>
      pose proof (switch_intent s
                    (handleListLabSlips toText limitOf w (parameters parsed))
                    (handleGetStatus toText w (parameters parsed))
                    (handleUpdateStatus toText w now (parameters parsed))
                    (failed "Lab slip creation requires structured data. Please use the API endpoint."
                            "Not supported via natural language", w)
                    (failed "Email resending is not yet implemented"
                            "Feature pending", w)
                    f) as H
  end.
  cbv zeta in H.
  destruct H as [[E H] | [N [H | [H | [H | [H | H]]]]]].
  - left. split; [now rewrite E | exact H].
  - right. split; [congruence|]. left. exact H.
  - right. split; [congruence|]. right. left. exact H.
  - right. split; [congruence|]. right. right. eexists. eexists. exact H.
  - right. split; [congruence|]. right. right. eexists. eexists. exact H.
  - right. split; [congruence|]. right. right. eexists. eexists. exact H.
Qed.

Lemma handleListLabSlips_reads (w : World) (params : JsValue) :
  exists filters lim,
    snd (handleListLabSlips toText limitOf w params)
    = called w (ListWorkOrders filters lim) (table w).
Proof. eexists. eexists. reflexivity. Qed.

Lemma handleGetStatus_reads (w : World) (params : JsValue) :
  snd (handleGetStatus toText w params) = w \/
  exists i, snd (handleGetStatus toText w params)
            = called w (GetWorkOrderById i) (table w).
Proof.
  unfold handleGetStatus. destruct (negb _); [now left|].
  right. eexists.
  destruct (error _); [reflexivity|]. destruct (data _); reflexivity.
Qed.

Lemma handleUpdateStatus_writes (w : World) (now : Z) (params : JsValue) :
  snd (handleUpdateStatus toText w now params) = w \/
  exists i s n,
    snd (handleUpdateStatus toText w now params)
    = called w (UpdateWorkOrderStatus i s n)
             (snd (updateWorkOrderStatus (table w) now i s n)).
Proof.
  unfold handleUpdateStatus. destruct (_ || _)%bool; [now left|].
  right.
  match goal with
  | |- context [updateWorkOrderStatus (table w) now ?i ?s ?n] =>
      exists i, s, n; destruct (updateWorkOrderStatus (table w) now i s n)
        as [res t']
  end.
  cbn [snd]. destruct (error res); [reflexivity|].
  destruct (data res); reflexivity.
Qed.

(** What a dispatched command does to the store: nothing, one read, or
    for the intent [update_status] one status update. *)
Lemma dispatch_effect (w : World) (now : Z) (parsed : ParsedCommand) :
  snd (dispatch toText limitOf w now parsed) = w \/
  (exists c, snd (dispatch toText limitOf w now parsed)
             = called w c (table w)) \/
  (intent parsed = JString "update_status" /\
   exists i s n,
     snd (dispatch toText limitOf w now parsed)
     = called w (UpdateWorkOrderStatus i s n)
              (snd (updateWorkOrderStatus (table w) now i s n))).
Proof.
  destruct (dispatch_cases w now parsed)
    as [[I E] | [_ [E | [E | [m [e E]]]]]]; rewrite E.
  - destruct (handleUpdateStatus_writes w now (parameters parsed))
      as [H | H]; [now left | right; right; now split].
  - destruct (handleListLabSlips_reads w (parameters parsed))
      as [filters [lim H]]. right. left. eexists. exact H.
  - destruct (handleGetStatus_reads w (parameters parsed)) as [H | [i H]];
      [now left | right; left; eexists; exact H].
  - now left.
Qed.

Lemma execute_effect (w : World) (now : Z) (parsed : ParsedCommand)
      (phrasing : ClaudeReply) :
  snd (execute toText StringToNumber limitOf w now parsed phrasing) = w \/
  snd (execute toText StringToNumber limitOf w now parsed phrasing)
  = snd (dispatch toText limitOf w now parsed).
Proof.
  unfold execute. destruct (lessThan _ _ _ _); [now left|].
  right. now destruct (dispatch toText limitOf w now parsed).
Qed.

(** X22.  A command in natural language makes at most one call on the
    queries, and never creates or deletes a work order: whatever the two
    replies of the language model, the table has the same keys in the
    same order afterwards (and so as many rows). *)
Theorem executeCommand_keeps_rows
        (w : World) (now : Z) (userInput : string)
        (parsing phrasing : ClaudeReply) :
  let w' := snd (executeCommand JSON_parse toText StringToNumber limitOf
                                w now userInput parsing phrasing) in
  List.map id (table w') = List.map id (table w) /\
  List.length (table w') = List.length (table w) /\
  exists made, calls w' = (calls w ++ made)%list /\
               (List.length made <= 1)%nat.
Proof.
  cbv zeta. rewrite executeCommand_execute.
  set (parsed := parseCommand JSON_parse userInput parsing).
  assert (K : List.map id
                (table (snd (execute toText StringToNumber limitOf w now
                                     parsed phrasing)))
              = List.map id (table w) /\
              exists made,
                calls (snd (execute toText StringToNumber limitOf w now
                                    parsed phrasing))
                = (calls w ++ made)%list /\ (List.length made <= 1)%nat).
  { destruct (execute_effect w now parsed phrasing) as [E | E]; rewrite E.
    - split; [reflexivity|]. exists []. split; [now rewrite app_nil_r | cbn; lia].
    - destruct (dispatch_effect w now parsed)
        as [D | [[c D] | [_ [i [s [n D]]]]]]; rewrite D; cbn [called table calls].
      + split; [reflexivity|]. exists [].
        split; [now rewrite app_nil_r | cbn; lia].
      + split; [reflexivity|]. exists [c]. split; [reflexivity | cbn; lia].
      + split.
        * unfold updateWorkOrderStatus. now rewrite updateWorkOrder_keeps.
        * eexists. split; [reflexivity | cbn; lia]. }
  destruct K as [K1 K2]. split; [exact K1|]. split; [|exact K2].
  rewrite <- (length_map id), K1. apply length_map.
Qed.

(** X23.  Only the intent [update_status] writes: a command with any
    other intent leaves the table as it is, and so does every command
    that is answered with the clarification response. *)
Theorem execute_writes_only_on_update
        (w : World) (now : Z) (parsed : ParsedCommand) (phrasing : ClaudeReply) :
  intent parsed <> JString "update_status" ->
  table (snd (execute toText StringToNumber limitOf w now parsed phrasing))
  = table w.
Proof.
  intros N.
  destruct (execute_effect w now parsed phrasing) as [E | E]; rewrite E;
    [reflexivity|].
  destruct (dispatch_effect w now parsed)
    as [D | [[c D] | [I _]]]; [now rewrite D | now rewrite D | contradiction].
Qed.

Lemma zero_is_low :
  lessThan toText StringToNumber (JNumber 0) 0.6%float = true.
Proof. reflexivity. Qed.

(** X24.  A command whose parse stage fails is never dispatched: it is
    answered with the clarification response, no call on the queries is
    made and the store is as it was. *)
Theorem executeCommand_unparsed
        (w : World) (now : Z) (userInput : string)
        (parsing phrasing : ClaudeReply) :
  parseStageFails JSON_parse parsing ->
  executeCommand JSON_parse toText StringToNumber limitOf
                 w now userInput parsing phrasing
  = (clarification, w).
Proof.
  intros F. rewrite executeCommand_execute.
  destruct (parseStageFails_throws JSON_parse userInput parsing F) as [e E].
  unfold parseCommand. rewrite E. cbn [Js.tryCatch].
  unfold execute, unknownCommand. cbn [confidence].
  now rewrite zero_is_low.
Qed.

Lemma getWorkOrderById_unique (t : Table) (r : CrownWorkOrderRecord) :
  uniqueKeys t -> In r t -> getWorkOrderById t (id r) = ok r.
Proof.
  unfold uniqueKeys, getWorkOrderById. intros N H.
  induction t as [|x t IH]; [destruct H|].
  cbn [List.map] in N. inversion N as [|a l Hx N' E]. subst a l.
  cbn [filter]. destruct H as [-> | H].
  - rewrite (proj2 (eq_id_true (id r) r) eq_refl).
    assert (A : absent (id r) t).
    { intros y Hy E. apply Hx. rewrite <- E. now apply in_map. }
    now rewrite (proj1 (filter_absent (id r) t) A).
  - assert (E : eq_id (id r) x = false).
    { apply eq_id_false. intros E. apply Hx. rewrite E. now apply in_map. }
    rewrite E. now apply IH.
Qed.

(** X25.  The handler of [get_status] only reads.  Without an id
    ([lab_slip_id], else [id]) it makes no call.  With one, on a table
    without duplicate keys, it succeeds exactly when a row has that key,
    and then reports that row and its status; for a key no row has the
    answer is [Lab slip not found]. *)
Theorem handleGetStatus_finds (w : World) (params : JsValue) :
  let labSlipId := or (get params "lab_slip_id") (get params "id") in
  let result := fst (handleGetStatus toText w params) in
  table (snd (handleGetStatus toText w params)) = table w /\
  (truthy labSlipId = false ->
   handleGetStatus toText w params
   = (failed "Lab slip ID is required" "Missing lab_slip_id parameter", w)) /\
  (truthy labSlipId = true ->
   uniqueKeys (table w) ->
   (forall row,
       In row (table w) -> id row = text toText labSlipId ->
       result = {| success := true; rData := Some (Row row); rError := None;
                   rMessage := "Lab slip status: " ++ status row |}) /\
   (absent (text toText labSlipId) (table w) ->
    success result = false /\ rData result = None /\
    rMessage result = "Lab slip not found")).
Proof.
  cbv zeta. split; [|split].
  - destruct (handleGetStatus_reads w params) as [E | [i E]]; now rewrite E.
  - intros T. unfold handleGetStatus. now rewrite T.
  - intros T U. unfold handleGetStatus. rewrite T. cbn [negb]. split.
    + intros row H I. rewrite <- I.
      now rewrite (getWorkOrderById_unique (table w) row U H).
    + intros A. rewrite (getWorkOrderById_absent _ _ A). cbn.
      repeat split.
Qed.

End CommandFacts.

Section CommandSamples.
Import CrownTypes Supabase WorkOrderQueries AICommands SpecStore SpecCommands.

Lemma execute_writes_only_on_update_witness :
  table (snd (execute sampleText sampleNumber sampleLimit (emptyWorld oneOrder)
                      5000 (listPending 0.9) (Rejected "overloaded")))
  = table (emptyWorld oneOrder).
Proof.
  apply (execute_writes_only_on_update sampleText sampleNumber sampleLimit).
  cbn [listPending intent]. discriminate.
Defined.

Lemma executeCommand_unparsed_witness :
  executeCommand sampleParse sampleText sampleNumber sampleLimit
                 (emptyWorld oneOrder) 5000 "mark abc as seated"
                 (Message [TextBlock "Sure! I will mark it."])
                 (Rejected "overloaded")
  = (clarification, emptyWorld oneOrder).
Proof.
  apply (executeCommand_unparsed sampleParse sampleText sampleNumber sampleLimit).
  apply fails_not_json. reflexivity.
Defined.

End CommandSamples.

Section HelperQueries.
Import CrownTypes Supabase WorkOrderQueries Routes QueryHelpers SpecStore.

Lemma countIf_insertDesc (p : CrownWorkOrderRecord -> bool)
      (r : CrownWorkOrderRecord) (l : Table) :
  countIf p (insertDesc r l) = countIf p (r :: l).
Proof.
  induction l as [|x l IH]; [reflexivity|].
  cbn [insertDesc]. destruct (created_at x <? created_at r); [reflexivity|].
  rewrite !countIf_cons, IH, countIf_cons. lia.
Qed.

Lemma countIf_ordered (p : CrownWorkOrderRecord -> bool) (t : Table) :
  countIf p (orderByCreatedDesc t) = countIf p t.
Proof.
  induction t as [|x t IH]; [reflexivity|].
  cbn [orderByCreatedDesc fold_right]. fold (orderByCreatedDesc t).
  now rewrite countIf_insertDesc, !countIf_cons, IH.
Qed.

Lemma filter_length_le {X : Type} (p : X -> bool) (l : list X) :
  (List.length (filter p l) <= List.length l)%nat.
Proof.
  induction l as [|x l IH]; [apply le_n|].
  cbn [filter]. destruct (p x); cbn [List.length]; lia.
Qed.

(** A listing by status alone, while it is not cut by the limit, has as
    many rows as the internal work orders that the status filter keeps. *)
Lemma listed_count (t : Table) (p : CrownWorkOrderRecord -> bool) (lim : nat) :
  (List.length (filter isInternal t) <= lim)%nat ->
  List.length (limit lim (orderByCreatedDesc (filter p (filter isInternal t))))
  = countIf p (filter isInternal t).
Proof.
  intros H. unfold limit. rewrite firstn_all2.
  - now rewrite orderByCreatedDesc_length.
  - rewrite orderByCreatedDesc_length.
    pose proof (filter_length_le p (filter isInternal t)). lia.
Qed.

(** X26.  While the table holds at most 50 internal work orders, the
    listings by status and the statistics agree: the statistics count as
    pending, in progress and ready exactly as many work orders as
    [getPendingWorkOrders], [getInProgressWorkOrders] and
    [getReadyWorkOrders] return, and [getWorkOrdersByStatus] returns as
    many seated work orders as the statistics count as completed. *)
Theorem status_listings_match_stats (t : Table) :
  (List.length (filter isInternal t) <= 50)%nat ->
  List.length (getPendingWorkOrders t) = statPending (getWorkOrderStats t) /\
  List.length (getInProgressWorkOrders t) = inProgress (getWorkOrderStats t) /\
  List.length (getReadyWorkOrders t) = statReady (getWorkOrderStats t) /\
  List.length (getWorkOrdersByStatus t seated) = completed (getWorkOrderStats t).
Proof.
  intros H.
  assert (All : listWorkOrders t noFilters 1000
                = orderByCreatedDesc (filter isInternal t)).
  { rewrite listWorkOrders_all. unfold limit. apply firstn_all2.
    rewrite orderByCreatedDesc_length.
    apply (Nat.le_trans _ 50); [exact H|].
    apply Nat.leb_le. reflexivity. }
  unfold getWorkOrderStats. rewrite All.
  cbn [statPending inProgress statReady completed].
  rewrite !countIf_ordered.
  unfold getPendingWorkOrders, getInProgressWorkOrders, getReadyWorkOrders,
    getWorkOrdersByStatus, defaultLimit.
  repeat split; apply (listed_count t _ 50 H).
Qed.

Lemma status_listings_match_stats_witness :
  List.length (getPendingWorkOrders oneOrder)
  = statPending (getWorkOrderStats oneOrder) /\
  List.length (getInProgressWorkOrders oneOrder)
  = inProgress (getWorkOrderStats oneOrder) /\
  List.length (getReadyWorkOrders oneOrder)
  = statReady (getWorkOrderStats oneOrder) /\
  List.length (getWorkOrdersByStatus oneOrder seated)
  = completed (getWorkOrderStats oneOrder).
Proof.
  apply (status_listings_match_stats oneOrder).
  apply Nat.leb_le. reflexivity.
Defined.

End HelperQueries.
